(** * Sketchbook vehicle core: [Vehicle.ts] and [Car.ts]

    A shallow embedding of the vehicle controller of the repository
    (the abstract [Vehicle] class and its one concrete subclass [Car])
    and the properties of its drivetrain, steering, air control and input
    handling.

    JavaScript numbers are modelled as exact rationals ([Q]): the
    properties below are about the control logic (guards, clamps, which
    field is written when), not about rounding.  Numeric equality between
    computed values is therefore [==] ([Qeq]); values that the code merely
    copies or resets are compared with [=].

    A [Car] is a [Vehicle], which is a [THREE.Object3D]: the instance has
    one [position] and one [quaternion], the transform the scene graph
    renders, which [Car.update] addresses as [this.position].
    [Vehicle.update] addresses them as [super.position] and
    [super.quaternion]: a property read through [super] looks the name up on
    the prototype of the base class, and three.js defines the two on every
    instance, not on the prototype, so that read gives [undefined].  The
    chassis body ([collision]) has its own position and orientation, owned
    by the integrator. *)

From Stdlib Require Import QArith Qminmax Qabs Lqa ZArith List String Bool Lia.
From stdpp Require Import base list.

Local Open Scope string_scope.
Local Open Scope list_scope.
Local Open Scope Q_scope.

(** ** JavaScript numbers and [Math] *)

Module Math.
Definition min (a b : Q) : Q := Qmin a b.
Definition max (a b : Q) : Q := Qmax a b.
End Math.

(** [a < b] as the boolean a JavaScript [if] branches on. *)
Definition ltb (a b : Q) : bool :=
  match Qcompare a b with Lt => true | _ => false end.

(** [Number.MAX_VALUE], the largest finite double: [2^1024 - 2^971]. *)
Definition Number_MAX_VALUE : Q := inject_Z (2 ^ 1024 - 2 ^ 971).

(** ** three.js: the parts the vehicle code calls *)

Module THREE.

Module MathUtils.
(** [clamp(value, min, max) = Math.max(min, Math.min(max, value))]. *)
Definition clamp (value lo hi : Q) : Q := Math.max lo (Math.min hi value).
End MathUtils.

Module Quaternion.
Record t : Type := mk { x : Q; y : Q; z : Q; w : Q }.
End Quaternion.

Module Vector3.
Record t : Type := mk { x : Q; y : Q; z : Q }.

Definition dot (a b : t) : Q := x a * x b + y a * y b + z a * z b.

(** [Vector3.applyQuaternion]: [q * v * q^-1], written out as in
    three.js (first [quat * vector], then [result * inverse quat]). *)
Definition applyQuaternion (v : t) (q : Quaternion.t) : t :=
  let qx := Quaternion.x q in
  let qy := Quaternion.y q in
  let qz := Quaternion.z q in
  let qw := Quaternion.w q in
  let ix := qw * x v + qy * z v - qz * y v in
  let iy := qw * y v + qz * x v - qx * z v in
  let iz := qw * z v + qx * y v - qy * x v in
  let iw := - qx * x v - qy * y v - qz * z v in
  mk (ix * qw + iw * - qx + iy * - qz - iz * - qy)
     (iy * qw + iw * - qy + iz * - qx - ix * - qz)
     (iz * qw + iw * - qz + ix * - qy - iy * - qx).
End Vector3.

(** The part of an [Object3D] the vehicle code writes: its local
    transform. *)
Module Object3D.
Record t : Type := mk { position : Vector3.t; quaternion : Quaternion.t }.
End Object3D.

End THREE.

(** ** cannon-es: the rigid-body integrator, as the vehicle sees it *)

Module CANNON.

Module Vec3.
Record t : Type := mk { x : Q; y : Q; z : Q }.

Definition dot (a b : t) : Q := x a * x b + y a * y b + z a * z b.
Definition vadd (a b : t) : t := mk (x a + x b) (y a + y b) (z a + z b).
Definition vsub (a b : t) : t := mk (x a - x b) (y a - y b) (z a - z b).
Definition scale (a : t) (k : Q) : t := mk (k * x a) (k * y a) (k * z a).
(** [v.set(x, y, z)] overwrites all three components. *)
Definition set (_ : t) (x' y' z' : Q) : t := mk x' y' z'.
End Vec3.

Module Quaternion.
Record t : Type := mk { x : Q; y : Q; z : Q; w : Q }.
End Quaternion.

Module Transform.
Record t : Type := mk { position : Vec3.t; quaternion : Quaternion.t }.
End Transform.

Module Body.
Record t : Type := mk {
  position : Vec3.t;
  previousPosition : Vec3.t;
  interpolatedPosition : Vec3.t;
  initPosition : Vec3.t;
  quaternion : Quaternion.t;
  velocity : Vec3.t;
  angularVelocity : Vec3.t
}.

Definition with_positions (p pp ip i0 : Vec3.t) (b : t) : t :=
  mk p pp ip i0 (quaternion b) (velocity b) (angularVelocity b).
Definition with_angularVelocity (w : Vec3.t) (b : t) : t :=
  mk (position b) (previousPosition b) (interpolatedPosition b)
     (initPosition b) (quaternion b) (velocity b) w.
End Body.

Module WheelInfo.
Record t : Type := mk {
  engineForce : Q;
  steering : Q;
  brake : Q;
  worldTransform : Transform.t
}.

Definition with_engineForce (v : Q) (wi : t) : t :=
  mk v (steering wi) (brake wi) (worldTransform wi).
Definition with_steering (v : Q) (wi : t) : t :=
  mk (engineForce wi) v (brake wi) (worldTransform wi).
Definition with_brake (v : Q) (wi : t) : t :=
  mk (engineForce wi) (steering wi) v (worldTransform wi).
Definition with_worldTransform (v : Transform.t) (wi : t) : t :=
  mk (engineForce wi) (steering wi) (brake wi) v.
End WheelInfo.

Module RaycastVehicle.
Record t : Type := mk {
  wheelInfos : list WheelInfo.t;
  numWheelsOnGround : nat
}.

(** [applyEngineForce(value, wheelIndex)],
    [setSteeringValue(value, wheelIndex)] and
    [setBrake(brake, wheelIndex)] each write one field of
    [wheelInfos[wheelIndex]]. *)
Definition applyEngineForce (value : Q) (wheelIndex : nat) (v : t) : t :=
  mk (alter (WheelInfo.with_engineForce value) wheelIndex (wheelInfos v))
     (numWheelsOnGround v).
Definition setSteeringValue (value : Q) (wheelIndex : nat) (v : t) : t :=
  mk (alter (WheelInfo.with_steering value) wheelIndex (wheelInfos v))
     (numWheelsOnGround v).
Definition setBrake (value : Q) (wheelIndex : nat) (v : t) : t :=
  mk (alter (WheelInfo.with_brake value) wheelIndex (wheelInfos v))
     (numWheelsOnGround v).
End RaycastVehicle.

End CANNON.

(** ** The repository's own data *)

(** [core/KeyBinding.ts]: the key codes of one action, its pressed state and
    its two one-shot edge flags. *)
Module KeyBinding.
Record t : Type := mk {
  eventCodes : list string;
  isPressed : bool;
  justPressed : bool;
  justReleased : bool
}.

(** [new KeyBinding(code)] *)
Definition new (code : string) : t := mk [code] false false false.

Definition with_isPressed (v : bool) (b : t) : t :=
  mk (eventCodes b) v (justPressed b) (justReleased b).
Definition with_justPressed (v : bool) (b : t) : t :=
  mk (eventCodes b) (isPressed b) v (justReleased b).
Definition with_justReleased (v : bool) (b : t) : t :=
  mk (eventCodes b) (isPressed b) (justPressed b) v.
End KeyBinding.

(** [vehicles/Wheel.ts]: the visual proxy of a wheel.  [node] names the
    scene node the wheel wraps: two wheels built from the same node share
    their [wheelObject], and what is written through one shows through the
    other. *)
Module Wheel.
Record t : Type := mk { node : nat; wheelObject : THREE.Object3D.t }.
End Wheel.

(** [physics/spring_simulation/SpringSimulator.ts]: the steering damper. *)
Module SpringSimulator.
Record t : Type := mk { position : Q; velocity : Q; target : Q }.
Definition with_target (v : Q) (s : t) : t := mk (position s) (velocity s) v.
End SpringSimulator.

(** What the vehicle reaches of its [World]: who receives input, the camera
    operator's radius, and how often the scenario was restarted. *)
Inductive InputReceiver : Type :=
| ReceiverVehicle
| ReceiverCameraOperator.

Module World.
Record t : Type := mk {
  inputReceiver : InputReceiver;
  cameraRadius : Q;
  scenarioRestarts : nat
}.
Definition setInputReceiver (r : InputReceiver) (w : t) : t :=
  mk r (cameraRadius w) (scenarioRestarts w).
Definition setRadius (r : Q) (w : t) : t :=
  mk (inputReceiver w) r (scenarioRestarts w).
Definition restartScenario (w : t) : t :=
  mk (inputReceiver w) (cameraRadius w) (S (scenarioRestarts w)).
End World.

Record KeyboardEvent : Type := mkKeyboardEvent { shiftKey : bool }.

(** The fields of a [Car] instance: first those declared by [Vehicle]
    (with [position] and [quaternion] inherited from [THREE.Object3D]),
    then those declared by [Car].  [actions] is a JavaScript object used as
    a table; its keys are kept in insertion order, which is the order
    [for ... in] visits them. *)
Record CarObject : Type := mkCarObject {
  actions : list (string * KeyBinding.t);
  rayCastVehicle : CANNON.RaycastVehicle.t;
  wheels : list Wheel.t;
  world : option World.t;
  collision : CANNON.Body.t;
  firstPerson : bool;
  position : THREE.Vector3.t;
  quaternion : THREE.Quaternion.t;
  _speed : Q;
  steeringWheel : option Q;
  airSpinTimer : Q;
  steeringSimulator : SpringSimulator.t;
  gear : Z;
  shiftTimer : Q;
  timeToShift : Q;
  canTiltForwards : bool
}.

(** Field assignments.  No code of the repository assigns [gear],
    [shiftTimer] or [timeToShift] after construction, so they have none. *)
Definition set_actions (v : list (string * KeyBinding.t))
  (this : CarObject) : CarObject :=
  mkCarObject v (rayCastVehicle this) (wheels this) (world this)
    (collision this) (firstPerson this) (position this) (quaternion this)
    (_speed this) (steeringWheel this) (airSpinTimer this)
    (steeringSimulator this) (gear this) (shiftTimer this)
    (timeToShift this) (canTiltForwards this).
Definition set_rayCastVehicle (v : CANNON.RaycastVehicle.t)
  (this : CarObject) : CarObject :=
  mkCarObject (actions this) v (wheels this) (world this) (collision this)
    (firstPerson this) (position this) (quaternion this) (_speed this)
    (steeringWheel this) (airSpinTimer this) (steeringSimulator this)
    (gear this) (shiftTimer this) (timeToShift this) (canTiltForwards this).
Definition set_wheels (v : list Wheel.t)
  (this : CarObject) : CarObject :=
  mkCarObject (actions this) (rayCastVehicle this) v (world this)
    (collision this) (firstPerson this) (position this) (quaternion this)
    (_speed this) (steeringWheel this) (airSpinTimer this)
    (steeringSimulator this) (gear this) (shiftTimer this)
    (timeToShift this) (canTiltForwards this).
Definition set_world (v : option World.t)
  (this : CarObject) : CarObject :=
  mkCarObject (actions this) (rayCastVehicle this) (wheels this) v
    (collision this) (firstPerson this) (position this) (quaternion this)
    (_speed this) (steeringWheel this) (airSpinTimer this)
    (steeringSimulator this) (gear this) (shiftTimer this)
    (timeToShift this) (canTiltForwards this).
Definition set_collision (v : CANNON.Body.t)
  (this : CarObject) : CarObject :=
  mkCarObject (actions this) (rayCastVehicle this) (wheels this)
    (world this) v (firstPerson this) (position this) (quaternion this)
    (_speed this) (steeringWheel this) (airSpinTimer this)
    (steeringSimulator this) (gear this) (shiftTimer this)
    (timeToShift this) (canTiltForwards this).
Definition set_firstPerson (v : bool)
  (this : CarObject) : CarObject :=
  mkCarObject (actions this) (rayCastVehicle this) (wheels this)
    (world this) (collision this) v (position this) (quaternion this)
    (_speed this) (steeringWheel this) (airSpinTimer this)
    (steeringSimulator this) (gear this) (shiftTimer this)
    (timeToShift this) (canTiltForwards this).
Definition set_position (v : THREE.Vector3.t)
  (this : CarObject) : CarObject :=
  mkCarObject (actions this) (rayCastVehicle this) (wheels this)
    (world this) (collision this) (firstPerson this) v (quaternion this)
    (_speed this) (steeringWheel this) (airSpinTimer this)
    (steeringSimulator this) (gear this) (shiftTimer this)
    (timeToShift this) (canTiltForwards this).
Definition set_quaternion (v : THREE.Quaternion.t)
  (this : CarObject) : CarObject :=
  mkCarObject (actions this) (rayCastVehicle this) (wheels this)
    (world this) (collision this) (firstPerson this) (position this) v
    (_speed this) (steeringWheel this) (airSpinTimer this)
    (steeringSimulator this) (gear this) (shiftTimer this)
    (timeToShift this) (canTiltForwards this).
Definition set_speed (v : Q)
  (this : CarObject) : CarObject :=
  mkCarObject (actions this) (rayCastVehicle this) (wheels this)
    (world this) (collision this) (firstPerson this) (position this)
    (quaternion this) v (steeringWheel this) (airSpinTimer this)
    (steeringSimulator this) (gear this) (shiftTimer this)
    (timeToShift this) (canTiltForwards this).
Definition set_steeringWheel (v : option Q)
  (this : CarObject) : CarObject :=
  mkCarObject (actions this) (rayCastVehicle this) (wheels this)
    (world this) (collision this) (firstPerson this) (position this)
    (quaternion this) (_speed this) v (airSpinTimer this)
    (steeringSimulator this) (gear this) (shiftTimer this)
    (timeToShift this) (canTiltForwards this).
Definition set_airSpinTimer (v : Q)
  (this : CarObject) : CarObject :=
  mkCarObject (actions this) (rayCastVehicle this) (wheels this)
    (world this) (collision this) (firstPerson this) (position this)
    (quaternion this) (_speed this) (steeringWheel this) v
    (steeringSimulator this) (gear this) (shiftTimer this)
    (timeToShift this) (canTiltForwards this).
Definition set_steeringSimulator (v : SpringSimulator.t)
  (this : CarObject) : CarObject :=
  mkCarObject (actions this) (rayCastVehicle this) (wheels this)
    (world this) (collision this) (firstPerson this) (position this)
    (quaternion this) (_speed this) (steeringWheel this) (airSpinTimer this)
    v (gear this) (shiftTimer this) (timeToShift this)
    (canTiltForwards this).
Definition set_canTiltForwards (v : bool)
  (this : CarObject) : CarObject :=
  mkCarObject (actions this) (rayCastVehicle this) (wheels this)
    (world this) (collision this) (firstPerson this) (position this)
    (quaternion this) (_speed this) (steeringWheel this) (airSpinTimer this)
    (steeringSimulator this) (gear this) (shiftTimer this)
    (timeToShift this) v.

(** ** Method bodies: state passing with exceptions

    A method runs on the instance ([this]) and either returns or throws;
    either way the assignments made so far persist. *)

Inductive JsError : Type :=
| TypeError (message : string).

Inductive Completion (A : Type) : Type :=
| Normal (a : A) (this : CarObject)
| Abrupt (e : JsError) (this : CarObject).
Arguments Normal {A} a this.
Arguments Abrupt {A} e this.

Definition Js (A : Type) : Type := CarObject -> Completion A.

Definition ret {A} (a : A) : Js A := fun this => Normal a this.
Definition bind {A B} (m : Js A) (k : A -> Js B) : Js B :=
  fun this =>
    match m this with
    | Normal a this' => k a this'
    | Abrupt e this' => Abrupt e this'
    end.
Definition throw {A} (e : JsError) : Js A := fun this => Abrupt e this.
Definition read {A} (f : CarObject -> A) : Js A := fun this => Normal (f this) this.
Definition assign (f : CarObject -> CarObject) : Js unit :=
  fun this => Normal tt (f this).

Declare Scope js_scope.
Delimit Scope js_scope with js.
Notation "x <- c1 ;; c2" := (bind c1 (fun x => c2))
  (at level 100, c1 at next level, right associativity) : js_scope.
Notation "c1 ;; c2" := (bind c1 (fun _ => c2))
  (at level 100, right associativity) : js_scope.
Local Open Scope js_scope.

(** The instance a call leaves behind, and whether it returned. *)
Definition after {A} (c : Completion A) : CarObject :=
  match c with Normal _ this => this | Abrupt _ this => this end.
Definition returned {A} (c : Completion A) : bool :=
  match c with Normal _ _ => true | Abrupt _ _ => false end.

(** [for (const x of xs) body(x)] *)
Fixpoint for_each {X} (xs : list X) (body : X -> Js unit) : Js unit :=
  match xs with
  | [] => ret tt
  | x :: rest => body x ;; for_each rest body
  end.

(** [a && b] and [!a] on conditions that read the instance. *)
Definition andJ (a b : Js bool) : Js bool :=
  x <- a ;; if x then b else ret false.
Definition orJ (a b : Js bool) : Js bool :=
  x <- a ;; if x then ret true else b.
Definition notJ (a : Js bool) : Js bool := x <- a ;; ret (negb x).
Definition when (c : Js bool) (body : Js unit) : Js unit :=
  x <- c ;; if x then body else ret tt.

(** *** The action table

    [this.actions[name]] is looked up among the keys of the table itself.
    A name that is no key of the table but a member of [Object.prototype]
    (such as "toString") is not [undefined] in JavaScript; such names are
    no actions and are outside this model: where the name matters, the
    statements below speak of names of the table. *)

Fixpoint lookup_action (name : string) (tbl : list (string * KeyBinding.t))
  : option KeyBinding.t :=
  match tbl with
  | [] => None
  | (k, b) :: rest => if String.eqb k name then Some b else lookup_action name rest
  end.

Fixpoint update_action (name : string) (f : KeyBinding.t -> KeyBinding.t)
  (tbl : list (string * KeyBinding.t)) : list (string * KeyBinding.t) :=
  match tbl with
  | [] => []
  | (k, b) :: rest =>
      if String.eqb k name then (k, f b) :: rest
      else (k, b) :: update_action name f rest
  end.

(** [this.actions[name].field]: reading a field of an entry that is not in
    the table is a property access on [undefined], a [TypeError]. *)
Definition action_field {A} (name : string) (field : KeyBinding.t -> A) : Js A :=
  tbl <- read actions ;;
  match lookup_action name tbl with
  | Some b => ret (field b)
  | None => throw (TypeError ("Cannot read properties of undefined: " ++ name)%string)
  end.

(** [this.actions[name].field = v], with the same fault on [undefined]. *)
Definition set_action_field (name : string) (f : KeyBinding.t -> KeyBinding.t)
  : Js unit :=
  tbl <- read actions ;;
  match lookup_action name tbl with
  | Some _ => assign (set_actions (update_action name f tbl))
  | None => throw (TypeError ("Cannot set properties of undefined: " ++ name)%string)
  end.

(** ** Capabilities the vehicle consumes

    The wheel transform is computed by the integrator
    ([RaycastVehicle.updateWheelTransform]), vector normalisation by
    cannon-es, and the signed angle between two vectors by
    [Utils.getSignedAngleBetweenVectors] of [core/FunctionLibrary.ts].  None
    of the three is part of the vehicle code; they are taken as given. *)
Class Capabilities : Type := {
  wheelTransformWorld : CANNON.Body.t -> CANNON.WheelInfo.t -> CANNON.Transform.t;
  normalize : CANNON.Vec3.t -> CANNON.Vec3.t;
  getSignedAngleBetweenVectors : THREE.Vector3.t -> THREE.Vector3.t -> Q
}.

(** [this.world.f(...)]: [world] is [undefined] until the vehicle is added
    to one. *)
Definition with_world (f : World.t -> World.t) : Js unit :=
  w <- read world ;;
  match w with
  | Some w => assign (set_world (Some (f w)))
  | None => throw (TypeError "Cannot read properties of undefined: world")
  end.

(** [this.rayCastVehicle.f(value, i)] *)
Definition on_rayCastVehicle
  (f : CANNON.RaycastVehicle.t -> CANNON.RaycastVehicle.t) : Js unit :=
  assign (fun this => set_rayCastVehicle (f (rayCastVehicle this)) this).

(** The indices [0 .. wheelInfos.length - 1] a wheel loop runs over. *)
Definition wheel_indices : Js (list nat) :=
  read (fun this =>
    seq 0 (length (CANNON.RaycastVehicle.wheelInfos (rayCastVehicle this)))).

(** ** [vehicles/Vehicle.ts] *)

Module Vehicle.
Section Methods.
Context {caps : Capabilities}.

(** [this.onInputChange()], resolved on the class of the instance. *)
Variable this_onInputChange : Js unit.

(** One iteration of the wheel loop of [update]. *)
Definition syncWheel (i : nat) : Js unit :=
  (* this.rayCastVehicle.updateWheelTransform(i) *)
  assign (fun this =>
    set_rayCastVehicle
      (CANNON.RaycastVehicle.mk
         (alter (fun wi => CANNON.WheelInfo.with_worldTransform
                             (wheelTransformWorld (collision this) wi) wi)
                i (CANNON.RaycastVehicle.wheelInfos (rayCastVehicle this)))
         (CANNON.RaycastVehicle.numWheelsOnGround (rayCastVehicle this)))
      this) ;;
  (* let transform = this.rayCastVehicle.getWheelTransformWorld(i) *)
  infos <- read (fun this => CANNON.RaycastVehicle.wheelInfos (rayCastVehicle this)) ;;
  match infos !! i with
  | None => throw (TypeError "Cannot read properties of undefined: worldTransform")
  | Some wi =>
      let transform := CANNON.WheelInfo.worldTransform wi in
      let p := THREE.Vector3.mk
                 (CANNON.Vec3.x (CANNON.Transform.position transform))
                 (CANNON.Vec3.y (CANNON.Transform.position transform))
                 (CANNON.Vec3.z (CANNON.Transform.position transform)) in
      let q := THREE.Quaternion.mk
                 (CANNON.Quaternion.x (CANNON.Transform.quaternion transform))
                 (CANNON.Quaternion.y (CANNON.Transform.quaternion transform))
                 (CANNON.Quaternion.z (CANNON.Transform.quaternion transform))
                 (CANNON.Quaternion.w (CANNON.Transform.quaternion transform)) in
      (* let wheelObject = this.wheels[i].wheelObject *)
      ws <- read wheels ;;
      match ws !! i with
      | None => throw (TypeError "Cannot read properties of undefined: wheelObject")
      | Some w =>
          (* wheelObject.position.copy(p); wheelObject.quaternion.copy(q):
             seen through every wheel that wraps the same node *)
          assign (set_wheels
            (map (fun w' =>
                    if Nat.eqb (Wheel.node w') (Wheel.node w)
                    then Wheel.mk (Wheel.node w') (THREE.Object3D.mk p q)
                    else w') ws))
      end
  end.

(** [super.<member>.set(...)]: the member is read on
    [THREE.Object3D.prototype], where it is [undefined]; calling a method on
    it is a [TypeError], raised before any argument is evaluated. *)
Definition super_member_set (member : string) : Js unit :=
  throw (TypeError ("Cannot read properties of undefined: super." ++ member)%string).

Definition update (timeStep : Q) : Js unit :=
  (* super.position.set(collision.position.x, .y, .z) *)
  super_member_set "position" ;;
  (* super.quaternion.set(collision.quaternion.x, .y, .z, .w) *)
  super_member_set "quaternion" ;;
  indices <- wheel_indices ;;
  for_each indices syncWheel.
  (* super.updateMatrixWorld() only recomputes the render matrices *)

(** The base class leaves [onInputChange] to its subclasses. *)
Definition onInputChange : Js unit := ret tt.

Definition triggerAction (actionName : string) (value : bool) : Js unit :=
  pressed <- action_field actionName KeyBinding.isPressed ;;
  if negb (Bool.eqb pressed value) then
    set_action_field actionName (KeyBinding.with_isPressed value) ;;
    set_action_field actionName (KeyBinding.with_justPressed false) ;;
    set_action_field actionName (KeyBinding.with_justReleased false) ;;
    (if value
     then set_action_field actionName (KeyBinding.with_justPressed true)
     else set_action_field actionName (KeyBinding.with_justReleased true)) ;;
    this_onInputChange ;;
    set_action_field actionName (KeyBinding.with_justPressed false) ;;
    set_action_field actionName (KeyBinding.with_justReleased false)
  else ret tt.

Definition resetControls : Js unit :=
  names <- read (fun this => map fst (actions this)) ;;
  for_each names (fun action => triggerAction action false).

Definition handleKeyboardEvent
  (event : KeyboardEvent) (code : string) (pressed : bool) : Js unit :=
  if String.eqb code "KeyC" && pressed && shiftKey event then
    resetControls ;;
    with_world (World.setInputReceiver ReceiverCameraOperator)
  else if String.eqb code "KeyR" && pressed && shiftKey event then
    with_world World.restartScenario
  else
    names <- read (fun this => map fst (actions this)) ;;
    for_each names (fun action =>
      codes <- action_field action KeyBinding.eventCodes ;;
      if existsb (String.eqb code) codes
      then triggerAction action pressed
      else ret tt).

Definition setFirstPersonView (value : bool) : Js unit :=
  assign (set_firstPerson value) ;;
  if value then with_world (World.setRadius 0)
  else with_world (World.setRadius 3).

Definition toggleFirstPersonView : Js unit :=
  fp <- read firstPerson ;;
  setFirstPersonView (negb fp).

Definition setPosition (x y z : Q) : Js unit :=
  assign (fun this =>
    set_collision
      (CANNON.Body.with_positions
         (CANNON.Vec3.set (CANNON.Body.position (collision this)) x y z)
         (CANNON.Vec3.set (CANNON.Body.previousPosition (collision this)) x y z)
         (CANNON.Vec3.set (CANNON.Body.interpolatedPosition (collision this)) x y z)
         (CANNON.Vec3.set (CANNON.Body.initPosition (collision this)) x y z)
         (collision this))
      this).

Definition setSteeringValue (val : Q) : Js unit :=
  indices <- wheel_indices ;;
  for_each indices (fun i =>
    on_rayCastVehicle (CANNON.RaycastVehicle.setSteeringValue val i)).

Definition applyEngineForce (force : Q) : Js unit :=
  indices <- wheel_indices ;;
  for_each indices (fun i =>
    on_rayCastVehicle (CANNON.RaycastVehicle.applyEngineForce force i)).

Definition setBrake (brakeForce : Q) : Js unit :=
  indices <- wheel_indices ;;
  for_each indices (fun i =>
    on_rayCastVehicle (CANNON.RaycastVehicle.setBrake brakeForce i)).

End Methods.
End Vehicle.

(** [if (cond) { a } else { b }] with a condition that reads the instance. *)
Definition ifJ (c : Js bool) (a b : Js unit) : Js unit :=
  x <- c ;; if x then a else b.

(** [this.actions.<name>.isPressed] *)
Definition isPressed (name : string) : Js bool :=
  action_field name KeyBinding.isPressed.

(** A [CANNON.Vec3] read as a [THREE.Vector3] and back, component by
    component, as the code does when it crosses between the two libraries. *)
Definition toTHREE (v : CANNON.Vec3.t) : THREE.Vector3.t :=
  THREE.Vector3.mk (CANNON.Vec3.x v) (CANNON.Vec3.y v) (CANNON.Vec3.z v).
Definition toCANNON (v : THREE.Vector3.t) : CANNON.Vec3.t :=
  CANNON.Vec3.mk (THREE.Vector3.x v) (THREE.Vector3.y v) (THREE.Vector3.z v).

(** ** [vehicles/Car.ts] *)

Module Car.

(** The action table of a [Car], in the order of its object literal. *)
Definition actions0 : list (string * KeyBinding.t) :=
  [ ("throttle", KeyBinding.new "KeyW");
    ("reverse", KeyBinding.new "KeyS");
    ("left", KeyBinding.new "KeyA");
    ("right", KeyBinding.new "KeyD");
    ("handbrake", KeyBinding.new "Space");
    ("horn", KeyBinding.new "KeyH") ].

Definition maxAirSpinMagnitude : Q := 2.0.
Definition airSpinAcceleration : Q := 0.15.
Definition maxSteerVal : Q := 0.8.

(** The chassis axes of [physicsPreStep]. *)
Definition quatOf (body : CANNON.Body.t) : THREE.Quaternion.t :=
  THREE.Quaternion.mk
    (CANNON.Quaternion.x (CANNON.Body.quaternion body))
    (CANNON.Quaternion.y (CANNON.Body.quaternion body))
    (CANNON.Quaternion.z (CANNON.Body.quaternion body))
    (CANNON.Quaternion.w (CANNON.Body.quaternion body)).
Definition forward (body : CANNON.Body.t) : THREE.Vector3.t :=
  THREE.Vector3.applyQuaternion (THREE.Vector3.mk 0 0 1) (quatOf body).
Definition right (body : CANNON.Body.t) : THREE.Vector3.t :=
  THREE.Vector3.applyQuaternion (THREE.Vector3.mk 1 0 0) (quatOf body).
Definition up (body : CANNON.Body.t) : THREE.Vector3.t :=
  THREE.Vector3.applyQuaternion (THREE.Vector3.mk 0 1 0) (quatOf body).

(** The two influences of [physicsPreStep]: the air-time ramp and the
    flip-recovery bias. *)
Definition airSpinInfluence (airSpinTimer speed : Q) : Q :=
  THREE.MathUtils.clamp (airSpinTimer / 2) 0 1
  * THREE.MathUtils.clamp speed 0 1.
Definition flipOverInfluence (speed : Q) (up : THREE.Vector3.t) : Q :=
  let flipSpeedFactor := THREE.MathUtils.clamp (1 - speed) 0 1 in
  let upFactor := THREE.Vector3.dot up (THREE.Vector3.mk 0 (-1) 0) / 2 + 0.5 in
  flipSpeedFactor * upFactor * 3.

(** [angVel] is the body's own vector: reads see earlier writes. *)
Definition angVel : Js CANNON.Vec3.t :=
  read (fun this => CANNON.Body.angularVelocity (collision this)).
Definition set_angVel (v : CANNON.Vec3.t) : Js unit :=
  assign (fun this =>
    set_collision (CANNON.Body.with_angularVelocity v (collision this)) this).

Section Methods.
Context {caps : Capabilities}.

(** [get speed()] *)
Definition speed : Js Q := read _speed.

Definition setBrake (brakeForce : Q) : Js unit :=
  indices <- wheel_indices ;;
  for_each indices (fun i =>
    on_rayCastVehicle (CANNON.RaycastVehicle.setBrake brakeForce i)).

Definition update (timeStep : Q) : Js unit :=
  Vehicle.update timeStep ;;
  assign (fun this =>
    set_position (toTHREE (CANNON.Body.position (collision this))) this) ;;
  tiresHaveContact <-
    read (fun this =>
      (0 <? CANNON.RaycastVehicle.numWheelsOnGround (rayCastVehicle this))%nat) ;;
  (* Air spin *)
  (if negb tiresHaveContact then
     assign (fun this => set_airSpinTimer (airSpinTimer this + timeStep) this) ;;
     when (notJ (isPressed "throttle")) (assign (set_canTiltForwards true))
   else
     assign (set_canTiltForwards false) ;;
     assign (set_airSpinTimer 0)) ;;
  (* Steering *)
  ifJ (isPressed "left") (Vehicle.setSteeringValue 0.7)
    (ifJ (isPressed "right") (Vehicle.setSteeringValue (-0.7))
       (Vehicle.setSteeringValue 0)) ;;
  (* Engine *)
  ifJ (isPressed "throttle")
    (if tiresHaveContact then Vehicle.applyEngineForce 1500 else ret tt)
    (ifJ (isPressed "reverse")
       (if tiresHaveContact then Vehicle.applyEngineForce (-1500) else ret tt)
       (Vehicle.applyEngineForce 0)) ;;
  (* Braking *)
  ifJ (isPressed "handbrake") (setBrake 10) (setBrake 0) ;;
  (* Update steering wheel if it exists *)
  sw <- read steeringWheel ;;
  match sw with
  | Some _ =>
      assign (fun this =>
        set_steeringWheel
          (Some (- SpringSimulator.position (steeringSimulator this) * 2)) this)
  | None => ret tt
  end.

Definition noDirectionPressed : Js bool :=
  andJ (notJ (isPressed "throttle"))
    (andJ (notJ (isPressed "reverse"))
       (andJ (notJ (isPressed "left")) (notJ (isPressed "right")))).

Definition physicsPreStep (body : CANNON.Body.t) : Js unit :=
  let forward := forward body in
  let right := right body in
  let up := up body in
  (* Measure speed *)
  assign (fun this =>
    set_speed
      (CANNON.Vec3.dot (CANNON.Body.velocity (collision this)) (toCANNON forward))
      this) ;;
  (* Air spin *)
  timer <- read airSpinTimer ;;
  s <- speed ;;
  let airSpinInfluence := airSpinInfluence timer s in
  let flipOverInfluence := flipOverInfluence s up in
  let spinVectorForward := toCANNON forward in
  let spinVectorRight := toCANNON right in
  let effectiveSpinVectorForward :=
    CANNON.Vec3.scale (toCANNON forward)
      (airSpinAcceleration * (airSpinInfluence + flipOverInfluence)) in
  let effectiveSpinVectorRight :=
    CANNON.Vec3.scale (toCANNON right) (airSpinAcceleration * airSpinInfluence) in
  (* Right, else Left *)
  ifJ (andJ (isPressed "right") (notJ (isPressed "left")))
    (w <- angVel ;;
     if ltb (CANNON.Vec3.dot w spinVectorForward) maxAirSpinMagnitude
     then set_angVel (CANNON.Vec3.vadd w effectiveSpinVectorForward)
     else ret tt)
    (ifJ (andJ (isPressed "left") (notJ (isPressed "right")))
       (w <- angVel ;;
        if ltb (- maxAirSpinMagnitude) (CANNON.Vec3.dot w spinVectorForward)
        then set_angVel (CANNON.Vec3.vsub w effectiveSpinVectorForward)
        else ret tt)
       (ret tt)) ;;
  (* Forwards, else Backwards *)
  ifJ (andJ (read canTiltForwards)
         (andJ (isPressed "throttle") (notJ (isPressed "reverse"))))
    (w <- angVel ;;
     if ltb (CANNON.Vec3.dot w spinVectorRight) maxAirSpinMagnitude
     then set_angVel (CANNON.Vec3.vadd w effectiveSpinVectorRight)
     else ret tt)
    (ifJ (andJ (isPressed "reverse") (notJ (isPressed "throttle")))
       (w <- angVel ;;
        if ltb (- maxAirSpinMagnitude) (CANNON.Vec3.dot w spinVectorRight)
        then set_angVel (CANNON.Vec3.vsub w effectiveSpinVectorRight)
        else ret tt)
       (ret tt)) ;;
  (* Steering *)
  velocity <- read (fun this => normalize (CANNON.Body.velocity (collision this))) ;;
  let velocity_THREE := toTHREE velocity in
  let driftCorrection := getSignedAngleBetweenVectors velocity_THREE forward in
  s <- speed ;;
  let speedFactor := THREE.MathUtils.clamp (s * 0.3) 1 Number_MAX_VALUE in
  let set_target (v : Q) :=
    assign (fun this =>
      set_steeringSimulator
        (SpringSimulator.with_target v (steeringSimulator this)) this) in
  ifJ (isPressed "right")
    (let steering := Math.min ((- maxSteerVal) / speedFactor) (- driftCorrection) in
     set_target (THREE.MathUtils.clamp steering (- maxSteerVal) maxSteerVal))
    (ifJ (isPressed "left")
       (let steering := Math.max (maxSteerVal / speedFactor) (- driftCorrection) in
        set_target (THREE.MathUtils.clamp steering (- maxSteerVal) maxSteerVal))
       (set_target 0)).

Definition onInputChange : Js unit :=
  Vehicle.onInputChange ;;
  let brakeForce := 1000000 in
  when (orJ (action_field "throttle" KeyBinding.justReleased)
            (action_field "reverse" KeyBinding.justReleased))
       (Vehicle.applyEngineForce 0) ;;
  when (action_field "brake" KeyBinding.justPressed) (setBrake brakeForce) ;;
  when (action_field "brake" KeyBinding.justReleased) (setBrake 0) ;;
  when (action_field "view" KeyBinding.justPressed) Vehicle.toggleFirstPersonView.

(** [Car] overrides [handleKeyboardEvent] and does not call the base
    method: the table is indexed by the raw key code. *)
Definition handleKeyboardEvent
  (event : KeyboardEvent) (code : string) (pressed : bool) : Js unit :=
  tbl <- read actions ;;
  match lookup_action code tbl with
  | Some _ => set_action_field code (KeyBinding.with_isPressed pressed)
  | None => ret tt
  end.

(** The inherited methods that call [this.onInputChange()], on a [Car]. *)
Definition triggerAction (actionName : string) (value : bool) : Js unit :=
  Vehicle.triggerAction onInputChange actionName value.
Definition resetControls : Js unit :=
  Vehicle.resetControls onInputChange.

End Methods.
End Car.

(** ** Construction and the life of an instance *)

Definition Vec3_zero : CANNON.Vec3.t := CANNON.Vec3.mk 0 0 0.
Definition Quaternion_identity : CANNON.Quaternion.t := CANNON.Quaternion.mk 0 0 0 1.

(** [new CANNON.Body({ mass: 50 })]: at rest at the origin. *)
Definition Body_new : CANNON.Body.t :=
  CANNON.Body.mk Vec3_zero Vec3_zero Vec3_zero Vec3_zero
    Quaternion_identity Vec3_zero Vec3_zero.

(** The wheel record [addWheel] creates. *)
Definition WheelInfo_new : CANNON.WheelInfo.t :=
  CANNON.WheelInfo.mk 0 0 0 (CANNON.Transform.mk Vec3_zero Quaternion_identity).

(** The instance [new Car(gltf)] returns.  [Car] redeclares the field
    [position] and assigns it in its constructor; whether that assignment is
    accepted depends on how the class fields are compiled, which the sources
    do not settle, so what is said of [Car_new] is said of the instances the
    constructor does return.  The model contributes its wheel objects and
    possibly a steering wheel.  [Vehicle]'s constructor reads the wheels and
    registers one [WheelInfo] for each; [readCarData] then pushes a second
    [Wheel] for every wheel node of the model, which wraps the same object
    as the first: the two have the same [Wheel.node]. *)
Definition Car_new (modelWheels : list Wheel.t) (modelSteeringWheel : option Q)
  : CarObject :=
  {| actions := Car.actions0;
     rayCastVehicle :=
       CANNON.RaycastVehicle.mk (map (fun _ => WheelInfo_new) modelWheels) 0;
     wheels := modelWheels ++ modelWheels;
     world := None;
     collision := Body_new;
     firstPerson := false;
     position := THREE.Vector3.mk 0 0 0;
     quaternion := THREE.Quaternion.mk 0 0 0 1;
     _speed := 0;
     steeringWheel := modelSteeringWheel;
     airSpinTimer := 0;
     steeringSimulator := SpringSimulator.mk 0 0 0;
     gear := 1;
     shiftTimer := 0;
     timeToShift := 0.2;
     canTiltForwards := false |}.

(** What can happen to a car between construction and removal: the world
    adds it, the integrator resolves a step (new chassis state and grounded
    wheel count), and the scheduler, the input manager or any other caller
    invokes one of its public methods. *)
Inductive Call : Type :=
| AddToWorld (w : World.t)
| Integrate (body : CANNON.Body.t) (numWheelsOnGround : nat)
| Update (timeStep : Q)
| PhysicsPreStep
| OnInputChange
| HandleKeyboardEvent (event : KeyboardEvent) (code : string) (pressed : bool)
| TriggerAction (actionName : string) (value : bool)
| ResetControls
| SetPosition (x y z : Q)
| SetSteeringValue (val : Q)
| ApplyEngineForce (force : Q)
| SetBrake (brakeForce : Q)
| SetFirstPersonView (value : bool)
| ToggleFirstPersonView.

Section Life.
Context {caps : Capabilities}.

Definition perform (c : Call) : Js unit :=
  match c with
  | AddToWorld w => assign (set_world (Some w))
  | Integrate body n =>
      assign (set_collision body) ;;
      on_rayCastVehicle (fun v =>
        CANNON.RaycastVehicle.mk (CANNON.RaycastVehicle.wheelInfos v) n)
  | Update timeStep => Car.update timeStep
  | PhysicsPreStep => body <- read collision ;; Car.physicsPreStep body
  | OnInputChange => Car.onInputChange
  | HandleKeyboardEvent event code pressed =>
      Car.handleKeyboardEvent event code pressed
  | TriggerAction actionName value => Car.triggerAction actionName value
  | ResetControls => Car.resetControls
  | SetPosition x y z => Vehicle.setPosition x y z
  | SetSteeringValue val => Vehicle.setSteeringValue val
  | ApplyEngineForce force => Vehicle.applyEngineForce force
  | SetBrake brakeForce => Car.setBrake brakeForce
  | SetFirstPersonView value => Vehicle.setFirstPersonView value
  | ToggleFirstPersonView => Vehicle.toggleFirstPersonView
  end.

(** A call that throws leaves the instance as it was at the throw; the
    next call finds it so. *)
Definition run (calls : list Call) (this : CarObject) : CarObject :=
  fold_left (fun this c => after (perform c this)) calls this.
End Life.

(** ** [world/VehicleSpawnPoint.ts] *)

(** [body.quaternion.set(x, y, z, w)] *)
Definition Body_with_quaternion (q : CANNON.Quaternion.t) (b : CANNON.Body.t)
  : CANNON.Body.t :=
  CANNON.Body.mk (CANNON.Body.position b) (CANNON.Body.previousPosition b)
    (CANNON.Body.interpolatedPosition b) (CANNON.Body.initPosition b) q
    (CANNON.Body.velocity b) (CANNON.Body.angularVelocity b).

Module VehicleSpawnPoint.

(** A spawn point: the asset to load, who drives, and the spawn object, held
    here by its world transform (what [getWorldPosition] and
    [getWorldQuaternion] read of it). *)
Record t : Type := mk {
  type : string;
  driver : string;
  object : THREE.Object3D.t
}.

(** The callback [spawn] hands to the loader, run on the loaded model (its
    wheel objects and possibly a steering wheel, as [new Car(model)] reads
    them) and on the world; the instance it runs on is the vehicle it has
    built.  [world.add(vehicle)] registers the vehicle, which
    [Vehicle.addToWorld] records as [this.world = world]; the camera
    operator's target and follow mode are not part of [World.t]. *)
Definition spawn (this : t) (modelWheels : list Wheel.t)
  (modelSteeringWheel : option Q) (world : World.t) : Completion unit :=
  let vehicle := Car_new modelWheels modelSteeringWheel in
  let worldPos := THREE.Object3D.position (object this) in
  let worldQuat := THREE.Object3D.quaternion (object this) in
  (Vehicle.setPosition (THREE.Vector3.x worldPos) (THREE.Vector3.y worldPos + 1)
     (THREE.Vector3.z worldPos) ;;
   assign (fun vehicle =>
     set_collision
       (Body_with_quaternion
          (CANNON.Quaternion.mk (THREE.Quaternion.x worldQuat)
             (THREE.Quaternion.y worldQuat) (THREE.Quaternion.z worldQuat)
             (THREE.Quaternion.w worldQuat))
          (collision vehicle))
       vehicle) ;;
   assign (set_world (Some world)) ;;
   if String.eqb (driver this) "player"
   then with_world (World.setInputReceiver ReceiverVehicle)
   else ret tt) vehicle.

End VehicleSpawnPoint.

(** * Vocabulary of the specification *)

(** ** Frames and weakest preconditions *)

(** [m] relates the instance before the call to the instance after it by
    [R], whether it returns or throws. *)
Definition preserves {A} (R : relation CarObject) (m : Js A) : Prop :=
  forall this, R this (after (m this)).

(** [f] has the same value before and after. *)
Definition same {X} (f : CarObject -> X) : relation CarObject :=
  fun this this' => f this' = f this.

(** The call returns, in a state satisfying [Q]. *)
Definition wp {A} (m : Js A) (Q : A -> CarObject -> Prop) (this : CarObject) : Prop :=
  match m this with
  | Normal a this' => Q a this'
  | Abrupt _ _ => False
  end.

(** ** Parts of the instance *)

Definition wheelInfos_of (this : CarObject) : list CANNON.WheelInfo.t :=
  CANNON.RaycastVehicle.wheelInfos (rayCastVehicle this).

Definition set_wheelInfos (infos : list CANNON.WheelInfo.t) (this : CarObject)
  : CarObject :=
  set_rayCastVehicle
    (CANNON.RaycastVehicle.mk infos
       (CANNON.RaycastVehicle.numWheelsOnGround (rayCastVehicle this)))
    this.

Definition numWheelsOnGround (this : CarObject) : nat :=
  CANNON.RaycastVehicle.numWheelsOnGround (rayCastVehicle this).

(** The engine force stored in each wheel record. *)
Definition engineForces (this : CarObject) : list Q :=
  CANNON.WheelInfo.engineForce <$> wheelInfos_of this.


(** A rotation: a quaternion of unit length. *)
Definition unit_quaternion (q : CANNON.Quaternion.t) : Prop :=
  CANNON.Quaternion.x q * CANNON.Quaternion.x q
  + CANNON.Quaternion.y q * CANNON.Quaternion.y q
  + CANNON.Quaternion.z q * CANNON.Quaternion.z q
  + CANNON.Quaternion.w q * CANNON.Quaternion.w q == 1.

(** ** What no call ever changes

    The names in the action table, the three drivetrain fields, and the
    number of wheels and of registered wheel records. *)
Definition fixed_part (this : CarObject) :=
  (map fst (actions this), gear this, shiftTimer this, timeToShift this,
   length (wheels this),
   length (CANNON.RaycastVehicle.wheelInfos (rayCastVehicle this))).

Definition stable : relation CarObject := same fixed_part.

(** What only the body of [update] assigns and so, [update] throwing at its
    first statement, no call ever changes: the air-time accumulator, the
    tilt permission, the vehicle's own transform, the steering-wheel model
    and the wheels. *)
Definition update_owned (this : CarObject) :=
  (airSpinTimer this, canTiltForwards this, position this, quaternion this,
   steeringWheel this, wheels this).

(** ** Well-formed instances

    A car carries the six actions of its class, and at least as many wheel
    objects as registered wheel records (the constructor registers one
    record per wheel it has read). *)
Definition CarTable (this : CarObject) : Prop :=
  map fst (actions this) = map fst Car.actions0.

Definition WheelsRegistered (this : CarObject) : Prop :=
  (length (CANNON.RaycastVehicle.wheelInfos (rayCastVehicle this))
   <= length (wheels this))%nat.

Definition WellFormed (this : CarObject) : Prop :=
  CarTable this /\ WheelsRegistered this.

(** The names in the action table. *)
Definition action_names (this : CarObject) : list string := map fst (actions this).

(** The key codes bound in the action table of a [Car]. *)
Definition Car_boundCodes : list string :=
  flat_map (fun entry => KeyBinding.eventCodes (snd entry)) Car.actions0.

(** ** [Car.physicsPreStep] *)

(** The three parts of [physicsPreStep] as functions of what they read:
    the roll correction (left/right), the pitch correction
    (throttle/reverse) and the steering target. *)
Definition roll_step (rightP leftP : bool) (axis : CANNON.Vec3.t) (a : Q)
  (w : CANNON.Vec3.t) : CANNON.Vec3.t :=
  if rightP && negb leftP then
    if ltb (CANNON.Vec3.dot w axis) Car.maxAirSpinMagnitude
    then CANNON.Vec3.vadd w (CANNON.Vec3.scale axis a) else w
  else if leftP && negb rightP then
    if ltb (- Car.maxAirSpinMagnitude) (CANNON.Vec3.dot w axis)
    then CANNON.Vec3.vsub w (CANNON.Vec3.scale axis a) else w
  else w.

Definition pitch_step (canTilt throttleP reverseP : bool) (axis : CANNON.Vec3.t)
  (a : Q) (w : CANNON.Vec3.t) : CANNON.Vec3.t :=
  if canTilt && (throttleP && negb reverseP) then
    if ltb (CANNON.Vec3.dot w axis) Car.maxAirSpinMagnitude
    then CANNON.Vec3.vadd w (CANNON.Vec3.scale axis a) else w
  else if reverseP && negb throttleP then
    if ltb (- Car.maxAirSpinMagnitude) (CANNON.Vec3.dot w axis)
    then CANNON.Vec3.vsub w (CANNON.Vec3.scale axis a) else w
  else w.

Definition speedFactor (speed : Q) : Q :=
  THREE.MathUtils.clamp (speed * 0.3) 1 Number_MAX_VALUE.

Definition steering_target (rightP leftP : bool) (speed driftCorrection : Q) : Q :=
  if rightP then
    THREE.MathUtils.clamp
      (Math.min ((- Car.maxSteerVal) / speedFactor speed) (- driftCorrection))
      (- Car.maxSteerVal) Car.maxSteerVal
  else if leftP then
    THREE.MathUtils.clamp
      (Math.max (Car.maxSteerVal / speedFactor speed) (- driftCorrection))
      (- Car.maxSteerVal) Car.maxSteerVal
  else 0.

(** What the air-control part of [physicsPreStep] reads and leaves alone. *)
Definition beyond_angVel (this : CarObject) :=
  (actions this, _speed this, airSpinTimer this, canTiltForwards this,
   steeringSimulator this, CANNON.Body.velocity (collision this),
   rayCastVehicle this).

(** The speed [physicsPreStep] measures: the velocity along the forward
    axis of [body]. *)
Definition measured_speed (body : CANNON.Body.t) (this : CarObject) : Q :=
  CANNON.Vec3.dot (CANNON.Body.velocity (collision this)) (toCANNON (Car.forward body)).

(** The projections of the angular velocity [physicsPreStep] compares with
    [maxAirSpinMagnitude]. *)
Definition spin_about_forward (body : CANNON.Body.t) (this : CarObject) : Q :=
  CANNON.Vec3.dot (CANNON.Body.angularVelocity (collision this))
    (toCANNON (Car.forward body)).
Definition spin_about_right (body : CANNON.Body.t) (this : CarObject) : Q :=
  CANNON.Vec3.dot (CANNON.Body.angularVelocity (collision this))
    (toCANNON (Car.right body)).

(** Where a correction about [axis] by [a] may leave the projection of [w]:
    within the larger of where it was and the cap plus [a]. *)
Definition spin_bound (axis : CANNON.Vec3.t) (a : Q) (w : CANNON.Vec3.t) : Q :=
  Qmax (Qabs (CANNON.Vec3.dot w axis)) (Car.maxAirSpinMagnitude + a).

Section PhysicsPreStepVocabulary.
Context {caps : Capabilities}.

Definition driftCorrection (body : CANNON.Body.t) (this : CarObject) : Q :=
  getSignedAngleBetweenVectors
    (toTHREE (normalize (CANNON.Body.velocity (collision this)))) (Car.forward body).

Definition preStep_post (body : CANNON.Body.t) (bT bRe bL bRi : KeyBinding.t)
  (this s : CarObject) : Prop :=
  let v := measured_speed body this in
  let influence := Car.airSpinInfluence (airSpinTimer this) v in
  actions s = actions this
  /\ airSpinTimer s = airSpinTimer this
  /\ canTiltForwards s = canTiltForwards this
  /\ rayCastVehicle s = rayCastVehicle this
  /\ _speed s = v
  /\ CANNON.Body.angularVelocity (collision s)
     = pitch_step (canTiltForwards this) (KeyBinding.isPressed bT)
         (KeyBinding.isPressed bRe) (toCANNON (Car.right body))
         (Car.airSpinAcceleration * influence)
         (roll_step (KeyBinding.isPressed bRi) (KeyBinding.isPressed bL)
            (toCANNON (Car.forward body))
            (Car.airSpinAcceleration
             * (influence + Car.flipOverInfluence v (Car.up body)))
            (CANNON.Body.angularVelocity (collision this)))
  /\ SpringSimulator.target (steeringSimulator s)
     = steering_target (KeyBinding.isPressed bRi) (KeyBinding.isPressed bL) v
         (driftCorrection body this).
End PhysicsPreStepVocabulary.

(** ** The steering target, in the words of the specification

    "The smaller-magnitude of [maxSteer / speedFactor] (signed toward the
    pressed direction) and the negative of the drift-correction angle",
    re-clamped to [[-maxSteer, maxSteer]]. *)
Definition smaller_magnitude (a b : Q) : Q :=
  if Qle_bool (Qabs a) (Qabs b) then a else b.

Definition spec_steering_target (rightP leftP : bool) (speed driftCorrection : Q)
  : Q :=
  let toward :=
    if rightP then - (Car.maxSteerVal / speedFactor speed)
    else Car.maxSteerVal / speedFactor speed in
  if rightP || leftP then
    THREE.MathUtils.clamp (smaller_magnitude toward (- driftCorrection))
      (- Car.maxSteerVal) Car.maxSteerVal
  else 0.

(** ** [resetControls], in the words of the specification: every pressed
    action ends released with its edge flags clear, every other action is
    as it was. *)
Definition released (b : KeyBinding.t) : KeyBinding.t :=
  if KeyBinding.isPressed b
  then KeyBinding.mk (KeyBinding.eventCodes b) false false false
  else b.

(** ** Scenarios *)

(** A world in which wheel transforms stay as the integrator left them and
    the car travels straight along its forward axis, which is the world z
    axis: normalising a velocity along z keeps its direction, and the signed
    angle between velocity and forward axis is zero. *)
Definition straight : Capabilities :=
  {| wheelTransformWorld := fun _ wi => CANNON.WheelInfo.worldTransform wi;
     normalize := fun v =>
       match Qcompare 0 (CANNON.Vec3.z v) with
       | Lt => CANNON.Vec3.mk 0 0 1
       | Gt => CANNON.Vec3.mk 0 0 (-1)
       | Eq => CANNON.Vec3.mk 0 0 0
       end;
     getSignedAngleBetweenVectors := fun _ _ => 0 |}.

Definition wheel0 (node : nat) : Wheel.t :=
  Wheel.mk node
    (THREE.Object3D.mk (THREE.Vector3.mk 0 0 0) (THREE.Quaternion.mk 0 0 0 1)).

(** A freshly built car with four wheels and no steering-wheel model. *)
Definition car0 : CarObject :=
  Car_new [wheel0 0; wheel0 1; wheel0 2; wheel0 3] None.

Definition keyEvent : KeyboardEvent := mkKeyboardEvent false.

(** The chassis moving along the world z axis at [v] with angular velocity
    [w] and orientation [q]. *)
Definition moving (v : Q) (w : CANNON.Vec3.t) (q : CANNON.Quaternion.t)
  : CANNON.Body.t :=
  CANNON.Body.mk Vec3_zero Vec3_zero Vec3_zero Vec3_zero q
    (CANNON.Vec3.mk 0 0 v) w.

(** The chassis rolled about its forward axis by about 32.5 degrees (a
    banked surface): a unit quaternion with rational components. *)
Definition banked : CANNON.Quaternion.t := CANNON.Quaternion.mk 0 0 (7 # 25) (24 # 25).

(** Modelled from the spec: the gear table.  [Car.ts] has none; the spec
    speaks of ordered speed thresholds per gear, and the thresholds used
    here are those of [docs/physics-system.md] (reverse -4, neutral 0,
    then 5, 9, 13, 17, 22). *)
Definition gearsMaxSpeeds (gear : Z) : Q :=
  match gear with
  | 0%Z => 0
  | 1%Z => 5
  | 2%Z => 9
  | 3%Z => 13
  | 4%Z => 17
  | 5%Z => 22
  | _ => -4
  end.

(** * Vocabulary of the further properties *)

(** ** Input handling of the base class *)

(** The entry of an action while [onInputChange] runs inside
    [triggerAction(name, value)] (the new state and the one edge flag that
    belongs to it), and the entry once the call has returned. *)
Definition during_change (value : bool) (b : KeyBinding.t) : KeyBinding.t :=
  KeyBinding.mk (KeyBinding.eventCodes b) value value (negb value).
Definition settled (value : bool) (b : KeyBinding.t) : KeyBinding.t :=
  KeyBinding.mk (KeyBinding.eventCodes b) value false false.

(** What [triggerAction(name, value)] makes of an entry when the handler
    returns: an entry that has the state already is not touched. *)
Definition triggered (value : bool) (b : KeyBinding.t) : KeyBinding.t :=
  if Bool.eqb (KeyBinding.isPressed b) value then b else settled value b.

(** What a key event with [code] makes of an entry: only the actions bound
    to the code are triggered. *)
Definition dispatched (code : string) (pressed : bool) (b : KeyBinding.t)
  : KeyBinding.t :=
  if existsb (String.eqb code) (KeyBinding.eventCodes b)
  then triggered pressed b else b.

(** The same change made to every entry of the table. *)
Definition map_entries (g : KeyBinding.t -> KeyBinding.t)
  (tbl : list (string * KeyBinding.t)) : list (string * KeyBinding.t) :=
  map (fun e => (fst e, g (snd e))) tbl.

(** An [onInputChange] that returns and leaves the action table alone, as
    that of the base class does. *)
Definition quiet (h : Js unit) : Prop :=
  forall this, exists this', h this = Normal tt this' /\ actions this' = actions this.

(** An observation of the instance that does not read the action table. *)
Definition ignores_actions {X} (f : CarObject -> X) : Prop :=
  forall tbl this, f (set_actions tbl this) = f this.

(** The key combinations [Vehicle.handleKeyboardEvent] reserves. *)
Definition reserved (event : KeyboardEvent) (code : string) (pressed : bool) : bool :=
  (String.eqb code "KeyC" || String.eqb code "KeyR") && pressed && shiftKey event.

(** ** [Car.onInputChange] on a table that has the entries it reads *)

(** What [onInputChange] does to the brake of every wheel, from the two edge
    flags of the "brake" action: the release is handled last. *)
Definition brake_edge (b : KeyBinding.t) (n : nat) (before : list Q) : list Q :=
  if KeyBinding.justReleased b then replicate n 0
  else if KeyBinding.justPressed b then replicate n 1000000
  else before.

(** ** The wheel setters *)

(** The four fields of a wheel record. *)
Definition wheel_fields (wi : CANNON.WheelInfo.t) :=
  (CANNON.WheelInfo.engineForce wi, CANNON.WheelInfo.steering wi,
   CANNON.WheelInfo.brake wi, CANNON.WheelInfo.worldTransform wi).

(** The instance without its wheel records: what a wheel setter leaves
    alone. *)
Definition beyond_wheelInfos (this : CarObject) : CarObject := set_wheelInfos [] this.

(** The call [m] returns on [this], having rewritten every wheel record by
    [g] and nothing else. *)
Definition writes_every_wheel (m : Js unit)
  (g : CANNON.WheelInfo.t -> CANNON.WheelInfo.t) (this : CarObject) : Prop :=
  m this = Normal tt (after (m this))
  /\ wheel_fields <$> wheelInfos_of (after (m this))
     = (fun wi => wheel_fields (g wi)) <$> wheelInfos_of this
  /\ length (wheelInfos_of (after (m this))) = length (wheelInfos_of this)
  /\ beyond_wheelInfos (after (m this)) = beyond_wheelInfos this
  /\ (wheelInfos_of this = [] -> after (m this) = this).

(** ** What [Car.physicsPreStep] adds to the angular velocity *)

(** The projection of the angular velocity on the up axis of [body]. *)
Definition spin_about_up (body : CANNON.Body.t) (this : CarObject) : Q :=
  CANNON.Vec3.dot (CANNON.Body.angularVelocity (collision this))
    (toCANNON (Car.up body)).

(** The direction of the roll and of the pitch correction: +1 for an
    increment, -1 for a decrement, 0 for none, from the keys and from the
    projection [p] the guard compares with the cap. *)
Definition roll_sign (rightP leftP : bool) (p : Q) : Q :=
  if rightP && negb leftP then
    if ltb p Car.maxAirSpinMagnitude then 1 else 0
  else if leftP && negb rightP then
    if ltb (- Car.maxAirSpinMagnitude) p then -1 else 0
  else 0.

Definition pitch_sign (canTilt throttleP reverseP : bool) (p : Q) : Q :=
  if canTilt && (throttleP && negb reverseP) then
    if ltb p Car.maxAirSpinMagnitude then 1 else 0
  else if reverseP && negb throttleP then
    if ltb (- Car.maxAirSpinMagnitude) p then -1 else 0
  else 0.

(** The two increments of [physicsPreStep], about the forward and about the
    right axis. *)
Definition roll_increment (body : CANNON.Body.t) (this : CarObject) : Q :=
  Car.airSpinAcceleration
  * (Car.airSpinInfluence (airSpinTimer this) (measured_speed body this)
     + Car.flipOverInfluence (measured_speed body this) (Car.up body)).
Definition pitch_increment (body : CANNON.Body.t) (this : CarObject) : Q :=
  Car.airSpinAcceleration
  * Car.airSpinInfluence (airSpinTimer this) (measured_speed body this).

(** What [physicsPreStep] never writes: all of the instance but the
    measured speed, the angular velocity of the chassis body and the target
    of the steering spring. *)
Definition beyond_preStep (this : CarObject) :=
  (actions this, rayCastVehicle this, wheels this, world this, firstPerson this,
   position this, quaternion this, steeringWheel this, airSpinTimer this,
   canTiltForwards this, gear this, shiftTimer this, timeToShift this,
   CANNON.Body.position (collision this),
   CANNON.Body.previousPosition (collision this),
   CANNON.Body.interpolatedPosition (collision this),
   CANNON.Body.initPosition (collision this),
   CANNON.Body.quaternion (collision this),
   CANNON.Body.velocity (collision this),
   SpringSimulator.position (steeringSimulator this),
   SpringSimulator.velocity (steeringSimulator this)).

(** The calls of one simulation tick: the integrator's step and the two
    per-frame methods.  None of them is an input event. *)
Definition is_tick (c : Call) : bool :=
  match c with
  | Integrate _ _ | Update _ | PhysicsPreStep => true
  | _ => false
  end.

(** * Reasoning about method bodies *)

(** ** Frames: what a call leaves alone, whether it returns or throws *)

#[export] Instance same_refl {X} (f : CarObject -> X) : Reflexive (same f).
Proof. intros s. reflexivity. Qed.

#[export] Instance same_trans {X} (f : CarObject -> X) : Transitive (same f).
Proof. intros a b c Hab Hbc. unfold same in *. congruence. Qed.

Section Frames.
Context (R : relation CarObject) `{!Reflexive R} `{!Transitive R}.

Lemma preserves_ret {A} (a : A) : preserves R (ret a).
Proof. intros this. apply reflexivity. Qed.

Lemma preserves_read {A} (f : CarObject -> A) : preserves R (read f).
Proof. intros this. apply reflexivity. Qed.

Lemma preserves_throw {A} (e : JsError) : preserves R (throw (A:=A) e).
Proof. intros this. apply reflexivity. Qed.

Lemma preserves_assign (f : CarObject -> CarObject) :
  (forall this, R this (f this)) -> preserves R (assign f).
Proof. intros H this. apply H. Qed.

Lemma preserves_bind {A B} (m : Js A) (k : A -> Js B) :
  preserves R m -> (forall a, preserves R (k a)) -> preserves R (bind m k).
Proof.
  intros Hm Hk this. unfold bind. specialize (Hm this).
  destruct (m this) as [a s|e s]; cbn in *.
  - transitivity s; [exact Hm | apply Hk].
  - exact Hm.
Qed.

Lemma preserves_for_each {X} (xs : list X) (body : X -> Js unit) :
  (forall x, preserves R (body x)) -> preserves R (for_each xs body).
Proof.
  intros Hbody. induction xs as [|x xs IH]; cbn.
  - apply preserves_ret.
  - apply preserves_bind; [apply Hbody | intros _; exact IH].
Qed.

Lemma preserves_action_field {A} name (field : KeyBinding.t -> A) :
  preserves R (action_field name field).
Proof.
  intros this. unfold action_field, bind, read.
  destruct (lookup_action name (actions this)); apply reflexivity.
Qed.

Lemma preserves_set_action_field name f :
  (forall this, R this (set_actions (update_action name f (actions this)) this)) ->
  preserves R (set_action_field name f).
Proof.
  intros H this. unfold set_action_field, bind, read.
  destruct (lookup_action name (actions this)); cbn; [apply H | apply reflexivity].
Qed.

Lemma preserves_on_rayCastVehicle f :
  (forall this, R this (set_rayCastVehicle (f (rayCastVehicle this)) this)) ->
  preserves R (on_rayCastVehicle f).
Proof. intros H this. apply H. Qed.

Lemma preserves_with_world f :
  (forall this w, world this = Some w -> R this (set_world (Some (f w)) this)) ->
  preserves R (with_world f).
Proof.
  intros H this. unfold with_world, bind, read.
  destruct (world this) eqn:E; cbn; [apply H; exact E | apply reflexivity].
Qed.
End Frames.

(** ** Splitting a method body into its statements *)

Create HintDb js.
#[export] Hint Unfold ifJ when andJ orJ notJ isPressed wheel_indices
  Car.speed Car.angVel Car.set_angVel
  Vehicle.super_member_set Vehicle.update Vehicle.onInputChange Vehicle.triggerAction
  Vehicle.resetControls Vehicle.handleKeyboardEvent Vehicle.setFirstPersonView
  Vehicle.toggleFirstPersonView Vehicle.setPosition Vehicle.setSteeringValue
  Vehicle.applyEngineForce Vehicle.setBrake
  Car.setBrake Car.update Car.noDirectionPressed Car.physicsPreStep
  Car.onInputChange Car.handleKeyboardEvent Car.triggerAction Car.resetControls
  : js.

(** Splits a method body along its statements; what is left are the
    assignments, each to be shown to respect the relation. *)
Ltac frame_step :=
  lazymatch goal with
  | |- preserves _ (bind _ _) => apply preserves_bind; [ try exact _ | | intros ? ]
  | |- preserves _ (ret _) => apply preserves_ret; try exact _
  | |- preserves _ (read _) => apply preserves_read; try exact _
  | |- preserves _ (throw _) => apply preserves_throw; try exact _
  | |- preserves _ (action_field _ _) => apply preserves_action_field; try exact _
  | |- preserves _ (set_action_field _ _) =>
      apply preserves_set_action_field; [ try exact _ | intros ? ]
  | |- preserves _ (on_rayCastVehicle _) =>
      apply preserves_on_rayCastVehicle; intros ?
  | |- preserves _ (with_world _) =>
      apply preserves_with_world; [ try exact _ | intros ? ? ? ]
  | |- preserves _ (assign _) => apply preserves_assign; intros ?
  | |- preserves _ (for_each _ _) =>
      apply preserves_for_each; [ try exact _ | try exact _ | intros ? ]
  | |- preserves _ (if ?b then _ else _) => destruct b
  | |- preserves _ (match ?x with _ => _ end) => destruct x
  | |- preserves _ (let _ := _ in _) => cbv zeta
  | |- preserves _ _ => progress autounfold with js
  end.
Ltac frame := repeat frame_step.

(** ** What no call ever changes *)

Lemma update_action_keys name f tbl :
  map fst (update_action name f tbl) = map fst tbl.
Proof.
  induction tbl as [|[k b] rest IH]; cbn; [reflexivity|].
  destruct (String.eqb k name); cbn; [reflexivity | now rewrite IH].
Qed.

Ltac stable_leaf :=
  unfold stable, same, fixed_part; cbn;
  rewrite ?update_action_keys, ?length_alter, ?length_map; reflexivity.

Lemma syncWheel_stable {caps : Capabilities} i : preserves stable (Vehicle.syncWheel i).
Proof.
  intros this. unfold Vehicle.syncWheel, bind, assign, read; cbn.
  destruct (alter _ i _ !! i); cbn; [|stable_leaf].
  destruct (wheels this !! i); cbn; stable_leaf.
Qed.

Lemma perform_stable {caps : Capabilities} (c : Call) : preserves stable (perform c).
Proof.
  destruct c; cbn [perform]; unfold stable; frame;
    try apply syncWheel_stable; try stable_leaf.
Qed.

Lemma run_stable {caps : Capabilities} (calls : list Call) (this : CarObject) :
  stable this (run calls this).
Proof.
  revert this. induction calls as [|c calls IH]; intros this; cbn.
  - reflexivity.
  - transitivity (after (perform c this)); [apply perform_stable | apply IH].
Qed.

(** ** Well-formed instances *)

Lemma WellFormed_stable this this' :
  stable this this' -> WellFormed this -> WellFormed this'.
Proof.
  unfold stable, same, fixed_part, WellFormed, CarTable, WheelsRegistered.
  intros H [Ht Hw]. injection H as H1 H2 H3 H4 H5 H6.
  rewrite H1, H5, H6. split; assumption.
Qed.

Lemma Car_new_WellFormed ws sw : WellFormed (Car_new ws sw).
Proof.
  split; [reflexivity|]. unfold WheelsRegistered; cbn.
  rewrite length_map, length_app. lia.
Qed.

Lemma reachable_WellFormed {caps : Capabilities} calls ws sw :
  WellFormed (run calls (Car_new ws sw)).
Proof.
  eapply WellFormed_stable; [apply run_stable | apply Car_new_WellFormed].
Qed.

Lemma CarTable_inv this :
  CarTable this ->
  exists bT bRe bL bRi bHb bHo,
    actions this =
      [ ("throttle", bT); ("reverse", bRe); ("left", bL); ("right", bRi);
        ("handbrake", bHb); ("horn", bHo) ].
Proof.
  unfold CarTable. destruct (actions this) as [|[k1 b1] l]; [discriminate|].
  destruct l as [|[k2 b2] l]; [discriminate|].
  destruct l as [|[k3 b3] l]; [discriminate|].
  destruct l as [|[k4 b4] l]; [discriminate|].
  destruct l as [|[k5 b5] l]; [discriminate|].
  destruct l as [|[k6 b6] l]; [discriminate|].
  destruct l; [|discriminate]. cbn. intros H.
  injection H as -> -> -> -> -> ->. now exists b1, b2, b3, b4, b5, b6.
Qed.

(** ** Weakest preconditions *)

Lemma wp_ret {A} (a : A) Q this : Q a this -> wp (ret a) Q this.
Proof. exact id. Qed.

Lemma wp_read {A} (f : CarObject -> A) Q this : Q (f this) this -> wp (read f) Q this.
Proof. exact id. Qed.

Lemma wp_assign f Q this : Q tt (f this) -> wp (assign f) Q this.
Proof. exact id. Qed.

Lemma wp_bind {A B} (m : Js A) (k : A -> Js B) Q this :
  wp m (fun a this' => wp (k a) Q this') this -> wp (bind m k) Q this.
Proof. unfold wp, bind. destruct (m this); exact id. Qed.

Lemma wp_mono {A} (m : Js A) (Q Q' : A -> CarObject -> Prop) this :
  wp m Q this -> (forall a this', Q a this' -> Q' a this') -> wp m Q' this.
Proof. unfold wp. destruct (m this); [auto | exact (fun H _ => H)]. Qed.

Lemma wp_elim {A} (m : Js A) Q this :
  wp m Q this -> exists a, m this = Normal a (after (m this)) /\ Q a (after (m this)).
Proof. unfold wp. destruct (m this) as [a s|e s]; [eauto | contradiction]. Qed.

Lemma wp_returned {A} (m : Js A) Q this : wp m Q this -> returned (m this) = true.
Proof. unfold wp. destruct (m this); [reflexivity | contradiction]. Qed.

Lemma wp_action_field {A} name (field : KeyBinding.t -> A) b Q this :
  lookup_action name (actions this) = Some b ->
  Q (field b) this -> wp (action_field name field) Q this.
Proof. intros E H. unfold wp, action_field, bind, read. rewrite E. exact H. Qed.

Lemma wp_for_each {X} (I : CarObject -> Prop) (xs : list X) body this :
  I this ->
  (forall x s, In x xs -> I s -> wp (body x) (fun _ s' => I s') s) ->
  wp (for_each xs body) (fun _ s' => I s') this.
Proof.
  revert this. induction xs as [|x xs IH]; intros this Hi Hbody; cbn.
  - exact Hi.
  - apply wp_bind. eapply wp_mono; [apply Hbody; [now left | exact Hi]|].
    cbn. intros _ s Hs. apply IH; [exact Hs|].
    intros y s' Hy. apply Hbody. now right.
Qed.

(** ** The wheel loops

    [for (i = 0; i < wheelInfos.length; i++) rayCastVehicle.f(value, i)]
    rewrites every wheel record, and nothing else. *)

Lemma alter_each {X} (h : X -> X) (done todo : list X) :
  fold_left (fun l i => alter h i l) (seq (length done) (length todo)) (done ++ todo)
  = done ++ (h <$> todo).
Proof.
  revert done. induction todo as [|x todo IH]; intros done; cbn; [reflexivity|].
  rewrite alter_app_r_alt by lia. rewrite Nat.sub_diag. cbn.
  replace (done ++ h x :: todo) with ((done ++ [h x]) ++ todo)
    by now rewrite <- app_assoc.
  replace (S (length done)) with (length (done ++ [h x]))
    by (rewrite length_app; cbn; lia).
  rewrite IH. now rewrite <- app_assoc.
Qed.

Lemma for_each_assign {X} (xs : list X) (g : X -> CarObject -> CarObject) this :
  for_each xs (fun x => assign (g x)) this
  = Normal tt (fold_left (fun s x => g x s) xs this).
Proof.
  revert this. induction xs as [|x xs IH]; intros this; cbn; [reflexivity|].
  unfold bind, assign at 1. apply IH.
Qed.

Lemma wheel_loop
  (F : nat -> CANNON.RaycastVehicle.t -> CANNON.RaycastVehicle.t)
  (h : CANNON.WheelInfo.t -> CANNON.WheelInfo.t) this :
  (forall i v, F i v =
     CANNON.RaycastVehicle.mk (alter h i (CANNON.RaycastVehicle.wheelInfos v))
       (CANNON.RaycastVehicle.numWheelsOnGround v)) ->
  (indices <- wheel_indices ;; for_each indices (fun i => on_rayCastVehicle (F i))) this
  = Normal tt (set_wheelInfos (h <$> wheelInfos_of this) this).
Proof.
  intros HF. unfold bind, wheel_indices, read, on_rayCastVehicle.
  rewrite for_each_assign. f_equal.
  destruct this as [a [infos n] ws wo co fp po qu sp sw ast ss ge st tts ct].
  unfold set_wheelInfos, wheelInfos_of; cbn.
  transitivity
    (set_rayCastVehicle
       (CANNON.RaycastVehicle.mk
          (fold_left (fun l i => alter h i l) (seq 0 (length infos)) infos) n)
       (mkCarObject a (CANNON.RaycastVehicle.mk infos n)
          ws wo co fp po qu sp sw ast ss ge st tts ct)).
  - generalize (seq 0 (length infos)) as idx. generalize infos as l.
    intros l idx. revert l.
    induction idx as [|i idx IH]; intros l; cbn; [reflexivity|].
    rewrite HF. unfold set_rayCastVehicle in *; cbn in *. apply IH.
  - cbn. do 2 f_equal. exact (alter_each h [] infos).
Qed.

Lemma Vehicle_setSteeringValue_eq val this :
  Vehicle.setSteeringValue val this
  = Normal tt (set_wheelInfos (CANNON.WheelInfo.with_steering val <$> wheelInfos_of this) this).
Proof. apply wheel_loop. reflexivity. Qed.

Lemma Vehicle_applyEngineForce_eq force this :
  Vehicle.applyEngineForce force this
  = Normal tt (set_wheelInfos (CANNON.WheelInfo.with_engineForce force <$> wheelInfos_of this) this).
Proof. apply wheel_loop. reflexivity. Qed.

Lemma Car_setBrake_eq brakeForce this :
  Car.setBrake brakeForce this
  = Normal tt (set_wheelInfos (CANNON.WheelInfo.with_brake brakeForce <$> wheelInfos_of this) this).
Proof. apply wheel_loop. reflexivity. Qed.

Lemma wp_eq {A} (m : Js A) a s Q this :
  m this = Normal a s -> Q a s -> wp m Q this.
Proof. intros E H. unfold wp. now rewrite E. Qed.

Lemma wp_frame {A} (R : relation CarObject) (m : Js A) Q this :
  preserves R m -> wp m Q this -> wp m (fun a s => R this s /\ Q a s) this.
Proof.
  intros HR. specialize (HR this). unfold wp.
  destruct (m this); cbn in *; [now split | exact id].
Qed.

(** ** [update] never gets past its first statement *)

Lemma Vehicle_update_throws {caps : Capabilities} timeStep this :
  Vehicle.update timeStep this
  = Abrupt (TypeError "Cannot read properties of undefined: super.position") this.
Proof. reflexivity. Qed.

Lemma Car_update_throws {caps : Capabilities} timeStep this :
  Car.update timeStep this
  = Abrupt (TypeError "Cannot read properties of undefined: super.position") this.
Proof. reflexivity. Qed.

(** ** Stepping through a method body *)

Ltac fields :=
  unfold set_wheelInfos, wheelInfos_of;
  cbn [actions rayCastVehicle wheels world collision firstPerson position
       quaternion _speed steeringWheel airSpinTimer steeringSimulator gear
       shiftTimer timeToShift canTiltForwards
       set_actions set_rayCastVehicle set_wheels set_world set_collision
       set_firstPerson set_position set_quaternion set_speed set_steeringWheel
       set_airSpinTimer set_steeringSimulator set_canTiltForwards
       CANNON.RaycastVehicle.wheelInfos CANNON.RaycastVehicle.numWheelsOnGround
       CANNON.Body.position CANNON.Body.previousPosition
       CANNON.Body.interpolatedPosition CANNON.Body.initPosition
       CANNON.Body.quaternion CANNON.Body.velocity CANNON.Body.angularVelocity
       CANNON.Body.with_positions CANNON.Body.with_angularVelocity
       SpringSimulator.position SpringSimulator.velocity SpringSimulator.target
       SpringSimulator.with_target
       negb andb orb KeyBinding.isPressed KeyBinding.justPressed
       KeyBinding.justReleased KeyBinding.eventCodes].

(** One statement at a time.  [norm] brings the condition of a branch to a
    form that can be decided; [lookup] finds an action in the table. *)
Ltac wp_step norm lookup :=
  cbv beta iota;
  lazymatch goal with
  | |- wp (bind _ _) _ _ => apply wp_bind
  | |- wp (ret _) _ _ => apply wp_ret
  | |- wp (read _) _ _ => apply wp_read
  | |- wp (assign _) _ _ => apply wp_assign
  | |- wp (action_field _ _) _ _ => eapply wp_action_field; [ lookup | ]
  | |- wp (Vehicle.setSteeringValue _) _ _ =>
      eapply wp_eq; [ apply Vehicle_setSteeringValue_eq | ]
  | |- wp (Vehicle.applyEngineForce _) _ _ =>
      eapply wp_eq; [ apply Vehicle_applyEngineForce_eq | ]
  | |- wp (Car.setBrake _) _ _ => eapply wp_eq; [ apply Car_setBrake_eq | ]
  | |- wp (if ?b then _ else _) _ _ => first [ progress norm | destruct b eqn:? ]
  | |- wp (match ?x with _ => _ end) _ _ => destruct x eqn:?
  | |- wp (let _ := _ in _) _ _ => cbv zeta
  | |- wp _ _ _ =>
      progress unfold ifJ, when, andJ, orJ, notJ, isPressed, Car.speed,
        Car.angVel, Car.set_angVel
  end.

Lemma fmap_const_replicate {X Y} (y : Y) (l : list X) :
  (fun _ => y) <$> l = replicate (length l) y.
Proof. induction l; cbn; [reflexivity | now f_equal]. Qed.

(** ** [Car.physicsPreStep] *)

Section PhysicsPreStep.
Context {caps : Capabilities}.

Lemma wp_cut {A B} (m : Js A) (k : A -> Js B) (P : A -> CarObject -> Prop) Q this :
  wp m P this -> (forall a s, P a s -> wp (k a) Q s) -> wp (bind m k) Q this.
Proof. intros Hm Hk. apply wp_bind. eapply wp_mono; [exact Hm | exact Hk]. Qed.

Lemma Car_physicsPreStep_wp body this bT bRe bL bRi bHb bHo :
  actions this =
    [ ("throttle", bT); ("reverse", bRe); ("left", bL); ("right", bRi);
      ("handbrake", bHb); ("horn", bHo) ] ->
  wp (Car.physicsPreStep body) (fun _ s => preStep_post body bT bRe bL bRi this s) this.
Proof.
  intros Ha. unfold Car.physicsPreStep. cbv zeta.
  apply wp_bind, wp_assign. apply wp_bind, wp_read. apply wp_bind, wp_read.
  fields. fold (measured_speed body this).
  set (s1 := set_speed _ this).
  assert (Ha1 : actions s1 = actions this) by reflexivity. rewrite Ha in Ha1.
  (* Right, else Left *)
  eapply wp_cut with
    (P := fun _ s =>
       same beyond_angVel s1 s
       /\ CANNON.Body.angularVelocity (collision s)
          = roll_step (KeyBinding.isPressed bRi) (KeyBinding.isPressed bL)
              (toCANNON (Car.forward body))
              (Car.airSpinAcceleration
               * (Car.airSpinInfluence (airSpinTimer this) (measured_speed body this)
                  + Car.flipOverInfluence (measured_speed body this) (Car.up body)))
              (CANNON.Body.angularVelocity (collision s1))).
  { unfold roll_step.
    destruct bL as [cL [] jpL jrL]; destruct bRi as [cRi [] jpRi jrRi];
      repeat wp_step ltac:(fields) ltac:(fields; rewrite Ha1; reflexivity);
      fields;
      repeat match goal with H : ltb _ _ = _ |- _ => rewrite ?H; clear H end;
      split; reflexivity. }
  intros _ s2 [Hf2 Hw2]. unfold same, beyond_angVel in Hf2.
  injection Hf2 as Ha2 Hsp2 Hat2 Hct2 Hss2 Hv2 Hr2.
  pose proof (eq_trans Ha2 Ha1) as Ht2.
  (* Forwards, else Backwards *)
  eapply wp_cut with
    (P := fun _ s =>
       same beyond_angVel s2 s
       /\ CANNON.Body.angularVelocity (collision s)
          = pitch_step (canTiltForwards s2) (KeyBinding.isPressed bT)
              (KeyBinding.isPressed bRe) (toCANNON (Car.right body))
              (Car.airSpinAcceleration
               * Car.airSpinInfluence (airSpinTimer this) (measured_speed body this))
              (CANNON.Body.angularVelocity (collision s2))).
  { unfold pitch_step.
    destruct (canTiltForwards s2) eqn:Hc;
      destruct bT as [cT [] jpT jrT]; destruct bRe as [cRe [] jpRe jrRe];
      repeat wp_step ltac:(fields; rewrite ?Hc) ltac:(fields; rewrite Ht2; reflexivity);
      fields;
      repeat match goal with H : ltb _ _ = _ |- _ => rewrite ?H; clear H end;
      split; reflexivity. }
  intros _ s3 [Hf3 Hw3]. unfold same, beyond_angVel in Hf3.
  injection Hf3 as Ha3 Hsp3 Hat3 Hct3 Hss3 Hv3 Hr3.
  pose proof (eq_trans Ha3 Ht2) as Ht3.
  (* Steering *)
  unfold preStep_post, steering_target, speedFactor, driftCorrection. cbv zeta.
  destruct bL as [cL [] jpL jrL]; destruct bRi as [cRi [] jpRi jrRi];
    repeat wp_step ltac:(fields) ltac:(fields; rewrite Ht3; reflexivity);
    fields; rewrite ?Ht3, ?Hw3, ?Hw2, ?Hat3, ?Hat2, ?Hct3, ?Hct2, ?Hr3, ?Hr2,
      ?Hsp3, ?Hsp2, ?Hv3, ?Hv2, ?Ha;
    subst s1; fields; repeat split; reflexivity.
Qed.
End PhysicsPreStep.

(** ** What one [physicsPreStep] does *)

Lemma Car_physicsPreStep_post {caps : Capabilities} body this :
  CarTable this ->
  exists bT bRe bL bRi,
    lookup_action "throttle" (actions this) = Some bT
    /\ lookup_action "reverse" (actions this) = Some bRe
    /\ lookup_action "left" (actions this) = Some bL
    /\ lookup_action "right" (actions this) = Some bRi
    /\ Car.physicsPreStep body this
       = Normal tt (after (Car.physicsPreStep body this))
    /\ preStep_post body bT bRe bL bRi this (after (Car.physicsPreStep body this)).
Proof.
  intros Ht. destruct (CarTable_inv this Ht) as (bT & bRe & bL & bRi & bHb & bHo & Ha).
  exists bT, bRe, bL, bRi. rewrite Ha. do 4 (split; [reflexivity|]).
  destruct (wp_elim _ _ _ (Car_physicsPreStep_wp body this _ _ _ _ _ _ Ha))
    as ([] & E & H).
  split; assumption.
Qed.

Lemma car0_WellFormed : WellFormed car0.
Proof. apply Car_new_WellFormed. Qed.

(** ** What stays as the constructor left it *)

Lemma perform_update_owned {caps : Capabilities} (c : Call) :
  preserves (same update_owned) (perform c).
Proof.
  destruct c; cbn [perform];
    try (intros this; rewrite Car_update_throws; reflexivity);
    frame; reflexivity.
Qed.

Lemma run_update_owned {caps : Capabilities} (calls : list Call) (this : CarObject) :
  update_owned (run calls this) = update_owned this.
Proof.
  revert this. induction calls as [|c calls IH]; intros this; [reflexivity|].
  change (run (c :: calls) this) with (run calls (after (perform c this))).
  rewrite IH. apply (perform_update_owned c this).
Qed.

Lemma reachable_update_owned {caps : Capabilities} calls ws sw :
  airSpinTimer (run calls (Car_new ws sw)) = 0
  /\ canTiltForwards (run calls (Car_new ws sw)) = false
  /\ position (run calls (Car_new ws sw)) = THREE.Vector3.mk 0 0 0
  /\ quaternion (run calls (Car_new ws sw)) = THREE.Quaternion.mk 0 0 0 1.
Proof.
  pose proof (run_update_owned calls (Car_new ws sw)) as E.
  unfold update_owned in E. injection E as E1 E2 E3 E4 _ _.
  repeat split; assumption.
Qed.

(** * Arithmetic of the air control and the steering target *)

Lemma ltb_true a b : ltb a b = true <-> a < b.
Proof.
  unfold ltb. rewrite Qlt_alt. destruct (a ?= b); split; congruence.
Qed.

Lemma ltb_false a b : ltb a b = false <-> b <= a.
Proof.
  unfold ltb. rewrite Qle_alt, <- (Qcompare_antisym a b).
  destruct (a ?= b); cbn; split; congruence.
Qed.

Ltac clamp_cases v lo hi :=
  unfold THREE.MathUtils.clamp, Math.max, Math.min in *;
  let H1 := fresh in let E1 := fresh in let H2 := fresh in let E2 := fresh in
  destruct (Q.max_spec lo (Qmin hi v)) as [[H1 E1]|[H1 E1]];
  destruct (Q.min_spec hi v) as [[H2 E2]|[H2 E2]].

Lemma clamp_bounds v lo hi :
  lo <= hi -> lo <= THREE.MathUtils.clamp v lo hi <= hi.
Proof. intros H. clamp_cases v lo hi; split; lra. Qed.

Lemma clamp_inside v lo hi :
  lo <= v <= hi -> THREE.MathUtils.clamp v lo hi == v.
Proof. intros H. clamp_cases v lo hi; lra. Qed.

Lemma clamp_below v lo hi : lo <= hi -> v <= lo -> THREE.MathUtils.clamp v lo hi == lo.
Proof. intros H H'. clamp_cases v lo hi; lra. Qed.

Lemma clamp_above v lo hi : lo <= hi -> hi <= v -> THREE.MathUtils.clamp v lo hi == hi.
Proof. intros H H'. clamp_cases v lo hi; lra. Qed.

(** The air-time ramp lies in [[0, 1]] and vanishes with the timer. *)
Lemma airSpinInfluence_bounds timer speed :
  0 <= Car.airSpinInfluence timer speed <= 1.
Proof.
  unfold Car.airSpinInfluence.
  pose proof (clamp_bounds (timer / 2) 0 1 ltac:(lra)).
  pose proof (clamp_bounds speed 0 1 ltac:(lra)). nra.
Qed.




Section Axes.
Variable body : CANNON.Body.t.
Hypothesis Hunit : unit_quaternion (CANNON.Body.quaternion body).

Ltac axes :=
  unfold unit_quaternion in Hunit;
  unfold CANNON.Vec3.dot, THREE.Vector3.dot, toCANNON, Car.forward, Car.right, Car.up,
    THREE.Vector3.applyQuaternion, Car.quatOf;
  cbn [CANNON.Vec3.x CANNON.Vec3.y CANNON.Vec3.z
       THREE.Vector3.x THREE.Vector3.y THREE.Vector3.z
       THREE.Quaternion.x THREE.Quaternion.y THREE.Quaternion.z THREE.Quaternion.w];
  destruct (CANNON.Body.quaternion body) as [qx qy qz qw];
  cbn [CANNON.Quaternion.x CANNON.Quaternion.y CANNON.Quaternion.z
       CANNON.Quaternion.w] in *.

Lemma forward_unit :
  CANNON.Vec3.dot (toCANNON (Car.forward body)) (toCANNON (Car.forward body)) == 1.
Proof.
  axes.
  transitivity ((qx * qx + qy * qy + qz * qz + qw * qw)
                * (qx * qx + qy * qy + qz * qz + qw * qw)); [ring|].
  rewrite Hunit. ring.
Qed.

Lemma right_unit :
  CANNON.Vec3.dot (toCANNON (Car.right body)) (toCANNON (Car.right body)) == 1.
Proof.
  axes.
  transitivity ((qx * qx + qy * qy + qz * qz + qw * qw)
                * (qx * qx + qy * qy + qz * qz + qw * qw)); [ring|].
  rewrite Hunit. ring.
Qed.

Lemma forward_right_orthogonal :
  CANNON.Vec3.dot (toCANNON (Car.forward body)) (toCANNON (Car.right body)) == 0.
Proof. axes. ring. Qed.

Lemma upFactor_bounds :
  0 <= THREE.Vector3.dot (Car.up body) (THREE.Vector3.mk 0 (-1) 0) / 2 + 0.5 <= 1.
Proof.
  axes.
  assert (E : forall a, a / 2 == a * (1 # 2)) by (intros a; unfold Qdiv; reflexivity).
  rewrite E. clear E.
  pose proof (Qmult_le_0_compat _ _ (Qle_refl 0) (Qle_refl 0)) as _.
  assert (0 <= qx * qx) by nra. assert (0 <= qy * qy) by nra.
  assert (0 <= qz * qz) by nra. assert (0 <= qw * qw) by nra.
  split; nra.
Qed.

Lemma flipOverInfluence_bounds speed :
  0 <= Car.flipOverInfluence speed (Car.up body) <= 3.
Proof.
  unfold Car.flipOverInfluence. cbv zeta.
  pose proof upFactor_bounds.
  pose proof (clamp_bounds (1 - speed) 0 1 ltac:(lra)). nra.
Qed.

(** The two influences never add up to more than the flip-recovery bias at
    rest: the air-time ramp grows with the speed as the bias shrinks. *)
Lemma influences_sum_bounds timer speed :
  0 <= Car.airSpinInfluence timer speed + Car.flipOverInfluence speed (Car.up body)
    <= 3.
Proof.
  unfold Car.airSpinInfluence, Car.flipOverInfluence. cbv zeta.
  pose proof upFactor_bounds as Hu.
  pose proof (clamp_bounds (timer / 2) 0 1 ltac:(lra)) as Ht.
  pose proof (clamp_bounds speed 0 1 ltac:(lra)) as Hs.
  assert (Hc : THREE.MathUtils.clamp (1 - speed) 0 1
               == 1 - THREE.MathUtils.clamp speed 0 1).
  { destruct (Qlt_le_dec speed 0) as [H0|H0]; [|destruct (Qlt_le_dec 1 speed) as [H1|H1]].
    - assert (E1 : THREE.MathUtils.clamp (1 - speed) 0 1 == 1)
        by (apply clamp_above; lra).
      assert (E2 : THREE.MathUtils.clamp speed 0 1 == 0)
        by (apply clamp_below; lra).
      rewrite E1, E2. ring.
    - assert (E1 : THREE.MathUtils.clamp (1 - speed) 0 1 == 0)
        by (apply clamp_below; lra).
      assert (E2 : THREE.MathUtils.clamp speed 0 1 == 1)
        by (apply clamp_above; lra).
      rewrite E1, E2. ring.
    - assert (E1 : THREE.MathUtils.clamp (1 - speed) 0 1 == 1 - speed)
        by (apply clamp_inside; lra).
      assert (E2 : THREE.MathUtils.clamp speed 0 1 == speed)
        by (apply clamp_inside; lra).
      rewrite E1, E2. ring. }
  rewrite Hc.
  set (t := THREE.MathUtils.clamp (timer / 2) 0 1) in *.
  set (c := THREE.MathUtils.clamp speed 0 1) in *.
  set (u := THREE.Vector3.dot (Car.up body) (THREE.Vector3.mk 0 (-1) 0) / 2 + 0.5) in *.
  assert (0 <= t * c) by nra. assert (t * c <= c) by nra.
  assert (0 <= (1 - c) * u) by nra. assert ((1 - c) * u <= 1 - c) by nra.
  split; nra.
Qed.
End Axes.

(** ** One spin correction *)

Lemma dot_vadd_scale w axis a u :
  CANNON.Vec3.dot (CANNON.Vec3.vadd w (CANNON.Vec3.scale axis a)) u
  == CANNON.Vec3.dot w u + a * CANNON.Vec3.dot axis u.
Proof. unfold CANNON.Vec3.dot, CANNON.Vec3.vadd, CANNON.Vec3.scale; cbn. ring. Qed.

Lemma dot_vsub_scale w axis a u :
  CANNON.Vec3.dot (CANNON.Vec3.vsub w (CANNON.Vec3.scale axis a)) u
  == CANNON.Vec3.dot w u - a * CANNON.Vec3.dot axis u.
Proof. unfold CANNON.Vec3.dot, CANNON.Vec3.vsub, CANNON.Vec3.scale; cbn. ring. Qed.

Lemma Qabs_le_max_l p c : - Qmax (Qabs p) c <= p <= Qmax (Qabs p) c.
Proof.
  pose proof (Q.le_max_l (Qabs p) c). pose proof (Qle_Qabs p).
  pose proof (Qle_Qabs (- p)) as H'. rewrite Qabs_opp in H'. split; lra.
Qed.

(** A correction about [axis] by [a], guarded by the cap: the projection on
    [axis] ends within the larger of where it was and the cap plus [a]; the
    projection on an orthogonal direction is unchanged. *)
Section SpinStep.
Variables (axis other w : CANNON.Vec3.t) (a : Q).
Hypothesis Haxis : CANNON.Vec3.dot axis axis == 1.
Hypothesis Hother : CANNON.Vec3.dot axis other == 0.
Hypothesis Ha : 0 <= a.

Lemma guarded_add_along :
  CANNON.Vec3.dot w axis < Car.maxAirSpinMagnitude ->
  Qabs (CANNON.Vec3.dot (CANNON.Vec3.vadd w (CANNON.Vec3.scale axis a)) axis) <= spin_bound axis a w.
Proof.
  intros H. apply Qabs_Qle_condition. rewrite dot_vadd_scale, Haxis.
  pose proof (Qabs_le_max_l (CANNON.Vec3.dot w axis) (Car.maxAirSpinMagnitude + a)).
  pose proof (Q.le_max_r (Qabs (CANNON.Vec3.dot w axis)) (Car.maxAirSpinMagnitude + a)).
  unfold spin_bound. split; lra.
Qed.

Lemma guarded_sub_along :
  - Car.maxAirSpinMagnitude < CANNON.Vec3.dot w axis ->
  Qabs (CANNON.Vec3.dot (CANNON.Vec3.vsub w (CANNON.Vec3.scale axis a)) axis) <= spin_bound axis a w.
Proof.
  intros H. apply Qabs_Qle_condition. rewrite dot_vsub_scale, Haxis.
  pose proof (Qabs_le_max_l (CANNON.Vec3.dot w axis) (Car.maxAirSpinMagnitude + a)).
  pose proof (Q.le_max_r (Qabs (CANNON.Vec3.dot w axis)) (Car.maxAirSpinMagnitude + a)).
  unfold spin_bound. split; lra.
Qed.

Lemma unchanged_along : Qabs (CANNON.Vec3.dot w axis) <= spin_bound axis a w.
Proof. unfold spin_bound. apply Q.le_max_l. Qed.

Lemma roll_step_along rightP leftP :
  Qabs (CANNON.Vec3.dot (roll_step rightP leftP axis a w) axis) <= spin_bound axis a w.
Proof.
  unfold roll_step.
  destruct (rightP && negb leftP); [|destruct (leftP && negb rightP)];
    try apply unchanged_along.
  - destruct (ltb _ _) eqn:E; [|apply unchanged_along].
    apply guarded_add_along, ltb_true, E.
  - destruct (ltb _ _) eqn:E; [|apply unchanged_along].
    apply guarded_sub_along, ltb_true, E.
Qed.

Lemma pitch_step_along canTilt throttleP reverseP :
  Qabs (CANNON.Vec3.dot (pitch_step canTilt throttleP reverseP axis a w) axis) <= spin_bound axis a w.
Proof.
  unfold pitch_step.
  destruct (canTilt && (throttleP && negb reverseP));
    [|destruct (reverseP && negb throttleP)]; try apply unchanged_along.
  - destruct (ltb _ _) eqn:E; [|apply unchanged_along].
    apply guarded_add_along, ltb_true, E.
  - destruct (ltb _ _) eqn:E; [|apply unchanged_along].
    apply guarded_sub_along, ltb_true, E.
Qed.

Lemma roll_step_across rightP leftP :
  CANNON.Vec3.dot (roll_step rightP leftP axis a w) other == CANNON.Vec3.dot w other.
Proof.
  unfold roll_step.
  destruct (rightP && negb leftP); [|destruct (leftP && negb rightP)];
    try reflexivity; destruct (ltb _ _); try reflexivity.
  - rewrite dot_vadd_scale, Hother. ring.
  - rewrite dot_vsub_scale, Hother. ring.
Qed.

Lemma pitch_step_across canTilt throttleP reverseP :
  CANNON.Vec3.dot (pitch_step canTilt throttleP reverseP axis a w) other
  == CANNON.Vec3.dot w other.
Proof.
  unfold pitch_step.
  destruct (canTilt && (throttleP && negb reverseP));
    [|destruct (reverseP && negb throttleP)];
    try reflexivity; destruct (ltb _ _); try reflexivity.
  - rewrite dot_vadd_scale, Hother. ring.
  - rewrite dot_vsub_scale, Hother. ring.
Qed.
End SpinStep.

Lemma dot_comm a b : CANNON.Vec3.dot a b == CANNON.Vec3.dot b a.
Proof. unfold CANNON.Vec3.dot. ring. Qed.

Lemma Qmax_mono_r p c c' : c <= c' -> Qmax p c <= Qmax p c'.
Proof. intros H. apply Q.max_le_compat_l, H. Qed.

(** ** The steering target *)

(** The speed factor is at least 1, so [maxSteerVal / speedFactor] lies in
    [(0, maxSteerVal]]. *)
Lemma speedFactor_ge_1 speed : 1 <= speedFactor speed.
Proof.
  unfold speedFactor. apply clamp_bounds. discriminate.
Qed.

Lemma steer_floor_bounds speed :
  0 < Car.maxSteerVal / speedFactor speed <= Car.maxSteerVal.
Proof.
  pose proof (speedFactor_ge_1 speed) as H.
  assert (Hpos : 0 < speedFactor speed) by lra.
  assert (Hm : Car.maxSteerVal == 0.8) by reflexivity.
  split.
  - apply Qlt_shift_div_l; [exact Hpos | lra].
  - apply Qle_shift_div_r; [exact Hpos | nra].
Qed.

Lemma steering_target_right speed d :
  steering_target true false speed d
  == THREE.MathUtils.clamp (- d) (- Car.maxSteerVal)
       (- (Car.maxSteerVal / speedFactor speed))
  /\ steering_target true true speed d
     == THREE.MathUtils.clamp (- d) (- Car.maxSteerVal)
          (- (Car.maxSteerVal / speedFactor speed)).
Proof.
  pose proof (steer_floor_bounds speed) as [H0 H1].
  assert (E : (- Car.maxSteerVal) / speedFactor speed
              == - (Car.maxSteerVal / speedFactor speed)).
  { unfold Qdiv. ring. }
  assert (Hm : Car.maxSteerVal == 0.8) by reflexivity.
  unfold steering_target, THREE.MathUtils.clamp, Math.max, Math.min.
  set (lo := Car.maxSteerVal / speedFactor speed) in *.
  set (nlo := (- Car.maxSteerVal) / speedFactor speed) in *.
  assert (G : Qmax (- Car.maxSteerVal) (Qmin Car.maxSteerVal (Qmin nlo (- d)))
              == Qmax (- Car.maxSteerVal) (Qmin (- lo) (- d))).
  { destruct (Q.min_spec nlo (- d)) as [[? E1]|[? E1]];
      destruct (Q.min_spec (- lo) (- d)) as [[? E2]|[? E2]];
      destruct (Q.min_spec Car.maxSteerVal (Qmin nlo (- d))) as [[? E3]|[? E3]];
      destruct (Q.max_spec (- Car.maxSteerVal) (Qmin Car.maxSteerVal (Qmin nlo (- d))))
        as [[? E4]|[? E4]];
      destruct (Q.max_spec (- Car.maxSteerVal) (Qmin (- lo) (- d))) as [[? E5]|[? E5]];
      lra. }
  split; exact G.
Qed.

Lemma steering_target_left speed d :
  steering_target false true speed d
  == THREE.MathUtils.clamp (- d) (Car.maxSteerVal / speedFactor speed)
       Car.maxSteerVal.
Proof.
  pose proof (steer_floor_bounds speed) as [H0 H1].
  assert (Hm : Car.maxSteerVal == 0.8) by reflexivity.
  unfold steering_target, THREE.MathUtils.clamp, Math.max, Math.min.
  set (lo := Car.maxSteerVal / speedFactor speed) in *.
  destruct (Q.max_spec lo (- d)) as [[? E1]|[? E1]];
    destruct (Q.min_spec Car.maxSteerVal (- d)) as [[? E2]|[? E2]];
    destruct (Q.min_spec Car.maxSteerVal (Qmax lo (- d))) as [[? E3]|[? E3]];
    destruct (Q.max_spec (- Car.maxSteerVal) (Qmin Car.maxSteerVal (Qmax lo (- d))))
      as [[? E4]|[? E4]];
    destruct (Q.max_spec lo (Qmin Car.maxSteerVal (- d))) as [[? E5]|[? E5]];
    lra.
Qed.

(** * Input handling *)

(** ** The action table *)

Lemma lookup_action_None name tbl :
  lookup_action name tbl = None <-> ~ In name (map fst tbl).
Proof.
  induction tbl as [|[k b] rest IH]; cbn; [tauto|].
  destruct (String.eqb_spec k name) as [->|Hne].
  - split; [discriminate | intros H; exfalso; apply H; now left].
  - rewrite IH. split; [intros H [E|E]; [exact (Hne E) | exact (H E)] | tauto].
Qed.

Lemma CarTable_lookup_None this name :
  CarTable this -> ~ In name (map fst Car.actions0) ->
  lookup_action name (actions this) = None.
Proof. intros Ht H. apply lookup_action_None. rewrite Ht. exact H. Qed.

Lemma lookup_action_In name tbl b :
  lookup_action name tbl = Some b -> In name (map fst tbl).
Proof.
  intros H. destruct (in_dec String.string_dec name (map fst tbl)) as [Hin|Hn];
    [exact Hin|]. apply lookup_action_None in Hn. congruence.
Qed.

Lemma lookup_update_action name f tbl :
  lookup_action name (update_action name f tbl) = f <$> lookup_action name tbl.
Proof.
  induction tbl as [|[k b] rest IH]; cbn; [reflexivity|].
  destruct (String.eqb k name) eqn:E; cbn; rewrite E; [reflexivity | exact IH].
Qed.

Lemma update_action_compose name f g tbl :
  update_action name g (update_action name f tbl)
  = update_action name (fun b => g (f b)) tbl.
Proof.
  induction tbl as [|[k b] rest IH]; cbn; [reflexivity|].
  destruct (String.eqb k name) eqn:E; cbn; rewrite E; [reflexivity | now rewrite IH].
Qed.

Lemma update_action_ext name f g tbl b :
  lookup_action name tbl = Some b -> f b = g b ->
  update_action name f tbl = update_action name g tbl.
Proof.
  induction tbl as [|[k b'] rest IH]; cbn; [reflexivity|].
  destruct (String.eqb k name); intros H E.
  - injection H as ->. now rewrite E.
  - now rewrite IH.
Qed.

Lemma update_action_fresh name f (done todo : list (string * KeyBinding.t)) b :
  ~ In name (map fst done) ->
  update_action name f (done ++ (name, b) :: todo) = done ++ (name, f b) :: todo.
Proof.
  induction done as [|[k b'] done IH]; cbn; intros H.
  - now rewrite String.eqb_refl.
  - destruct (String.eqb_spec k name) as [->|Hne]; [tauto|].
    rewrite IH; [reflexivity | tauto].
Qed.

Lemma update_each_action f (done todo : list (string * KeyBinding.t)) :
  List.NoDup (map fst (done ++ todo)) ->
  fold_left (fun t n => update_action n f t) (map fst todo) (done ++ todo)
  = done ++ map (fun e => (fst e, f (snd e))) todo.
Proof.
  revert done. induction todo as [|[k b] todo IH]; intros done Hnd; cbn;
    [reflexivity|].
  assert (Hk : ~ In k (map fst done)).
  { rewrite map_app in Hnd. cbn in Hnd. apply NoDup_remove_2 in Hnd.
    intros Hin. apply Hnd, in_or_app. now left. }
  rewrite update_action_fresh by exact Hk.
  replace (done ++ (k, f b) :: todo) with ((done ++ [(k, f b)]) ++ todo)
    by now rewrite <- app_assoc.
  rewrite IH.
  - now rewrite <- app_assoc.
  - rewrite <- app_assoc. cbn.
    rewrite map_app in Hnd |- *. exact Hnd.
Qed.

Lemma update_action_id name tbl : update_action name (fun b => b) tbl = tbl.
Proof.
  induction tbl as [|[k b] rest IH]; cbn; [reflexivity|].
  destruct (String.eqb k name); [reflexivity | now rewrite IH].
Qed.

Lemma set_actions_same this : set_actions (actions this) this = this.
Proof. now destruct this. Qed.

(** ** Calls that throw *)

Lemma returned_bind_false {A B} (m : Js A) (k : A -> Js B) this :
  (forall a s, m this = Normal a s -> returned (k a s) = false) ->
  returned (bind m k this) = false.
Proof. intros H. unfold bind. destruct (m this) eqn:E; [eauto | reflexivity]. Qed.

Lemma preserves_Normal {A X} (f : CarObject -> X) (m : Js A) this a s :
  preserves (same f) m -> m this = Normal a s -> f s = f this.
Proof. intros H E. specialize (H this). rewrite E in H. exact H. Qed.

Lemma set_action_field_names name f :
  preserves (same action_names) (set_action_field name f).
Proof.
  apply preserves_set_action_field; [exact _|]. intros this.
  unfold same, action_names. cbn. apply update_action_keys.
Qed.

Lemma no_brake_names this s :
  action_names s = action_names this ->
  lookup_action "brake" (actions this) = None ->
  lookup_action "brake" (actions s) = None.
Proof.
  unfold action_names. intros E H. apply lookup_action_None.
  rewrite E. apply lookup_action_None, H.
Qed.

(** Without a "brake" entry in the table, [onInputChange] throws at the
    first read of [this.actions.brake]. *)
Lemma Car_onInputChange_throws this :
  lookup_action "brake" (actions this) = None ->
  returned (Car.onInputChange this) = false.
Proof.
  intros Hb. unfold Car.onInputChange.
  apply returned_bind_false. intros [] s1 E1. injection E1 as <-.
  apply returned_bind_false. intros [] s2 E2.
  assert (F : preserves (same action_names)
                (when (orJ (action_field "throttle" KeyBinding.justReleased)
                           (action_field "reverse" KeyBinding.justReleased))
                      (Vehicle.applyEngineForce 0))).
  { frame; reflexivity. }
  pose proof (preserves_Normal _ _ _ _ _ F E2) as Hn.
  unfold when, bind at 1, action_field, bind, read.
  rewrite (no_brake_names _ _ Hn Hb). reflexivity.
Qed.

Lemma Car_triggerAction_throws this name b value :
  lookup_action "brake" (actions this) = None ->
  lookup_action name (actions this) = Some b ->
  KeyBinding.isPressed b <> value ->
  returned (Car.triggerAction name value this) = false.
Proof.
  intros Hb Hn Hp. unfold Car.triggerAction, Vehicle.triggerAction.
  unfold bind at 1, action_field at 1, bind at 1, read at 1. rewrite Hn.
  cbn [ret]. 
  assert (E : negb (Bool.eqb (KeyBinding.isPressed b) value) = true).
  { destruct (KeyBinding.isPressed b), value; try reflexivity; congruence. }
  rewrite E.
  apply returned_bind_false. intros [] s1 E1.
  pose proof (preserves_Normal _ _ _ _ _ (set_action_field_names _ _) E1) as N1.
  apply returned_bind_false. intros [] s2 E2.
  pose proof (preserves_Normal _ _ _ _ _ (set_action_field_names _ _) E2) as N2.
  apply returned_bind_false. intros [] s3 E3.
  pose proof (preserves_Normal _ _ _ _ _ (set_action_field_names _ _) E3) as N3.
  apply returned_bind_false. intros [] s4 E4.
  assert (N4 : action_names s4 = action_names s3).
  { destruct value;
      exact (preserves_Normal _ _ _ _ _ (set_action_field_names _ _) E4). }
  apply returned_bind_false. intros [] s5 E5.
  pose proof (Car_onInputChange_throws s4) as T. rewrite E5 in T.
  assert (true = false); [|discriminate]. apply T.
  apply (no_brake_names this); [congruence | exact Hb].
Qed.

Lemma Car_resetControls_throws_from (names : list string) this :
  lookup_action "brake" (actions this) = None ->
  (exists name b, In name names
                  /\ lookup_action name (actions this) = Some b
                  /\ KeyBinding.isPressed b = true) ->
  returned (for_each names (fun action => Car.triggerAction action false) this) = false.
Proof.
  intros Hb. induction names as [|x names IH]; intros (name & b & Hin & Hl & Hp).
  - destruct Hin.
  - cbn [for_each]. apply returned_bind_false. intros [] s E.
    destruct (lookup_action x (actions this)) as [bx|] eqn:Hx.
    + destruct (KeyBinding.isPressed bx) eqn:Hpx.
      * pose proof (Car_triggerAction_throws this x bx false Hb Hx) as T.
        rewrite E in T. assert (true = false); [|discriminate].
        apply T. rewrite Hpx. discriminate.
      * assert (Es : s = this).
        { unfold Car.triggerAction, Vehicle.triggerAction, action_field, bind, read in E.
          cbv beta iota in E. rewrite Hx in E. cbn in E. rewrite Hpx in E. cbn in E.
          now injection E as <-. }
        subst s. apply IH. exists name, b. repeat split; try assumption.
        destruct Hin as [<-|Hin]; [|exact Hin]. congruence.
    + unfold Car.triggerAction, Vehicle.triggerAction, action_field, bind, read in E.
      cbv beta iota in E. rewrite Hx in E. discriminate E.
Qed.

(** ** [resetControls] with a handler that returns *)

Lemma bind_eq {A B} (m : Js A) (k : A -> Js B) this a s :
  m this = Normal a s -> bind m k this = k a s.
Proof. intros E. unfold bind. now rewrite E. Qed.

Lemma action_field_eq {A} name (field : KeyBinding.t -> A) this b :
  lookup_action name (actions this) = Some b ->
  action_field name field this = Normal (field b) this.
Proof. intros E. unfold action_field, bind, read. now rewrite E. Qed.

Lemma set_action_field_eq name f this b :
  lookup_action name (actions this) = Some b ->
  set_action_field name f this
  = Normal tt (set_actions (update_action name f (actions this)) this).
Proof. intros E. unfold set_action_field, bind, read. now rewrite E. Qed.

Lemma set_action_field_again name f tbl this b :
  lookup_action name tbl = Some b ->
  set_action_field name f (set_actions tbl this)
  = Normal tt (set_actions (update_action name f tbl) this).
Proof. intros E. unfold set_action_field, bind, read. cbn [actions set_actions]. now rewrite E. Qed.

(** With the [onInputChange] of the base class, releasing an action through
    [triggerAction] returns with that action [released] and nothing else
    changed. *)
Lemma Vehicle_triggerAction_release this name b :
  lookup_action name (actions this) = Some b ->
  Vehicle.triggerAction Vehicle.onInputChange name false this
  = Normal tt (set_actions (update_action name released (actions this)) this).
Proof.
  intros Hl. unfold Vehicle.triggerAction.
  rewrite (bind_eq _ _ _ _ _ (action_field_eq name KeyBinding.isPressed this b Hl)).
  destruct (KeyBinding.isPressed b) eqn:Hp; cbn [Bool.eqb negb].
  - rewrite (bind_eq _ _ _ _ _ (set_action_field_eq name _ this b Hl)).
    do 3 (erewrite bind_eq;
          [|eapply set_action_field_again; rewrite ?lookup_update_action, Hl; reflexivity]).
    unfold Vehicle.onInputChange. rewrite (bind_eq _ _ _ tt _ eq_refl).
    erewrite bind_eq;
      [|eapply set_action_field_again; rewrite ?lookup_update_action, Hl; reflexivity].
    erewrite set_action_field_again;
      [|rewrite ?lookup_update_action, Hl; reflexivity].
    do 2 f_equal. rewrite !update_action_compose.
    apply (update_action_ext _ _ _ _ b Hl).
    unfold released. rewrite Hp. reflexivity.
  - unfold ret. f_equal.
    rewrite (update_action_ext name released (fun b => b) _ b Hl)
      by (unfold released; now rewrite Hp).
    rewrite update_action_id. symmetry. apply set_actions_same.
Qed.

Lemma for_each_release (names : list string) this :
  (forall n, In n names -> In n (map fst (actions this))) ->
  for_each names (fun action => Vehicle.triggerAction Vehicle.onInputChange action false) this
  = Normal tt
      (set_actions (fold_left (fun t n => update_action n released t) names
                      (actions this)) this).
Proof.
  revert this. induction names as [|x names IH]; intros this Hin; cbn.
  - unfold ret. f_equal. symmetry. apply set_actions_same.
  - destruct (lookup_action x (actions this)) as [b|] eqn:Hx.
    + unfold bind. rewrite (Vehicle_triggerAction_release this x b Hx).
      rewrite IH.
      * reflexivity.
      * intros n Hn. cbn. rewrite update_action_keys. apply Hin. now right.
    + apply lookup_action_None in Hx. exfalso. apply Hx, Hin. now left.
Qed.

(** The claim of C9 holds of [resetControls] itself, as long as
    [onInputChange] returns: with the handler of the base class, every
    pressed action ends released with both edge flags clear, every other
    action and every other field is as it was. *)
Lemma Vehicle_resetControls_releases_all this :
  List.NoDup (map fst (actions this)) ->
  Vehicle.resetControls Vehicle.onInputChange this
  = Normal tt
      (set_actions (map (fun e => (fst e, released (snd e))) (actions this)) this).
Proof.
  intros Hnd. unfold Vehicle.resetControls, bind at 1, read at 1.
  rewrite for_each_release by auto.
  pose proof (update_each_action released [] (actions this) Hnd) as E.
  cbn [app] in E. rewrite E. reflexivity.
Qed.

(** * Input handling with any handler *)

Lemma update_action_absent name f tbl :
  lookup_action name tbl = None -> update_action name f tbl = tbl.
Proof.
  induction tbl as [|[k b] rest IH]; cbn; [reflexivity|].
  destruct (String.eqb k name); [discriminate|].
  intros H. now rewrite IH.
Qed.

Lemma lookup_update_action_other name name' f tbl :
  name <> name' ->
  lookup_action name' (update_action name f tbl) = lookup_action name' tbl.
Proof.
  intros Hne. induction tbl as [|[k b] rest IH]; cbn; [reflexivity|].
  destruct (String.eqb_spec k name) as [->|Hk]; cbn.
  - destruct (String.eqb_spec name name'); [contradiction | reflexivity].
  - destruct (String.eqb k name'); [reflexivity | exact IH].
Qed.

Lemma Vehicle_triggerAction_same (h : Js unit) name value this b :
  lookup_action name (actions this) = Some b ->
  KeyBinding.isPressed b = value ->
  Vehicle.triggerAction h name value this = Normal tt this.
Proof.
  intros Hl Hp. unfold Vehicle.triggerAction.
  rewrite (bind_eq _ _ _ _ _ (action_field_eq name KeyBinding.isPressed this b Hl)).
  rewrite Hp. destruct value; reflexivity.
Qed.

(** A change of state: the four assignments before the handler amount to
    one, after which the handler runs and the two edge flags are cleared. *)
Lemma Vehicle_triggerAction_change (h : Js unit) name value this b :
  lookup_action name (actions this) = Some b ->
  KeyBinding.isPressed b <> value ->
  Vehicle.triggerAction h name value this
  = (h ;; set_action_field name (KeyBinding.with_justPressed false) ;;
     set_action_field name (KeyBinding.with_justReleased false))
      (set_actions (update_action name (during_change value) (actions this)) this).
Proof.
  intros Hl Hp. unfold Vehicle.triggerAction.
  rewrite (bind_eq _ _ _ _ _ (action_field_eq name KeyBinding.isPressed this b Hl)).
  assert (E : negb (Bool.eqb (KeyBinding.isPressed b) value) = true).
  { destruct (KeyBinding.isPressed b), value; try reflexivity; congruence. }
  rewrite E.
  rewrite (bind_eq _ _ _ _ _ (set_action_field_eq name _ this b Hl)).
  do 2 (erewrite bind_eq;
        [|eapply set_action_field_again; rewrite ?lookup_update_action, Hl; reflexivity]).
  assert (T : (if value
               then set_action_field name (KeyBinding.with_justPressed true)
               else set_action_field name (KeyBinding.with_justReleased true))
                (set_actions
                   (update_action name (KeyBinding.with_justReleased false)
                      (update_action name (KeyBinding.with_justPressed false)
                         (update_action name (KeyBinding.with_isPressed value)
                            (actions this)))) this)
              = Normal tt
                  (set_actions (update_action name (during_change value) (actions this))
                     this)).
  { destruct value;
      (erewrite set_action_field_again;
       [|rewrite ?lookup_update_action, Hl; reflexivity]);
      do 2 f_equal; rewrite !update_action_compose;
      apply (update_action_ext _ _ _ _ b Hl); reflexivity. }
  rewrite (bind_eq _ _ _ _ _ T). reflexivity.
Qed.

Lemma clear_flags_after name value tbl s b :
  lookup_action name tbl = Some b ->
  actions s = update_action name (during_change value) tbl ->
  (set_action_field name (KeyBinding.with_justPressed false) ;;
   set_action_field name (KeyBinding.with_justReleased false)) s
  = Normal tt (set_actions (update_action name (settled value) tbl) s).
Proof.
  intros Hl Ha.
  assert (H1 : lookup_action name (actions s) = Some (during_change value b)).
  { rewrite Ha, lookup_update_action, Hl. reflexivity. }
  rewrite (bind_eq _ _ _ _ _ (set_action_field_eq name _ s _ H1)).
  erewrite set_action_field_again;
    [|rewrite lookup_update_action, H1; reflexivity].
  do 2 f_equal. rewrite Ha, !update_action_compose.
  apply (update_action_ext _ _ _ _ b Hl). reflexivity.
Qed.

(** With a quiet handler [triggerAction] returns, and the table ends with
    the one entry [triggered]. *)
Lemma Vehicle_triggerAction_quiet (h : Js unit) name value this b :
  quiet h ->
  lookup_action name (actions this) = Some b ->
  exists s,
    Vehicle.triggerAction h name value this = Normal tt s
    /\ actions s = update_action name (triggered value) (actions this).
Proof.
  intros Hq Hl.
  destruct (Bool.bool_dec (KeyBinding.isPressed b) value) as [Hp|Hp].
  - exists this. split; [now apply (Vehicle_triggerAction_same h name value this b)|].
    rewrite (update_action_ext name (triggered value) (fun b => b) _ b Hl).
    + now rewrite update_action_id.
    + unfold triggered. rewrite Hp. now destruct value.
  - rewrite (Vehicle_triggerAction_change h name value this b Hl Hp).
    set (s0 := set_actions _ this).
    destruct (Hq s0) as (s1 & E1 & A1).
    rewrite (bind_eq _ _ _ _ _ E1).
    rewrite (clear_flags_after name value (actions this) s1 b Hl A1).
    eexists. split; [reflexivity|]. cbn [actions set_actions].
    apply (update_action_ext _ _ _ _ b Hl).
    unfold triggered.
    destruct (KeyBinding.isPressed b), value; try reflexivity; congruence.
Qed.

(** What [triggerAction] leaves alone, whether it returns or throws: all
    that its handler leaves alone, the action table apart. *)
Lemma Vehicle_triggerAction_frame {X} (f : CarObject -> X) (h : Js unit) name value :
  ignores_actions f -> preserves (same f) h ->
  preserves (same f) (Vehicle.triggerAction h name value).
Proof.
  intros Hf Hh. unfold Vehicle.triggerAction.
  frame; try exact Hh; try (unfold same; apply Hf); reflexivity.
Qed.

(** A loop over action names whose body changes the one entry it visits. *)
Lemma for_each_entry (g : KeyBinding.t -> KeyBinding.t) (body : string -> Js unit) :
  (forall name this b,
     lookup_action name (actions this) = Some b ->
     exists s, body name this = Normal tt s
               /\ actions s = update_action name g (actions this)) ->
  forall names this,
    (forall n, In n names -> In n (map fst (actions this))) ->
    exists s, for_each names body this = Normal tt s
              /\ actions s = fold_left (fun t n => update_action n g t) names
                               (actions this).
Proof.
  intros Hbody names. induction names as [|x names IH]; intros this Hin; cbn.
  - exists this. now split.
  - destruct (lookup_action x (actions this)) as [b|] eqn:Hx.
    + destruct (Hbody x this b Hx) as (s1 & E1 & A1).
      destruct (IH s1) as (s2 & E2 & A2).
      { intros n Hn. rewrite A1, update_action_keys. apply Hin. now right. }
      exists s2. split.
      * now rewrite (bind_eq _ _ _ _ _ E1).
      * now rewrite A2, A1.
    + apply lookup_action_None in Hx. exfalso. apply Hx, Hin. now left.
Qed.

Lemma for_each_all_entries (g : KeyBinding.t -> KeyBinding.t) (body : string -> Js unit)
  this :
  (forall name this b,
     lookup_action name (actions this) = Some b ->
     exists s, body name this = Normal tt s
               /\ actions s = update_action name g (actions this)) ->
  List.NoDup (map fst (actions this)) ->
  exists s, for_each (map fst (actions this)) body this = Normal tt s
            /\ actions s = map_entries g (actions this).
Proof.
  intros Hbody Hnd.
  destruct (for_each_entry g body Hbody (map fst (actions this)) this) as (s & E & A);
    [auto|].
  exists s. split; [exact E|].
  pose proof (update_each_action g [] (actions this) Hnd) as U.
  cbn [app] in U. now rewrite A, U.
Qed.

Lemma Vehicle_resetControls_quiet (h : Js unit) this :
  quiet h -> List.NoDup (map fst (actions this)) ->
  exists s, Vehicle.resetControls h this = Normal tt s
            /\ actions s = map_entries (triggered false) (actions this).
Proof.
  intros Hq Hnd. unfold Vehicle.resetControls, bind at 1, read at 1.
  apply for_each_all_entries; [|exact Hnd].
  intros name s b Hl. now apply (Vehicle_triggerAction_quiet h name false s b).
Qed.

Lemma Vehicle_resetControls_frame {X} (f : CarObject -> X) (h : Js unit) :
  ignores_actions f -> preserves (same f) h ->
  preserves (same f) (Vehicle.resetControls h).
Proof.
  intros Hf Hh. unfold Vehicle.resetControls.
  apply preserves_bind; [exact _ | apply preserves_read; exact _ | intros names].
  apply preserves_for_each; [exact _ | exact _ | intros name].
  now apply Vehicle_triggerAction_frame.
Qed.

Lemma reserved_false event code pressed :
  reserved event code pressed = false ->
  (String.eqb code "KeyC" && pressed && shiftKey event = false)
  /\ (String.eqb code "KeyR" && pressed && shiftKey event = false).
Proof.
  unfold reserved.
  destruct (String.eqb code "KeyC"), (String.eqb code "KeyR"), pressed,
    (shiftKey event); cbn; intros H; try discriminate; now split.
Qed.

Lemma Vehicle_handleKeyboardEvent_dispatch (h : Js unit) event code pressed this :
  quiet h -> List.NoDup (map fst (actions this)) ->
  reserved event code pressed = false ->
  exists s, Vehicle.handleKeyboardEvent h event code pressed this = Normal tt s
            /\ actions s = map_entries (dispatched code pressed) (actions this).
Proof.
  intros Hq Hnd Hr. destruct (reserved_false _ _ _ Hr) as [Hc Hk].
  unfold Vehicle.handleKeyboardEvent. rewrite Hc, Hk.
  unfold bind at 1, read at 1.
  apply for_each_all_entries; [|exact Hnd].
  intros name s b Hl.
  rewrite (bind_eq _ _ _ _ _ (action_field_eq name KeyBinding.eventCodes s b Hl)).
  unfold dispatched.
  destruct (existsb (String.eqb code) (KeyBinding.eventCodes b)) eqn:Hb.
  - destruct (Vehicle_triggerAction_quiet h name pressed s b Hq Hl) as (s' & E & A).
    exists s'. split; [exact E|]. rewrite A.
    apply (update_action_ext _ _ _ _ b Hl). now rewrite Hb.
  - exists s. split; [reflexivity|].
    rewrite (update_action_ext name _ (fun b => b) _ b Hl) by now rewrite Hb.
    now rewrite update_action_id.
Qed.

Lemma Vehicle_dispatch_frame {X} (f : CarObject -> X) (h : Js unit)
  event code pressed :
  reserved event code pressed = false ->
  ignores_actions f -> preserves (same f) h ->
  preserves (same f) (Vehicle.handleKeyboardEvent h event code pressed).
Proof.
  intros Hr Hf Hh. destruct (reserved_false _ _ _ Hr) as [Hc Hk].
  unfold Vehicle.handleKeyboardEvent. rewrite Hc, Hk.
  apply preserves_bind; [exact _ | apply preserves_read; exact _ | intros names].
  apply preserves_for_each; [exact _ | exact _ | intros name].
  apply preserves_bind; [exact _ | apply preserves_action_field; exact _ | intros codes].
  destruct (existsb _ _); [now apply Vehicle_triggerAction_frame|].
  apply preserves_ret; exact _.
Qed.

Lemma map_entries_id (g : KeyBinding.t -> KeyBinding.t) tbl :
  (forall e, In e tbl -> g (snd e) = snd e) -> map_entries g tbl = tbl.
Proof.
  intros H. unfold map_entries. induction tbl as [|[k b] tbl IH]; cbn; [reflexivity|].
  pose proof (H (k, b) ltac:(now left)) as E. cbn in E. rewrite E.
  f_equal. apply IH. intros e He. apply H. now right.
Qed.

Lemma map_entries_keys g tbl : map fst (map_entries g tbl) = map fst tbl.
Proof. unfold map_entries. rewrite map_map. reflexivity. Qed.

Lemma lookup_map_entries g name tbl :
  lookup_action name (map_entries g tbl) = g <$> lookup_action name tbl.
Proof.
  induction tbl as [|[k b] tbl IH]; cbn; [reflexivity|].
  destruct (String.eqb k name); [reflexivity | exact IH].
Qed.

Lemma quiet_base : quiet Vehicle.onInputChange.
Proof. intros s. exists s. now split. Qed.

Lemma triggered_isPressed value b : KeyBinding.isPressed (triggered value b) = value.
Proof.
  unfold triggered. destruct (Bool.eqb _ _) eqn:E; [|reflexivity].
  now apply Bool.eqb_prop in E.
Qed.

Lemma lookup_action_NoDup_In k b tbl :
  List.NoDup (map fst tbl) -> In (k, b) tbl -> lookup_action k tbl = Some b.
Proof.
  induction tbl as [|[k1 b1] tbl IH]; intros Hnd Hin; [destruct Hin|].
  cbn in Hnd |- *. apply NoDup_cons_iff in Hnd. destruct Hnd as [Hn1 Hnd].
  destruct (String.eqb_spec k1 k) as [->|Hne].
  - destruct Hin as [Hin|Hin]; [now injection Hin as ->|].
    exfalso. apply Hn1. apply (in_map fst) in Hin. exact Hin.
  - destruct Hin as [Hin|Hin]; [injection Hin as -> _; contradiction|].
    now apply IH.
Qed.

Lemma map_entries_compose g g' tbl :
  map_entries g' (map_entries g tbl) = map_entries (fun b => g' (g b)) tbl.
Proof. unfold map_entries. rewrite map_map. reflexivity. Qed.

(** A key going down and up again gives back an entry that was released
    with both edge flags clear. *)
Lemma dispatched_down_up code b :
  KeyBinding.isPressed b = false ->
  KeyBinding.justPressed b = false ->
  KeyBinding.justReleased b = false ->
  dispatched code false (dispatched code true b) = b.
Proof.
  destruct b as [codes p jp jr]. cbn. intros -> -> ->.
  unfold dispatched, triggered, settled. cbn.
  destruct (existsb (String.eqb code) codes) eqn:E; cbn; rewrite ?E; reflexivity.
Qed.

(** * The wheel setters *)

Lemma Vehicle_setBrake_eq brakeForce this :
  Vehicle.setBrake brakeForce this
  = Normal tt (set_wheelInfos (CANNON.WheelInfo.with_brake brakeForce <$> wheelInfos_of this) this).
Proof. apply wheel_loop. reflexivity. Qed.

Lemma set_wheelInfos_twice l l' this :
  set_wheelInfos l' (set_wheelInfos l this) = set_wheelInfos l' this.
Proof. reflexivity. Qed.

Lemma wheelInfos_of_set l this : wheelInfos_of (set_wheelInfos l this) = l.
Proof. reflexivity. Qed.

(** * The increments of the air control *)

(** The chassis axes are pairwise orthogonal, whatever the quaternion. *)
Lemma axes_orthogonal body :
  CANNON.Vec3.dot (toCANNON (Car.forward body)) (toCANNON (Car.right body)) == 0
  /\ CANNON.Vec3.dot (toCANNON (Car.forward body)) (toCANNON (Car.up body)) == 0
  /\ CANNON.Vec3.dot (toCANNON (Car.right body)) (toCANNON (Car.up body)) == 0.
Proof.
  unfold CANNON.Vec3.dot, toCANNON, Car.forward, Car.right, Car.up,
    THREE.Vector3.applyQuaternion, Car.quatOf.
  cbn [CANNON.Vec3.x CANNON.Vec3.y CANNON.Vec3.z
       THREE.Vector3.x THREE.Vector3.y THREE.Vector3.z
       THREE.Quaternion.x THREE.Quaternion.y THREE.Quaternion.z THREE.Quaternion.w].
  destruct (CANNON.Body.quaternion body) as [qx qy qz qw].
  cbn [CANNON.Quaternion.x CANNON.Quaternion.y CANNON.Quaternion.z
       CANNON.Quaternion.w].
  repeat split; ring.
Qed.

Lemma up_unit body :
  unit_quaternion (CANNON.Body.quaternion body) ->
  CANNON.Vec3.dot (toCANNON (Car.up body)) (toCANNON (Car.up body)) == 1.
Proof.
  unfold unit_quaternion, CANNON.Vec3.dot, toCANNON, Car.up,
    THREE.Vector3.applyQuaternion, Car.quatOf.
  cbn [CANNON.Vec3.x CANNON.Vec3.y CANNON.Vec3.z
       THREE.Vector3.x THREE.Vector3.y THREE.Vector3.z
       THREE.Quaternion.x THREE.Quaternion.y THREE.Quaternion.z THREE.Quaternion.w].
  destruct (CANNON.Body.quaternion body) as [qx qy qz qw].
  cbn [CANNON.Quaternion.x CANNON.Quaternion.y CANNON.Quaternion.z
       CANNON.Quaternion.w].
  intros Hunit.
  transitivity ((qx * qx + qy * qy + qz * qz + qw * qw)
                * (qx * qx + qy * qy + qz * qz + qw * qw)); [ring|].
  rewrite Hunit. ring.
Qed.

Lemma roll_step_dot rightP leftP axis a w u :
  CANNON.Vec3.dot (roll_step rightP leftP axis a w) u
  == CANNON.Vec3.dot w u
     + roll_sign rightP leftP (CANNON.Vec3.dot w axis) * a * CANNON.Vec3.dot axis u.
Proof.
  unfold roll_step, roll_sign.
  destruct (rightP && negb leftP); [|destruct (leftP && negb rightP)];
    try destruct (ltb _ _);
    rewrite ?dot_vadd_scale, ?dot_vsub_scale; ring.
Qed.

Lemma pitch_step_dot canTilt throttleP reverseP axis a w u :
  CANNON.Vec3.dot (pitch_step canTilt throttleP reverseP axis a w) u
  == CANNON.Vec3.dot w u
     + pitch_sign canTilt throttleP reverseP (CANNON.Vec3.dot w axis) * a
       * CANNON.Vec3.dot axis u.
Proof.
  unfold pitch_step, pitch_sign.
  destruct (canTilt && (throttleP && negb reverseP));
    [|destruct (reverseP && negb throttleP)];
    try destruct (ltb _ _);
    rewrite ?dot_vadd_scale, ?dot_vsub_scale; ring.
Qed.

Lemma roll_sign_range rightP leftP p : -1 <= roll_sign rightP leftP p <= 1.
Proof.
  unfold roll_sign.
  destruct (rightP && negb leftP); [|destruct (leftP && negb rightP)];
    try destruct (ltb _ _); split; discriminate.
Qed.

Lemma pitch_sign_range canTilt throttleP reverseP p :
  -1 <= pitch_sign canTilt throttleP reverseP p <= 1.
Proof.
  unfold pitch_sign.
  destruct (canTilt && (throttleP && negb reverseP));
    [|destruct (reverseP && negb throttleP)];
    try destruct (ltb _ _); split; discriminate.
Qed.

(** The roll correction goes the way of the key that is pressed alone. *)
Lemma roll_sign_keys rightP leftP p :
  (rightP = leftP -> roll_sign rightP leftP p = 0)
  /\ (rightP = true -> 0 <= roll_sign rightP leftP p)
  /\ (rightP = false -> roll_sign rightP leftP p <= 0).
Proof.
  unfold roll_sign. destruct rightP, leftP; cbn; try destruct (ltb _ _);
    repeat split; intros; try reflexivity; try discriminate.
Qed.

(** The pitch correction: forwards needs the permission, "throttle" and no
    "reverse"; backwards needs "reverse" and no "throttle". *)
Lemma pitch_sign_keys canTilt throttleP reverseP p :
  (throttleP = reverseP -> pitch_sign canTilt throttleP reverseP p = 0)
  /\ (canTilt = false -> reverseP = false ->
      pitch_sign canTilt throttleP reverseP p = 0)
  /\ (reverseP = false -> 0 <= pitch_sign canTilt throttleP reverseP p)
  /\ (throttleP = false -> pitch_sign canTilt throttleP reverseP p <= 0).
Proof.
  unfold pitch_sign. destruct canTilt, throttleP, reverseP; cbn;
    try destruct (ltb _ _);
    repeat split; intros; try reflexivity; try discriminate.
Qed.

(** One [physicsPreStep] on a car: the angular velocity moves by a signed
    roll increment along the forward axis and a signed pitch increment along
    the right axis. *)
Lemma Car_physicsPreStep_increments {caps : Capabilities} body this :
  CarTable this ->
  exists bT bRe bL bRi p1 p2,
    lookup_action "throttle" (actions this) = Some bT
    /\ lookup_action "reverse" (actions this) = Some bRe
    /\ lookup_action "left" (actions this) = Some bL
    /\ lookup_action "right" (actions this) = Some bRi
    /\ Car.physicsPreStep body this = Normal tt (after (Car.physicsPreStep body this))
    /\ forall u,
         CANNON.Vec3.dot
           (CANNON.Body.angularVelocity (collision (after (Car.physicsPreStep body this))))
           u
         == CANNON.Vec3.dot (CANNON.Body.angularVelocity (collision this)) u
            + roll_sign (KeyBinding.isPressed bRi) (KeyBinding.isPressed bL) p1
              * roll_increment body this
              * CANNON.Vec3.dot (toCANNON (Car.forward body)) u
            + pitch_sign (canTiltForwards this) (KeyBinding.isPressed bT)
                (KeyBinding.isPressed bRe) p2
              * pitch_increment body this
              * CANNON.Vec3.dot (toCANNON (Car.right body)) u.
Proof.
  intros Ht.
  destruct (Car_physicsPreStep_post body this Ht)
    as (bT & bRe & bL & bRi & HT & HRe & HL & HRi & E & P).
  destruct P as (_ & _ & _ & _ & _ & Hw & _).
  eexists bT, bRe, bL, bRi, _, _. do 5 (split; [eassumption|]).
  intros u. rewrite Hw, pitch_step_dot, roll_step_dot.
  unfold roll_increment, pitch_increment. reflexivity.
Qed.

Lemma roll_increment_bounds body this :
  unit_quaternion (CANNON.Body.quaternion body) ->
  0 <= roll_increment body this <= 0.6.
Proof.
  intros Hu. unfold roll_increment.
  pose proof (airSpinInfluence_bounds (airSpinTimer this) (measured_speed body this)).
  pose proof (flipOverInfluence_bounds body Hu (measured_speed body this)).
  assert (Car.airSpinAcceleration == 0.15) by reflexivity.
  split; nra.
Qed.

Lemma pitch_increment_bounds body this :
  0 <= pitch_increment body this <= 0.15.
Proof.
  unfold pitch_increment.
  pose proof (airSpinInfluence_bounds (airSpinTimer this) (measured_speed body this)).
  assert (Car.airSpinAcceleration == 0.15) by reflexivity.
  split; nra.
Qed.

(** What [physicsPreStep] never writes, whether it returns or throws. *)
Lemma Car_physicsPreStep_frame {caps : Capabilities} body :
  preserves (same beyond_preStep) (Car.physicsPreStep body).
Proof. frame; reflexivity. Qed.

(** ** Ticks with the throttle held *)

Lemma run_cons {caps : Capabilities} c calls this :
  run (c :: calls) this = run calls (after (perform c this)).
Proof. reflexivity. Qed.

Lemma tick_keeps_tilt_locked {caps : Capabilities} c this bT :
  WellFormed this -> is_tick c = true ->
  lookup_action "throttle" (actions this) = Some bT ->
  KeyBinding.isPressed bT = true ->
  canTiltForwards this = false ->
  actions (after (perform c this)) = actions this
  /\ canTiltForwards (after (perform c this)) = false.
Proof.
  intros Hwf Hc HT Hp Hct. destruct c; try discriminate Hc; cbn [perform].
  - split; [reflexivity | exact Hct].
  - rewrite Car_update_throws. split; [reflexivity | exact Hct].
  - destruct Hwf as [Ht _].
    destruct (Car_physicsPreStep_post (collision this) this Ht)
      as (bT' & bRe & bL & bRi & _ & _ & _ & _ & _ & P).
    destruct P as (Ha & _ & Hc' & _).
    change (after ((body <- read collision ;; Car.physicsPreStep body) this))
      with (after (Car.physicsPreStep (collision this) this)).
    split; [exact Ha | now rewrite Hc'].
Qed.

Lemma ticks_keep_tilt_locked {caps : Capabilities} calls this bT :
  WellFormed this -> forallb is_tick calls = true ->
  lookup_action "throttle" (actions this) = Some bT ->
  KeyBinding.isPressed bT = true ->
  canTiltForwards this = false ->
  actions (run calls this) = actions this
  /\ canTiltForwards (run calls this) = false.
Proof.
  revert this. induction calls as [|c calls IH]; intros this Hwf Hall HT Hp Hct.
  - now split.
  - cbn [forallb] in Hall. apply andb_prop in Hall. destruct Hall as [Hc Hall].
    rewrite run_cons.
    destruct (tick_keeps_tilt_locked c this bT Hwf Hc HT Hp Hct) as [Ha Hc'].
    destruct (IH (after (perform c this))) as [Ha' Hct']; try assumption.
    + eapply WellFormed_stable; [apply perform_stable | exact Hwf].
    + now rewrite Ha.
    + split; [now rewrite Ha', Ha | exact Hct'].
Qed.

(** ** The speed factor at low speed *)

Lemma speedFactor_low speed : speed <= 10 / 3 -> speedFactor speed == 1.
Proof.
  intros H. unfold speedFactor. apply clamp_below; [discriminate|].
  assert (E : 10 / 3 == 10 # 3) by reflexivity. rewrite E in H. lra.
Qed.

Lemma Qsquare_nonneg a : 0 <= a * a.
Proof. nra. Qed.

(** Cauchy-Schwarz for the projection on a unit vector. *)
Lemma dot_unit_le v f :
  CANNON.Vec3.dot f f == 1 ->
  CANNON.Vec3.dot v f * CANNON.Vec3.dot v f <= CANNON.Vec3.dot v v.
Proof.
  unfold CANNON.Vec3.dot. destruct v as [vx vy vz], f as [fx fy fz]. cbn.
  intros Hf.
  assert (L : (vx * vx + vy * vy + vz * vz) * (fx * fx + fy * fy + fz * fz)
              - (vx * fx + vy * fy + vz * fz) * (vx * fx + vy * fy + vz * fz)
              == (vx * fy - vy * fx) * (vx * fy - vy * fx)
                 + (vy * fz - vz * fy) * (vy * fz - vz * fy)
                 + (vz * fx - vx * fz) * (vz * fx - vx * fz)) by ring.
  rewrite Hf in L.
  pose proof (Qsquare_nonneg (vx * fy - vy * fx)).
  pose proof (Qsquare_nonneg (vy * fz - vz * fy)).
  pose proof (Qsquare_nonneg (vz * fx - vx * fz)).
  lra.
Qed.

(** * The claims *)

(** ** C1: the drivetrain *)

(** C1, as stated, fails.  A car at gear 1 with the shift timer at zero,
    driving at speed 10 (above the thresholds of first and second gear) with
    throttle held and all four wheels on the ground: after [update], which
    throws at its first statement, the gear is still 1, not 2. *)
Lemma C1_no_shift_counterexample :
  let this :=
    run (caps := straight)
      [ Integrate (moving 10 Vec3_zero Quaternion_identity) 4;
        HandleKeyboardEvent keyEvent "throttle" true;
        PhysicsPreStep ] car0 in
  gear this = 1%Z
  /\ gearsMaxSpeeds (gear this + 1) < _speed this
  /\ shiftTimer this == 0
  /\ gear (after (Car.update (caps := straight) (1 # 60) this)) <> (gear this + 1)%Z.
Proof. vm_compute. repeat split; congruence. Qed.

(** C1, amended.  No call ever writes the drivetrain fields: over every
    sequence of calls, whatever the speed and the inputs, [gear],
    [shiftTimer] and [timeToShift] keep their values, which for a car
    built by the constructor are 1, 0 and 0.2. *)
Theorem C1_drivetrain_fields_never_change {caps : Capabilities}
  (calls : list Call) (this : CarObject) (ws : list Wheel.t) (sw : option Q) :
  (gear (run calls this) = gear this
   /\ shiftTimer (run calls this) = shiftTimer this
   /\ timeToShift (run calls this) = timeToShift this)
  /\ (gear (run calls (Car_new ws sw)) = 1%Z
      /\ shiftTimer (run calls (Car_new ws sw)) = 0
      /\ timeToShift (run calls (Car_new ws sw)) = 0.2).
Proof.
  assert (H : forall s, gear (run calls s) = gear s
                        /\ shiftTimer (run calls s) = shiftTimer s
                        /\ timeToShift (run calls s) = timeToShift s).
  { intros s. pose proof (run_stable calls s) as E.
    unfold stable, same, fixed_part in E. injection E as _ E1 E2 E3 _ _. auto. }
  split; [apply H | apply (H (Car_new ws sw))].
Qed.

(** ** C2: stabilization on a grounded tick *)




(** ** C3: the steering target *)

(** C3, as stated, fails.  An upright car moving straight ahead at speed 1
    (so the drift-correction angle is 0 and the speed factor is 1) with
    "right" held: the code sets the target to -0.8, the candidate of larger
    magnitude, where the smaller-magnitude rule gives 0. *)
Lemma C3_steering_target_counterexample :
  let body := moving 1 Vec3_zero Quaternion_identity in
  let this :=
    run (caps := straight)
      [ HandleKeyboardEvent keyEvent "right" true; Integrate body 4 ] car0 in
  let this' := after (Car.physicsPreStep (caps := straight) body this) in
  returned (Car.physicsPreStep (caps := straight) body this) = true
  /\ _speed this' == 1
  /\ driftCorrection (caps := straight) body this == 0
  /\ SpringSimulator.target (steeringSimulator this') == - (0.8)
  /\ spec_steering_target true false (_speed this')
       (driftCorrection (caps := straight) body this) == 0
  /\ ~ SpringSimulator.target (steeringSimulator this')
       == spec_steering_target true false (_speed this')
            (driftCorrection (caps := straight) body this).
Proof. vm_compute. repeat split; congruence. Qed.

(** C3, amended.  With [speedFactor = clamp(speed * 0.3, 1, MAX_VALUE)]
    (at least 1), when "right" is pressed the steering target is the
    negated drift-correction angle clamped to
    [[-maxSteer, -maxSteer / speedFactor]], and when "left" alone is pressed
    it is the negated drift-correction angle clamped to
    [[maxSteer / speedFactor, maxSteer]]: of the two candidates, the one
    further toward the pressed side, capped at [maxSteer].  With neither
    pressed the target is 0. *)
Theorem C3_steering_target_is_drift_clamped_toward_pressed_side
  {caps : Capabilities} (body : CANNON.Body.t) (this : CarObject)
  (bL bRi : KeyBinding.t) :
  CarTable this ->
  lookup_action "left" (actions this) = Some bL ->
  lookup_action "right" (actions this) = Some bRi ->
  let this' := after (Car.physicsPreStep body this) in
  let target := SpringSimulator.target (steeringSimulator this') in
  let d := driftCorrection body this in
  let floor := Car.maxSteerVal / speedFactor (_speed this') in
  returned (Car.physicsPreStep body this) = true
  /\ _speed this' = measured_speed body this
  /\ 1 <= speedFactor (_speed this')
  /\ 0 < floor <= Car.maxSteerVal
  /\ (KeyBinding.isPressed bRi = true ->
      target == THREE.MathUtils.clamp (- d) (- Car.maxSteerVal) (- floor))
  /\ (KeyBinding.isPressed bRi = false -> KeyBinding.isPressed bL = true ->
      target == THREE.MathUtils.clamp (- d) floor Car.maxSteerVal)
  /\ (KeyBinding.isPressed bRi = false -> KeyBinding.isPressed bL = false ->
      target = 0).
Proof.
  intros Ht HL HR this' target d floor.
  destruct (Car_physicsPreStep_post body this Ht)
    as (bT & bRe & bL' & bRi' & _ & _ & HL' & HR' & E & P).
  rewrite HL in HL'. rewrite HR in HR'. injection HL' as <-. injection HR' as <-.
  destruct P as (_ & _ & _ & _ & Hsp & _ & Htg). fold this' in Hsp, Htg.
  split; [rewrite E; reflexivity|]. split; [exact Hsp|].
  split; [apply speedFactor_ge_1|]. split; [apply steer_floor_bounds|].
  unfold target, floor. rewrite Htg, Hsp. fold d.
  split; [|split].
  - intros ->. destruct (KeyBinding.isPressed bL); apply steering_target_right.
  - intros -> ->. apply steering_target_left.
  - intros -> ->. reflexivity.
Qed.

(** C3's amended statement at the car of the counterexample. *)
Lemma C3_steering_target_witness :
  let body := moving 1 Vec3_zero Quaternion_identity in
  let this :=
    run (caps := straight)
      [ HandleKeyboardEvent keyEvent "right" true; Integrate body 4 ] car0 in
  CarTable this
  /\ SpringSimulator.target
       (steeringSimulator (after (Car.physicsPreStep (caps := straight) body this)))
     == - (0.8).
Proof.
  intros body this.
  assert (Ht : CarTable this) by reflexivity.
  split; [exact Ht|].
  exact (proj1 (proj2 (proj2 (proj2 (proj2
    (C3_steering_target_is_drift_clamped_toward_pressed_side (caps := straight)
       body this (KeyBinding.new "KeyA") (KeyBinding.mk ["KeyD"] true false false)
       Ht eq_refl eq_refl))))) eq_refl).
Defined.

(** ** C4: the spin cap *)

(** C4, as stated, fails.  A car in the air, upside down and at rest,
    rolling at 1.9 about its forward axis, with "right" held: the projection
    is below the cap of 2.0, so the step adds the full flip-recovery
    increment 0.45 and leaves it at 2.35. *)
Lemma C4_spin_exceeds_cap_counterexample :
  let body := moving 0 (CANNON.Vec3.mk 0 0 1.9) (CANNON.Quaternion.mk 0 0 1 0) in
  let this :=
    run (caps := straight)
      [ HandleKeyboardEvent keyEvent "right" true; Integrate body 0 ] car0 in
  let this' := after (Car.physicsPreStep (caps := straight) body this) in
  numWheelsOnGround this = 0%nat
  /\ returned (Car.physicsPreStep (caps := straight) body this) = true
  /\ spin_about_forward body this == 1.9
  /\ spin_about_forward body this' == 2.35
  /\ ~ Qabs (spin_about_forward body this') <= Car.maxAirSpinMagnitude.
Proof. vm_compute. repeat split; congruence. Qed.

(** C4, amended.  For a chassis orientation of unit length, one
    stabilization step leaves the magnitude of the projection of the angular
    velocity on the forward axis at most the larger of its magnitude before
    the step and [maxAirSpinMagnitude + 3 * airSpinAcceleration] (2.45), and
    on the right axis at most the larger of its magnitude before and
    [maxAirSpinMagnitude + airSpinAcceleration] (2.15): the guard stops
    further acceleration once the cap is passed, but the last increment may
    overshoot it and excess spin is not reduced. *)
Theorem C4_spin_bounded_by_cap_plus_increment {caps : Capabilities}
  (body : CANNON.Body.t) (this : CarObject) :
  CarTable this ->
  unit_quaternion (CANNON.Body.quaternion body) ->
  let this' := after (Car.physicsPreStep body this) in
  returned (Car.physicsPreStep body this) = true
  /\ Qabs (spin_about_forward body this')
     <= Qmax (Qabs (spin_about_forward body this))
             (Car.maxAirSpinMagnitude + 3 * Car.airSpinAcceleration)
  /\ Qabs (spin_about_right body this')
     <= Qmax (Qabs (spin_about_right body this))
             (Car.maxAirSpinMagnitude + Car.airSpinAcceleration).
Proof.
  intros Ht Hq this'.
  destruct (Car_physicsPreStep_post body this Ht)
    as (bT & bRe & bL & bRi & _ & _ & _ & _ & E & P).
  split; [rewrite E; reflexivity|].
  destruct P as (_ & _ & _ & _ & _ & Hw & _). fold this' in Hw.
  unfold spin_about_forward, spin_about_right. rewrite Hw. clear Hw E.
  set (v := measured_speed body this).
  pose proof (airSpinInfluence_bounds (airSpinTimer this) v) as Hi.
  pose proof (influences_sum_bounds body Hq (airSpinTimer this) v) as Hf.
  set (infl := Car.airSpinInfluence (airSpinTimer this) v) in *.
  set (flip := Car.flipOverInfluence v (Car.up body)) in *.
  assert (Hacc : Car.airSpinAcceleration == 0.15) by reflexivity.
  set (w := CANNON.Body.angularVelocity (collision this)).
  pose proof (forward_unit body Hq) as Hff.
  pose proof (right_unit body Hq) as Hrr.
  pose proof (forward_right_orthogonal body Hq) as Hfr.
  assert (Hrf : CANNON.Vec3.dot (toCANNON (Car.right body)) (toCANNON (Car.forward body)) == 0).
  { rewrite dot_comm. exact Hfr. }
  set (f := toCANNON (Car.forward body)) in *.
  set (r := toCANNON (Car.right body)) in *.
  split.
  - rewrite (pitch_step_across r f _ _ Hrf).
    eapply Qle_trans; [apply roll_step_along; [exact Hff | nra]|].
    unfold spin_bound. apply Qmax_mono_r. nra.
  - eapply Qle_trans; [apply pitch_step_along; [exact Hrr | nra]|].
    unfold spin_bound. rewrite (roll_step_across f r _ _ Hfr).
    apply Qmax_mono_r. nra.
Qed.

(** C4's bound at the car of the counterexample: within 2.45, though not
    within 2.0. *)
Lemma C4_spin_bounded_witness :
  let body := moving 0 (CANNON.Vec3.mk 0 0 1.9) (CANNON.Quaternion.mk 0 0 1 0) in
  let this :=
    run (caps := straight)
      [ HandleKeyboardEvent keyEvent "right" true; Integrate body 0 ] car0 in
  (CarTable this /\ unit_quaternion (CANNON.Body.quaternion body))
  /\ Qabs (spin_about_forward body
             (after (Car.physicsPreStep (caps := straight) body this)))
     <= Qmax (Qabs (spin_about_forward body this)) 2.45.
Proof.
  intros body this.
  assert (Ht : CarTable this) by reflexivity.
  assert (Hq : unit_quaternion (CANNON.Body.quaternion body)) by reflexivity.
  split; [split; assumption|].
  exact (proj1 (proj2
    (C4_spin_bounded_by_cap_plus_increment (caps := straight) body this Ht Hq))).
Defined.

(** ** C5: engine force and ground contact *)

(** C5 fails of the code.  [update] throws at its first statement, the
    transform copy of [Vehicle.update], before it reaches the engine block:
    on every instance it leaves the engine force of every wheel record as it
    was.  On a car with "throttle" held and all four wheels on the ground
    the tick sends no engine force: every wheel record still holds 0. *)
Theorem C5_update_throws_before_the_engine_block {caps : Capabilities}
  (this : CarObject) (dt : Q) :
  Car.update dt this
  = Abrupt (TypeError "Cannot read properties of undefined: super.position") this
  /\ engineForces (after (Car.update dt this)) = engineForces this
  /\ (let grounded_car :=
        run (caps := straight)
          [ HandleKeyboardEvent keyEvent "throttle" true; Integrate Body_new 4 ]
          car0 in
      (0 < numWheelsOnGround grounded_car)%nat
      /\ lookup_action "throttle" (actions grounded_car)
         = Some (KeyBinding.mk ["KeyW"] true false false)
      /\ engineForces (after (Car.update (caps := straight) (1 # 60) grounded_car))
         = [0; 0; 0; 0]).
Proof.
  split; [apply Car_update_throws|].
  split; [now rewrite Car_update_throws|].
  cbv zeta. split; [cbn; lia|]. split; reflexivity.
Qed.

(** ** C6: [Car.onInputChange] *)

(** C6.  On a car carrying the action table of its class, every call of
    [onInputChange] throws: the table has no "brake" entry.  Hence
    [triggerAction] throws whenever it changes a pressed state, and
    [resetControls] throws whenever some action is pressed. *)
Theorem C6_onInputChange_always_throws
  (this : CarObject) :
  CarTable this ->
  returned (Car.onInputChange this) = false
  /\ (forall name b value,
        lookup_action name (actions this) = Some b ->
        KeyBinding.isPressed b <> value ->
        returned (Car.triggerAction name value this) = false)
  /\ ((exists name b, lookup_action name (actions this) = Some b
                      /\ KeyBinding.isPressed b = true) ->
      returned (Car.resetControls this) = false).
Proof.
  intros Ht.
  assert (Hb : lookup_action "brake" (actions this) = None).
  { apply (CarTable_lookup_None this "brake" Ht). cbn. intuition discriminate. }
  split; [apply Car_onInputChange_throws, Hb|].
  split; [intros name b value; apply Car_triggerAction_throws, Hb|].
  intros (name & b & Hl & Hp).
  unfold Car.resetControls, Vehicle.resetControls, bind at 1, read at 1.
  apply (Car_resetControls_throws_from _ this Hb).
  exists name, b. repeat split; try assumption.
  eapply lookup_action_In, Hl.
Qed.

(** C6 at a car with "throttle" pressed: [onInputChange] throws, and so do
    releasing the throttle through [triggerAction] and [resetControls]. *)
Lemma C6_onInputChange_witness :
  let this := run (caps := straight) [HandleKeyboardEvent keyEvent "throttle" true] car0 in
  CarTable this
  /\ returned (Car.onInputChange this) = false
  /\ returned (Car.triggerAction "throttle" false this) = false
  /\ returned (Car.resetControls this) = false.
Proof.
  intros this. assert (Ht : CarTable this) by reflexivity.
  pose (b := KeyBinding.mk ["KeyW"] true false false).
  destruct (C6_onInputChange_always_throws this Ht) as (H1 & H2 & H3).
  split; [exact Ht|]. split; [exact H1|]. split.
  - apply (H2 "throttle" b false eq_refl). discriminate.
  - apply H3. exists "throttle", b. split; reflexivity.
Defined.

(** ** C7: keyboard events on a [Car] *)

(** C7.  For every key code bound in the action table of a [Car] ("KeyW",
    "KeyS", "KeyA", "KeyD", "Space", "KeyH"), and for "KeyC" and "KeyR" with
    or without Shift, [Car.handleKeyboardEvent] returns with the instance
    exactly as it was: no pressed state and no edge flag changes, nothing
    is triggered, and the world is not touched.  The inherited handler, had
    it run on Shift+R, would have restarted the scenario. *)
Theorem C7_bound_key_codes_change_nothing
  (this : CarObject) (event : KeyboardEvent) (code : string) (pressed : bool) :
  CarTable this ->
  In code (Car_boundCodes ++ ["KeyC"; "KeyR"]) ->
  Car.handleKeyboardEvent event code pressed this = Normal tt this
  /\ (forall w hook, world this = Some w ->
      world (after (Vehicle.handleKeyboardEvent hook (mkKeyboardEvent true)
                      "KeyR" true this))
      = Some (World.restartScenario w)
      /\ world (after (Car.handleKeyboardEvent (mkKeyboardEvent true)
                         "KeyR" true this))
         = Some w).
Proof.
  intros Ht Hcode.
  assert (Hnone : forall c, In c (Car_boundCodes ++ ["KeyC"; "KeyR"]) ->
                    lookup_action c (actions this) = None).
  { intros c Hc. apply (CarTable_lookup_None this c Ht).
    cbn in Hc |- *. intros Hin.
    repeat (destruct Hc as [<-|Hc]; [intuition discriminate|]). exact Hc. }
  assert (Hidle : forall e c p, In c (Car_boundCodes ++ ["KeyC"; "KeyR"]) ->
                    Car.handleKeyboardEvent e c p this = Normal tt this).
  { intros e c p Hc. unfold Car.handleKeyboardEvent, bind, read.
    rewrite (Hnone c Hc). reflexivity. }
  split; [apply Hidle; exact Hcode|].
  intros w hook Hw. split.
  - unfold Vehicle.handleKeyboardEvent. cbn.
    unfold with_world, bind, read. rewrite Hw. reflexivity.
  - rewrite Hidle; [exact Hw | cbn; tauto].
Qed.

(** C7 at a fresh car and the code "KeyW" of its throttle. *)
Lemma C7_bound_key_codes_witness :
  (CarTable car0 /\ In "KeyW" (Car_boundCodes ++ ["KeyC"; "KeyR"]))
  /\ Car.handleKeyboardEvent keyEvent "KeyW" true car0 = Normal tt car0.
Proof.
  assert (Ht : CarTable car0) by reflexivity.
  assert (Hin : In "KeyW" (Car_boundCodes ++ ["KeyC"; "KeyR"])) by (left; reflexivity).
  split; [split; assumption|].
  exact (proj1 (C7_bound_key_codes_change_nothing car0 keyEvent "KeyW" true Ht Hin)).
Defined.

(** ** C8: the air-time accumulator *)


(** ** C9: [resetControls] *)

(** C9 fails on a [Car].  With "throttle" and "left" pressed,
    [resetControls] throws at the first pressed action: "throttle" is left
    released but with its [justReleased] flag still set, and "left" is still
    pressed.  The throw is that of [onInputChange] reading the missing
    "brake" action. *)
Theorem C9_resetControls_on_car_throws :
  let this :=
    run (caps := straight)
      [ HandleKeyboardEvent keyEvent "throttle" true;
        HandleKeyboardEvent keyEvent "left" true ] car0 in
  Car.resetControls this
  = Abrupt (TypeError "Cannot read properties of undefined: brake")
      (after (Car.resetControls this))
  /\ lookup_action "throttle" (actions (after (Car.resetControls this)))
     = Some (KeyBinding.mk ["KeyW"] false false true)
  /\ lookup_action "left" (actions (after (Car.resetControls this)))
     = Some (KeyBinding.mk ["KeyA"] true false false)
  /\ after (Vehicle.resetControls Vehicle.onInputChange this)
     = set_actions Car.actions0 this.
Proof. vm_compute. repeat split; reflexivity. Qed.

(** ** C10: [setPosition] and the transform *)



(** * Further properties of the vehicle code *)

(** ** [Vehicle.triggerAction] *)

(** X2.  On a car and for an action of its table,
    [triggerAction(name, value)] returns exactly when the action already has
    the requested state, and then the instance is as it was: every call that
    would change the pressed state of an action throws. *)
Theorem X2_car_triggerAction_returns_iff_nothing_to_do
  (this : CarObject) (name : string) (value : bool) (b : KeyBinding.t) :
  CarTable this ->
  lookup_action name (actions this) = Some b ->
  (returned (Car.triggerAction name value this) = true
   <-> KeyBinding.isPressed b = value)
  /\ (KeyBinding.isPressed b = value ->
      Car.triggerAction name value this = Normal tt this).
Proof.
  intros Ht Hl.
  assert (Hb : lookup_action "brake" (actions this) = None).
  { apply CarTable_lookup_None; [exact Ht|]. cbn. intros H.
    repeat (destruct H as [H|H]; [discriminate H|]). exact H. }
  destruct (Bool.bool_dec (KeyBinding.isPressed b) value) as [Hp|Hp].
  - pose proof (Vehicle_triggerAction_same Car.onInputChange name value this b Hl Hp)
      as E.
    unfold Car.triggerAction. rewrite E. split; [|reflexivity].
    split; [intros _; exact Hp | reflexivity].
  - rewrite (Car_triggerAction_throws this name b value Hb Hl Hp).
    split; [|contradiction]. split; [discriminate | contradiction].
Qed.

(** X2 at a fresh car: releasing the released throttle returns and changes
    nothing. *)
Lemma X2_car_triggerAction_witness :
  (CarTable car0
   /\ lookup_action "throttle" (actions car0) = Some (KeyBinding.new "KeyW"))
  /\ Car.triggerAction "throttle" false car0 = Normal tt car0.
Proof.
  assert (Ht : CarTable car0) by reflexivity.
  assert (Hl : lookup_action "throttle" (actions car0) = Some (KeyBinding.new "KeyW"))
    by reflexivity.
  split; [split; assumption|].
  apply (proj2 (X2_car_triggerAction_returns_iff_nothing_to_do car0 "throttle" false
                  (KeyBinding.new "KeyW") Ht Hl)).
  reflexivity.
Defined.

(** X3.  When [triggerAction(name, value)] changes a state, the handler runs
    on an instance in which the action has the new state and exactly one
    edge flag set ([justPressed] for a press, [justReleased] for a release).
    If the handler returns with the table as it found it, the call returns
    with both edge flags clear; if the handler throws, the call throws and
    the edge flag stays set. *)
Theorem X3_triggerAction_edge_flags_live_during_handler
  (h : Js unit) (name : string) (value : bool) (this : CarObject)
  (b : KeyBinding.t) :
  lookup_action name (actions this) = Some b ->
  KeyBinding.isPressed b <> value ->
  let during :=
    set_actions (update_action name (during_change value) (actions this)) this in
  lookup_action name (actions during)
  = Some (KeyBinding.mk (KeyBinding.eventCodes b) value value (negb value))
  /\ (forall s, h during = Normal tt s -> actions s = actions during ->
      Vehicle.triggerAction h name value this
      = Normal tt (set_actions (update_action name (settled value) (actions this)) s))
  /\ (forall e s, h during = Abrupt e s ->
      Vehicle.triggerAction h name value this = Abrupt e s).
Proof.
  intros Hl Hp during. split; [|split].
  - subst during. cbn [actions set_actions].
    rewrite lookup_update_action, Hl. reflexivity.
  - intros s E A.
    rewrite (Vehicle_triggerAction_change h name value this b Hl Hp).
    fold during. rewrite (bind_eq _ _ _ _ _ E).
    apply (clear_flags_after name value (actions this) s b Hl). exact A.
  - intros e s E.
    rewrite (Vehicle_triggerAction_change h name value this b Hl Hp).
    fold during. unfold bind at 1. now rewrite E.
Qed.

(** X3 at a fresh car, pressing the throttle with the handler of the base
    class: the call returns with the throttle pressed and no edge flag. *)
Lemma X3_triggerAction_edge_flags_witness :
  (lookup_action "throttle" (actions car0) = Some (KeyBinding.new "KeyW")
   /\ KeyBinding.isPressed (KeyBinding.new "KeyW") <> true)
  /\ Vehicle.triggerAction Vehicle.onInputChange "throttle" true car0
     = Normal tt
         (set_actions (update_action "throttle" (settled true) (actions car0))
            (set_actions (update_action "throttle" (during_change true) (actions car0))
               car0)).
Proof.
  assert (Hl : lookup_action "throttle" (actions car0) = Some (KeyBinding.new "KeyW"))
    by reflexivity.
  assert (Hp : KeyBinding.isPressed (KeyBinding.new "KeyW") <> true)
    by (cbn; discriminate).
  split; [split; assumption|].
  exact (proj1 (proj2 (X3_triggerAction_edge_flags_live_during_handler
    Vehicle.onInputChange "throttle" true car0 (KeyBinding.new "KeyW") Hl Hp))
    _ eq_refl eq_refl).
Defined.

(** ** [Vehicle.resetControls] *)

(** X4.  With a handler that returns and leaves the action table alone,
    [resetControls] returns; every action that was pressed ends released
    with both edge flags clear, every action that was not pressed is
    untouched (its edge flags included), so no action is pressed afterwards;
    and whatever the handler leaves alone, the table apart, is as it was. *)
Theorem X4_resetControls_releases_every_action
  (h : Js unit) (this : CarObject) :
  quiet h ->
  List.NoDup (action_names this) ->
  exists s,
    Vehicle.resetControls h this = Normal tt s
    /\ actions s = map_entries (triggered false) (actions this)
    /\ (forall name b, lookup_action name (actions s) = Some b ->
        KeyBinding.isPressed b = false)
    /\ (forall X (f : CarObject -> X),
        ignores_actions f -> preserves (same f) h -> f s = f this).
Proof.
  intros Hq Hnd. destruct (Vehicle_resetControls_quiet h this Hq Hnd) as (s & E & A).
  exists s. split; [exact E|]. split; [exact A|]. split.
  - intros name b Hl. rewrite A, lookup_map_entries in Hl.
    destruct (lookup_action name (actions this)) as [b0|]; [|discriminate].
    injection Hl as <-. apply triggered_isPressed.
  - intros X f Hf Hh.
    exact (preserves_Normal f _ this tt s (Vehicle_resetControls_frame f h Hf Hh) E).
Qed.

(** X4 at a car with "throttle" and "left" pressed and the handler of the
    base class. *)
Lemma X4_resetControls_witness :
  let this :=
    run (caps := straight)
      [ HandleKeyboardEvent keyEvent "throttle" true;
        HandleKeyboardEvent keyEvent "left" true ] car0 in
  (quiet Vehicle.onInputChange /\ List.NoDup (action_names this))
  /\ exists s,
       Vehicle.resetControls Vehicle.onInputChange this = Normal tt s
       /\ actions s = map_entries (triggered false) (actions this).
Proof.
  intros this.
  assert (Hnd : List.NoDup (action_names this)).
  { cbn. repeat (constructor; [cbn; intros H;
      repeat (destruct H as [H|H]; [discriminate H|]); exact H|]). constructor. }
  split; [split; [exact quiet_base | exact Hnd]|].
  destruct (X4_resetControls_releases_every_action Vehicle.onInputChange this
              quiet_base Hnd) as (s & E & A & _).
  exists s. split; assumption.
Defined.

(** ** [Vehicle.handleKeyboardEvent] *)

(** X5.  The handler of the base class, on any key event other than Shift+C
    and Shift+R pressed, with a handler that returns and leaves the table
    alone: it returns; exactly the actions whose key codes contain the code
    are triggered with the key's state, all other entries are untouched; a
    code bound to no action changes nothing in the table; and whatever the
    handler leaves alone, the table apart, is as it was. *)
Theorem X5_key_event_triggers_the_actions_bound_to_the_code
  (h : Js unit) (event : KeyboardEvent) (code : string) (pressed : bool)
  (this : CarObject) :
  quiet h ->
  List.NoDup (action_names this) ->
  reserved event code pressed = false ->
  exists s,
    Vehicle.handleKeyboardEvent h event code pressed this = Normal tt s
    /\ actions s = map_entries (dispatched code pressed) (actions this)
    /\ (forall name b b',
        lookup_action name (actions this) = Some b ->
        lookup_action name (actions s) = Some b' ->
        if existsb (String.eqb code) (KeyBinding.eventCodes b)
        then KeyBinding.isPressed b' = pressed else b' = b)
    /\ ((forall name b, lookup_action name (actions this) = Some b ->
         ~ In code (KeyBinding.eventCodes b)) ->
        actions s = actions this)
    /\ (forall X (f : CarObject -> X),
        ignores_actions f -> preserves (same f) h -> f s = f this).
Proof.
  intros Hq Hnd Hr.
  destruct (Vehicle_handleKeyboardEvent_dispatch h event code pressed this Hq Hnd Hr)
    as (s & E & A).
  exists s. split; [exact E|]. split; [exact A|]. split; [|split].
  - intros name b b' Hl Hl'. rewrite A, lookup_map_entries, Hl in Hl'.
    injection Hl' as <-. unfold dispatched.
    destruct (existsb _ _); [apply triggered_isPressed | reflexivity].
  - intros Hun. rewrite A. apply map_entries_id. intros [k b] Hin. cbn.
    unfold dispatched.
    destruct (existsb (String.eqb code) (KeyBinding.eventCodes b)) eqn:Hb;
      [|reflexivity].
    exfalso. apply existsb_exists in Hb. destruct Hb as (c & Hc & Hcc).
    apply String.eqb_eq in Hcc. subst c.
    exact (Hun k b (lookup_action_NoDup_In k b (actions this) Hnd Hin) Hc).
  - intros X f Hf Hh.
    exact (preserves_Normal f _ this tt s
             (Vehicle_dispatch_frame f h event code pressed Hr Hf Hh) E).
Qed.

(** X5 at a fresh car, the handler of the base class and the key "KeyW"
    going down: the throttle, and nothing else, ends pressed. *)
Lemma X5_key_event_witness :
  (quiet Vehicle.onInputChange /\ List.NoDup (action_names car0)
   /\ reserved keyEvent "KeyW" true = false)
  /\ exists s,
       Vehicle.handleKeyboardEvent Vehicle.onInputChange keyEvent "KeyW" true car0
       = Normal tt s
       /\ actions s = map_entries (dispatched "KeyW" true) (actions car0).
Proof.
  assert (Hnd : List.NoDup (action_names car0)).
  { cbn. repeat (constructor; [cbn; intros H;
      repeat (destruct H as [H|H]; [discriminate H|]); exact H|]). constructor. }
  assert (Hr : reserved keyEvent "KeyW" true = false) by reflexivity.
  split; [split; [exact quiet_base | split; [exact Hnd | exact Hr]]|].
  destruct (X5_key_event_triggers_the_actions_bound_to_the_code Vehicle.onInputChange
              keyEvent "KeyW" true car0 quiet_base Hnd Hr) as (s & E & A & _).
  exists s. split; assumption.
Defined.

(** X6.  Shift+C pressed, on the handler of the base class with a handler
    that returns and leaves the table and the world alone: the controls are
    reset first, then the input is handed to the camera operator.  On a
    vehicle that is in no world the call throws, but only after the controls
    have been reset. *)
Theorem X6_shift_C_resets_controls_then_hands_input_to_the_camera
  (h : Js unit) (event : KeyboardEvent) (this : CarObject) :
  quiet h ->
  preserves (same world) h ->
  List.NoDup (action_names this) ->
  shiftKey event = true ->
  let result := Vehicle.handleKeyboardEvent h event "KeyC" true this in
  actions (after result) = map_entries (triggered false) (actions this)
  /\ (forall w, world this = Some w ->
      returned result = true
      /\ world (after result)
         = Some (World.setInputReceiver ReceiverCameraOperator w))
  /\ (world this = None -> returned result = false /\ world (after result) = None).
Proof.
  intros Hq Hw Hnd Hs result. subst result.
  unfold Vehicle.handleKeyboardEvent.
  assert (C : String.eqb "KeyC" "KeyC" && true && shiftKey event = true)
    by (rewrite Hs; reflexivity).
  rewrite C.
  destruct (Vehicle_resetControls_quiet h this Hq Hnd) as (s & E & A).
  rewrite (bind_eq _ _ _ _ _ E).
  assert (W : world s = world this).
  { refine (preserves_Normal world _ this tt s _ E).
    apply Vehicle_resetControls_frame; [intros tbl s0; reflexivity | exact Hw]. }
  unfold with_world, bind, read. rewrite W.
  destruct (world this) as [w|]; cbn.
  - split; [exact A|]. split; [|discriminate].
    intros w' Hw'. injection Hw' as <-. now split.
  - split; [exact A|]. split; [discriminate|]. intros _. split; [reflexivity | exact W].
Qed.

(** X6 at a fresh car with the throttle pressed, in no world: the throttle
    is released although the call throws. *)
Lemma X6_shift_C_witness :
  let this := run (caps := straight) [HandleKeyboardEvent keyEvent "throttle" true] car0 in
  let result :=
    Vehicle.handleKeyboardEvent Vehicle.onInputChange (mkKeyboardEvent true)
      "KeyC" true this in
  (quiet Vehicle.onInputChange /\ preserves (same world) Vehicle.onInputChange
   /\ List.NoDup (action_names this))
  /\ actions (after result) = map_entries (triggered false) (actions this).
Proof.
  intros this result.
  assert (Hw : preserves (same world) Vehicle.onInputChange) by (intros s; reflexivity).
  assert (Hnd : List.NoDup (action_names this)).
  { cbn. repeat (constructor; [cbn; intros H;
      repeat (destruct H as [H|H]; [discriminate H|]); exact H|]). constructor. }
  split; [split; [exact quiet_base | split; [exact Hw | exact Hnd]]|].
  exact (proj1 (X6_shift_C_resets_controls_then_hands_input_to_the_camera
    Vehicle.onInputChange (mkKeyboardEvent true) this quiet_base Hw Hnd eq_refl)).
Defined.

(** X7.  A key going down and up again, on the handler of the base class
    with a handler that returns and leaves the table alone: from a table in
    which every action is released with both edge flags clear, both calls
    return and the table is again what it was. *)
Theorem X7_key_down_then_up_restores_a_released_table
  (h : Js unit) (event event' : KeyboardEvent) (code : string)
  (this : CarObject) :
  quiet h ->
  List.NoDup (action_names this) ->
  reserved event code true = false ->
  Forall (fun e => KeyBinding.isPressed (snd e) = false
                   /\ KeyBinding.justPressed (snd e) = false
                   /\ KeyBinding.justReleased (snd e) = false) (actions this) ->
  exists down up,
    Vehicle.handleKeyboardEvent h event code true this = Normal tt down
    /\ actions down = map_entries (dispatched code true) (actions this)
    /\ Vehicle.handleKeyboardEvent h event' code false down = Normal tt up
    /\ actions up = actions this.
Proof.
  intros Hq Hnd Hr Hclean.
  destruct (Vehicle_handleKeyboardEvent_dispatch h event code true this Hq Hnd Hr)
    as (down & E1 & A1).
  assert (Hnd1 : List.NoDup (map fst (actions down))).
  { rewrite A1, map_entries_keys. exact Hnd. }
  assert (Hr' : reserved event' code false = false).
  { unfold reserved. now rewrite andb_false_r. }
  destruct (Vehicle_handleKeyboardEvent_dispatch h event' code false down Hq Hnd1 Hr')
    as (up & E2 & A2).
  exists down, up. split; [exact E1|]. split; [exact A1|]. split; [exact E2|].
  rewrite A2, A1, map_entries_compose. apply map_entries_id.
  intros e He. rewrite List.Forall_forall in Hclean.
  destruct (Hclean e He) as (H1 & H2 & H3). now apply dispatched_down_up.
Qed.

(** X7 at a fresh car and the key "KeyW". *)
Lemma X7_key_down_then_up_witness :
  exists down up,
    Vehicle.handleKeyboardEvent Vehicle.onInputChange keyEvent "KeyW" true car0
    = Normal tt down
    /\ actions down = map_entries (dispatched "KeyW" true) (actions car0)
    /\ Vehicle.handleKeyboardEvent Vehicle.onInputChange keyEvent "KeyW" false down
       = Normal tt up
    /\ actions up = actions car0.
Proof.
  assert (Hnd : List.NoDup (action_names car0)).
  { cbn. repeat (constructor; [cbn; intros H;
      repeat (destruct H as [H|H]; [discriminate H|]); exact H|]). constructor. }
  apply (X7_key_down_then_up_restores_a_released_table Vehicle.onInputChange
           keyEvent keyEvent "KeyW" car0 quiet_base Hnd eq_refl).
  cbn. repeat (constructor; [repeat split; reflexivity|]). constructor.
Defined.

(** ** [Car.handleKeyboardEvent] *)

(** X8.  The handler of a car never throws and never runs [onInputChange]:
    a code that names an entry of the action table sets the [isPressed] flag
    of that entry and nothing else (both edge flags and every other entry
    keep their values); any other code leaves the instance as it was; the
    same event twice is the same as once. *)
Theorem X8_car_key_event_sets_the_pressed_flag_only
  (event event' : KeyboardEvent) (code : string) (pressed : bool)
  (this : CarObject) :
  let this' := after (Car.handleKeyboardEvent event code pressed this) in
  Car.handleKeyboardEvent event code pressed this
  = Normal tt
      (set_actions
         (update_action code (KeyBinding.with_isPressed pressed) (actions this)) this)
  /\ lookup_action code (actions this')
     = KeyBinding.with_isPressed pressed <$> lookup_action code (actions this)
  /\ (forall name, name <> code ->
      lookup_action name (actions this') = lookup_action name (actions this))
  /\ (lookup_action code (actions this) = None -> this' = this)
  /\ Car.handleKeyboardEvent event' code pressed this' = Normal tt this'.
Proof.
  intros this'.
  assert (E : Car.handleKeyboardEvent event code pressed this
              = Normal tt
                  (set_actions
                     (update_action code (KeyBinding.with_isPressed pressed)
                        (actions this)) this)).
  { unfold Car.handleKeyboardEvent, bind at 1, read at 1.
    destruct (lookup_action code (actions this)) as [b|] eqn:Hl.
    - apply (set_action_field_eq code _ this b Hl).
    - rewrite update_action_absent by exact Hl.
      unfold ret. now rewrite set_actions_same. }
  assert (E' : this' = set_actions
                         (update_action code (KeyBinding.with_isPressed pressed)
                            (actions this)) this).
  { subst this'. now rewrite E. }
  split; [exact E|]. split; [|split; [|split]].
  - rewrite E'. cbn [actions set_actions]. apply lookup_update_action.
  - intros name Hne. rewrite E'. cbn [actions set_actions].
    apply lookup_update_action_other. congruence.
  - intros Hl. rewrite E', update_action_absent by exact Hl. apply set_actions_same.
  - unfold Car.handleKeyboardEvent, bind at 1, read at 1.
    destruct (lookup_action code (actions this')) as [b'|] eqn:Hl'; [|reflexivity].
    rewrite (set_action_field_eq code _ this' b' Hl'). f_equal.
    rewrite E' in Hl' |- *. cbn [actions set_actions] in *.
    rewrite update_action_compose.
    destruct (lookup_action code (actions this)) as [b|] eqn:Hl.
    + rewrite (update_action_ext code _ (KeyBinding.with_isPressed pressed) _ b Hl)
        by reflexivity.
      now destruct this.
    + rewrite lookup_update_action, Hl in Hl'. discriminate.
Qed.

(** ** [Car.noDirectionPressed] *)

(** X9.  On a car, [noDirectionPressed] returns without changing the
    instance, and its answer is [true] exactly when none of "throttle",
    "reverse", "left" and "right" is pressed; the handbrake and the horn do
    not count. *)
Theorem X9_noDirectionPressed_reads_the_four_direction_keys
  (this : CarObject) :
  CarTable this ->
  exists answer,
    Car.noDirectionPressed this = Normal answer this
    /\ (answer = true <->
        forall name b, In name ["throttle"; "reverse"; "left"; "right"] ->
          lookup_action name (actions this) = Some b ->
          KeyBinding.isPressed b = false).
Proof.
  intros Ht. destruct (CarTable_inv this Ht) as (bT & bRe & bL & bRi & bHb & bHo & Ha).
  exists (negb (KeyBinding.isPressed bT) && (negb (KeyBinding.isPressed bRe)
          && (negb (KeyBinding.isPressed bL) && negb (KeyBinding.isPressed bRi)))).
  split.
  - destruct this as [tbl v ws wo co fp po qu sp sw ast ss ge st tts ct].
    cbn [actions] in Ha. subst tbl.
    destruct bT as [cT [] jpT jrT]; destruct bRe as [cRe [] jpRe jrRe];
      destruct bL as [cL [] jpL jrL]; destruct bRi as [cRi [] jpRi jrRi];
      reflexivity.
  - rewrite Ha. split.
    + intros Hall name b Hin Hl.
      apply andb_prop in Hall. destruct Hall as [H1 Hall].
      apply andb_prop in Hall. destruct Hall as [H2 Hall].
      apply andb_prop in Hall. destruct Hall as [H3 H4].
      apply negb_true_iff in H1, H2, H3, H4.
      cbn in Hin.
      destruct Hin as [<-|[<-|[<-|[<-|[]]]]]; cbn in Hl; injection Hl as <-; assumption.
    + intros Hall.
      rewrite (Hall "throttle" bT), (Hall "reverse" bRe), (Hall "left" bL),
        (Hall "right" bRi); try reflexivity; cbn; tauto.
Qed.

(** X9 at a fresh car with the handbrake pressed: no direction is pressed. *)
Lemma X9_noDirectionPressed_witness :
  let this := run (caps := straight) [HandleKeyboardEvent keyEvent "handbrake" true] car0 in
  CarTable this /\ Car.noDirectionPressed this = Normal true this.
Proof.
  intros this. assert (Ht : CarTable this) by reflexivity.
  split; [exact Ht|].
  destruct (X9_noDirectionPressed_reads_the_four_direction_keys this Ht)
    as (answer & E & Hiff).
  rewrite E. f_equal. apply Hiff. intros name b Hin Hl. cbn in Hin.
  destruct Hin as [<-|[<-|[<-|[<-|[]]]]]; cbn in Hl; injection Hl as <-; reflexivity.
Defined.

(** ** [Car.onInputChange], had the table the entries it reads *)

(** X10.  On an action table that, beside the six actions of a car, has a
    "brake" and a "view" entry, and in a world, [onInputChange] returns: the
    engine force of every wheel record is cleared when "throttle" or
    "reverse" has just been released and kept otherwise; the brake of every
    wheel record becomes 0 when "brake" has just been released, 1000000 when
    it has just been pressed, and is kept otherwise; the first-person flag
    flips exactly when "view" has just been pressed; the table itself is not
    changed. *)
Theorem X10_onInputChange_acts_on_edges_when_brake_and_view_are_bound
  (this : CarObject) (w : World.t)
  (bT bRe bL bRi bHb bHo bB bV : KeyBinding.t) :
  actions this =
    [ ("throttle", bT); ("reverse", bRe); ("left", bL); ("right", bRi);
      ("handbrake", bHb); ("horn", bHo); ("brake", bB); ("view", bV) ] ->
  world this = Some w ->
  let this' := after (Car.onInputChange this) in
  let n := length (wheelInfos_of this) in
  returned (Car.onInputChange this) = true
  /\ engineForces this'
     = (if KeyBinding.justReleased bT || KeyBinding.justReleased bRe
        then replicate n 0 else engineForces this)
  /\ CANNON.WheelInfo.brake <$> wheelInfos_of this'
     = brake_edge bB n (CANNON.WheelInfo.brake <$> wheelInfos_of this)
  /\ firstPerson this' = xorb (firstPerson this) (KeyBinding.justPressed bV)
  /\ actions this' = actions this.
Proof.
  intros Ha Hw this' n.
  assert (W : wp Car.onInputChange
                (fun _ s =>
                   engineForces s
                   = (if KeyBinding.justReleased bT || KeyBinding.justReleased bRe
                      then replicate n 0 else engineForces this)
                   /\ CANNON.WheelInfo.brake <$> wheelInfos_of s
                      = brake_edge bB n (CANNON.WheelInfo.brake <$> wheelInfos_of this)
                   /\ firstPerson s = xorb (firstPerson this) (KeyBinding.justPressed bV)
                   /\ actions s = actions this) this).
  { subst n. unfold Car.onInputChange, Vehicle.onInputChange,
      Vehicle.toggleFirstPersonView, Vehicle.setFirstPersonView, with_world,
      brake_edge, engineForces.
    destruct this as [tbl v ws wo co fp po qu sp sw ast ss ge st tts ct].
    cbn [actions world] in Ha, Hw. subst tbl wo.
    destruct bT as [cT pT jpT []]; destruct bRe as [cRe pRe jpRe []];
      destruct bB as [cB pB [] []]; destruct bV as [cV pV [] jrV]; destruct fp;
      repeat (fields; wp_step ltac:(fields) ltac:(fields; reflexivity));
      fields;
      rewrite <- ?list_fmap_compose; unfold compose;
      cbn [CANNON.WheelInfo.engineForce CANNON.WheelInfo.brake
           CANNON.WheelInfo.with_brake CANNON.WheelInfo.with_engineForce];
      rewrite ?fmap_const_replicate, ?length_fmap;
      repeat split; reflexivity. }
  destruct (wp_elim _ _ _ W) as ([] & E & H). fold this' in E, H.
  split; [now rewrite E | exact H].
Qed.

(** X10 at a four-wheeled car in a world whose table has been given the two
    entries, with "brake" just pressed. *)
Lemma X10_onInputChange_witness :
  let w := World.mk ReceiverVehicle 3 0 in
  let this :=
    set_actions
      (Car.actions0
       ++ [ ("brake", KeyBinding.mk ["KeyB"] true true false);
            ("view", KeyBinding.new "KeyV") ])
      (run (caps := straight) [AddToWorld w] car0) in
  (world this = Some w)
  /\ CANNON.WheelInfo.brake <$> wheelInfos_of (after (Car.onInputChange this))
     = [1000000; 1000000; 1000000; 1000000].
Proof.
  intros w this.
  assert (Hw : world this = Some w) by reflexivity.
  split; [exact Hw|].
  exact (proj1 (proj2 (proj2
    (X10_onInputChange_acts_on_edges_when_brake_and_view_are_bound this w
       _ _ _ _ _ _ _ _ eq_refl Hw)))).
Defined.

(** ** The wheel setters *)

(** X11.  [applyEngineForce], [setSteeringValue] and [setBrake] (that of
    [Vehicle] and the override of [Car]) never throw; each writes its value
    to its own field of every wheel record, and leaves the other three
    fields of every record, the number of records and the rest of the
    instance as they were.  On a vehicle without wheel records they do
    nothing. *)
Theorem X11_wheel_setters_write_one_field_of_every_wheel
  (this : CarObject) (v : Q) :
  writes_every_wheel (Vehicle.applyEngineForce v)
    (fun wi => CANNON.WheelInfo.mk v (CANNON.WheelInfo.steering wi)
                 (CANNON.WheelInfo.brake wi) (CANNON.WheelInfo.worldTransform wi))
    this
  /\ writes_every_wheel (Vehicle.setSteeringValue v)
       (fun wi => CANNON.WheelInfo.mk (CANNON.WheelInfo.engineForce wi) v
                    (CANNON.WheelInfo.brake wi) (CANNON.WheelInfo.worldTransform wi))
       this
  /\ writes_every_wheel (Vehicle.setBrake v)
       (fun wi => CANNON.WheelInfo.mk (CANNON.WheelInfo.engineForce wi)
                    (CANNON.WheelInfo.steering wi) v (CANNON.WheelInfo.worldTransform wi))
       this
  /\ writes_every_wheel (Car.setBrake v)
       (fun wi => CANNON.WheelInfo.mk (CANNON.WheelInfo.engineForce wi)
                    (CANNON.WheelInfo.steering wi) v (CANNON.WheelInfo.worldTransform wi))
       this.
Proof.
  assert (W : forall (m : Js unit) g,
             m this = Normal tt (set_wheelInfos (g <$> wheelInfos_of this) this) ->
             writes_every_wheel m g this).
  { intros m g E. unfold writes_every_wheel. rewrite E. cbn [after].
    split; [reflexivity|]. split; [|split; [|split]].
    - rewrite wheelInfos_of_set, <- list_fmap_compose. reflexivity.
    - rewrite wheelInfos_of_set. apply length_fmap.
    - reflexivity.
    - intros E0. rewrite E0. cbn. unfold wheelInfos_of in E0.
      destruct this as [a [l n] ws wo co fp po qu sp sw ast ss ge st tts ct].
      cbn in E0. subst l. reflexivity. }
  split; [|split; [|split]]; apply W.
  - apply Vehicle_applyEngineForce_eq.
  - apply Vehicle_setSteeringValue_eq.
  - apply Vehicle_setBrake_eq.
  - apply Car_setBrake_eq.
Qed.

(** X12.  A wheel setter called twice keeps the last value only, and setters
    of different fields commute: the instance after engine force, steering
    value and brake have been set does not depend on the order of the three
    calls. *)
Theorem X12_wheel_setters_overwrite_and_commute
  (this : CarObject) (force force' val brakeForce : Q) :
  let engine f s := after (Vehicle.applyEngineForce f s) in
  let steer x s := after (Vehicle.setSteeringValue x s) in
  let brake x s := after (Vehicle.setBrake x s) in
  engine force' (engine force this) = engine force' this
  /\ engine force (steer val this) = steer val (engine force this)
  /\ engine force (brake brakeForce this) = brake brakeForce (engine force this)
  /\ steer val (brake brakeForce this) = brake brakeForce (steer val this)
  /\ wheelInfos_of (engine force (steer val (brake brakeForce this)))
     = (fun wi => CANNON.WheelInfo.mk force val brakeForce
                    (CANNON.WheelInfo.worldTransform wi)) <$> wheelInfos_of this.
Proof.
  intros engine steer brake. subst engine steer brake. cbv beta.
  rewrite !Vehicle_setBrake_eq, !Vehicle_setSteeringValue_eq,
    !Vehicle_applyEngineForce_eq. cbn [after].
  rewrite ?Vehicle_setBrake_eq, ?Vehicle_setSteeringValue_eq,
    ?Vehicle_applyEngineForce_eq. cbn [after].
  rewrite ?Vehicle_setBrake_eq, ?Vehicle_setSteeringValue_eq,
    ?Vehicle_applyEngineForce_eq. cbn [after].
  rewrite !wheelInfos_of_set, !set_wheelInfos_twice, <- !list_fmap_compose.
  repeat split; reflexivity.
Qed.

(** ** [Car.update] *)

(** X17.  [update] reads the inputs and the chassis body but never writes
    them: the action table, the chassis body, the grounded-wheel count, the
    measured speed, the steering spring, the world and the first-person flag
    are after the call what they were before it. *)
Theorem X17_update_leaves_inputs_body_and_world_alone
  {caps : Capabilities} (this : CarObject) (dt : Q) :
  WellFormed this ->
  let this' := after (Car.update dt this) in
  actions this' = actions this
  /\ collision this' = collision this
  /\ numWheelsOnGround this' = numWheelsOnGround this
  /\ _speed this' = _speed this
  /\ steeringSimulator this' = steeringSimulator this
  /\ world this' = world this
  /\ firstPerson this' = firstPerson this.
Proof.
  intros _ this'. subst this'. rewrite Car_update_throws.
  repeat split; reflexivity.
Qed.

(** X17 at a fresh four-wheeled car. *)
Lemma X17_update_leaves_alone_witness :
  WellFormed car0
  /\ actions (after (Car.update (caps := straight) (1 # 60) car0)) = actions car0.
Proof.
  split; [exact car0_WellFormed|].
  exact (proj1 (X17_update_leaves_inputs_body_and_world_alone
    (caps := straight) car0 (1 # 60) car0_WellFormed)).
Defined.

(** ** [Car.physicsPreStep]: what the air control does and does not do *)

(** X19.  [physicsPreStep] writes the measured speed, the angular velocity
    of the chassis body and the target of the steering spring, and nothing
    else: whether it returns or throws, the action table, the wheel records,
    the wheels, the world, the transform, the steering-wheel model, the
    air-time accumulator, the tilt permission, the position, orientation and
    linear velocity of the body and the position and velocity of the spring
    are as they were. *)
Theorem X19_physicsPreStep_writes_speed_spin_and_target_only
  {caps : Capabilities} (body : CANNON.Body.t) (this : CarObject) :
  beyond_preStep (after (Car.physicsPreStep body this)) = beyond_preStep this.
Proof.
  pose proof (Car_physicsPreStep_frame body this) as H.
  unfold same in H. exact H.
Qed.

(** X20.  The air control never yaws the car: one [physicsPreStep] leaves
    the projection of the angular velocity on the chassis up axis unchanged,
    whatever keys are pressed and whatever the orientation. *)
Theorem X20_physicsPreStep_never_changes_spin_about_up
  {caps : Capabilities} (body : CANNON.Body.t) (this : CarObject) :
  CarTable this ->
  returned (Car.physicsPreStep body this) = true
  /\ spin_about_up body (after (Car.physicsPreStep body this))
     == spin_about_up body this.
Proof.
  intros Ht.
  destruct (Car_physicsPreStep_increments body this Ht)
    as (bT & bRe & bL & bRi & p1 & p2 & _ & _ & _ & _ & E & Hd).
  split; [now rewrite E|].
  destruct (axes_orthogonal body) as (_ & Hfu & Hru).
  unfold spin_about_up. rewrite Hd, Hfu, Hru. ring.
Qed.

(** X20 at a car in the air with "right" and "reverse" pressed, banked and
    spinning about all three axes. *)
Lemma X20_physicsPreStep_no_yaw_witness :
  let body := moving 1 (CANNON.Vec3.mk 1 1 1) banked in
  let this :=
    run (caps := straight)
      [ HandleKeyboardEvent keyEvent "right" true;
        HandleKeyboardEvent keyEvent "reverse" true;
        Integrate body 0 ] car0 in
  CarTable this
  /\ spin_about_up body (after (Car.physicsPreStep (caps := straight) body this))
     == spin_about_up body this.
Proof.
  intros body this. assert (Ht : CarTable this) by reflexivity.
  split; [exact Ht|].
  exact (proj2 (X20_physicsPreStep_never_changes_spin_about_up
    (caps := straight) body this Ht)).
Defined.

(** X21.  For a chassis orientation of unit length, one [physicsPreStep]
    changes the spin about the forward axis by at most 0.6 (the acceleration
    0.15 times the largest sum of influences, 1 + 3) and the spin about the
    right axis by at most 0.15. *)
Theorem X21_physicsPreStep_changes_spin_by_bounded_increments
  {caps : Capabilities} (body : CANNON.Body.t) (this : CarObject) :
  CarTable this ->
  unit_quaternion (CANNON.Body.quaternion body) ->
  let this' := after (Car.physicsPreStep body this) in
  Qabs (spin_about_forward body this' - spin_about_forward body this) <= 0.6
  /\ Qabs (spin_about_right body this' - spin_about_right body this) <= 0.15.
Proof.
  intros Ht Hu this'.
  destruct (Car_physicsPreStep_increments body this Ht)
    as (bT & bRe & bL & bRi & p1 & p2 & _ & _ & _ & _ & _ & Hd).
  fold this' in Hd.
  destruct (axes_orthogonal body) as (Hfr & _ & _).
  pose proof (forward_unit body Hu) as Hff. pose proof (right_unit body Hu) as Hrr.
  pose proof (dot_comm (toCANNON (Car.right body)) (toCANNON (Car.forward body))) as Hrf.
  rewrite Hfr in Hrf.
  pose proof (roll_sign_range (KeyBinding.isPressed bRi) (KeyBinding.isPressed bL) p1).
  pose proof (pitch_sign_range (canTiltForwards this) (KeyBinding.isPressed bT)
                (KeyBinding.isPressed bRe) p2).
  pose proof (roll_increment_bounds body this Hu).
  pose proof (pitch_increment_bounds body this).
  unfold spin_about_forward, spin_about_right.
  split; apply Qabs_Qle_condition; rewrite Hd, ?Hff, ?Hrr, ?Hfr, ?Hrf; split; nra.
Qed.

(** X21 at an upside-down car at rest with "right" pressed: the roll rate
    grows by the flip-recovery increment. *)
Lemma X21_physicsPreStep_increments_witness :
  let body := moving 0 Vec3_zero (CANNON.Quaternion.mk 0 0 1 0) in
  let this :=
    run (caps := straight)
      [ HandleKeyboardEvent keyEvent "right" true; Integrate body 4 ] car0 in
  let this' := after (Car.physicsPreStep (caps := straight) body this) in
  (CarTable this /\ unit_quaternion (CANNON.Body.quaternion body))
  /\ Qabs (spin_about_forward body this' - spin_about_forward body this) <= 0.6.
Proof.
  intros body this this'. assert (Ht : CarTable this) by reflexivity.
  assert (Hu : unit_quaternion (CANNON.Body.quaternion body)) by reflexivity.
  split; [split; assumption|].
  exact (proj1 (X21_physicsPreStep_changes_spin_by_bounded_increments
    (caps := straight) body this Ht Hu)).
Defined.

(** X22.  Pitch control needs air time and forward speed: when the
    air-time accumulator is not positive, or the speed measured along the
    forward axis is not positive, one [physicsPreStep] leaves the spin about
    the right axis unchanged, whatever keys are pressed. *)
Theorem X22_physicsPreStep_pitches_only_with_air_time_and_forward_speed
  {caps : Capabilities} (body : CANNON.Body.t) (this : CarObject) :
  CarTable this ->
  airSpinTimer this <= 0 \/ measured_speed body this <= 0 ->
  spin_about_right body (after (Car.physicsPreStep body this))
  == spin_about_right body this.
Proof.
  intros Ht Hz.
  destruct (Car_physicsPreStep_increments body this Ht)
    as (bT & bRe & bL & bRi & p1 & p2 & _ & _ & _ & _ & _ & Hd).
  destruct (axes_orthogonal body) as (Hfr & _ & _).
  assert (Hi : pitch_increment body this == 0).
  { unfold pitch_increment, Car.airSpinInfluence.
    destruct Hz as [Hz|Hz].
    - assert (E : THREE.MathUtils.clamp (airSpinTimer this / 2) 0 1 == 0).
      { apply clamp_below; [discriminate|].
        unfold Qdiv. assert (0 < / 2) by reflexivity. nra. }
      rewrite E. ring.
    - assert (E : THREE.MathUtils.clamp (measured_speed body this) 0 1 == 0).
      { apply clamp_below; [discriminate | exact Hz]. }
      rewrite E. ring. }
  unfold spin_about_right. rewrite Hd, Hfr, Hi. ring.
Qed.

(** X22 at a car in the air that rolls backwards, with "reverse"
    pressed. *)
Lemma X22_physicsPreStep_pitch_witness :
  let body := moving (-1) Vec3_zero Quaternion_identity in
  let this :=
    run (caps := straight)
      [ HandleKeyboardEvent keyEvent "reverse" true;
        Integrate body 0 ] car0 in
  (CarTable this /\ measured_speed body this <= 0)
  /\ spin_about_right body (after (Car.physicsPreStep (caps := straight) body this))
     == spin_about_right body this.
Proof.
  intros body this. assert (Ht : CarTable this) by reflexivity.
  assert (Hs : measured_speed body this <= 0) by (vm_compute; discriminate).
  split; [split; assumption|].
  exact (X22_physicsPreStep_pitches_only_with_air_time_and_forward_speed
    (caps := straight) body this Ht (or_intror Hs)).
Defined.

(** X23.  The roll correction follows the key that is pressed alone: for a
    chassis orientation of unit length, with "right" pressed and "left" not
    the spin about the forward axis does not decrease, with "left" pressed
    and "right" not it does not increase, and with both or neither it stays
    the same. *)
Theorem X23_physicsPreStep_rolls_toward_the_pressed_side
  {caps : Capabilities} (body : CANNON.Body.t) (this : CarObject)
  (bL bRi : KeyBinding.t) :
  CarTable this ->
  unit_quaternion (CANNON.Body.quaternion body) ->
  lookup_action "left" (actions this) = Some bL ->
  lookup_action "right" (actions this) = Some bRi ->
  let before := spin_about_forward body this in
  let after' := spin_about_forward body (after (Car.physicsPreStep body this)) in
  (KeyBinding.isPressed bRi = true -> KeyBinding.isPressed bL = false ->
   before <= after')
  /\ (KeyBinding.isPressed bL = true -> KeyBinding.isPressed bRi = false ->
      after' <= before)
  /\ (KeyBinding.isPressed bL = KeyBinding.isPressed bRi -> after' == before).
Proof.
  intros Ht Hu HL HRi before after'. subst before after'.
  destruct (Car_physicsPreStep_increments body this Ht)
    as (bT & bRe & bL' & bRi' & p1 & p2 & _ & _ & HL' & HRi' & _ & Hd).
  assert (bL' = bL) by congruence. assert (bRi' = bRi) by congruence. subst bL' bRi'.
  destruct (axes_orthogonal body) as (Hfr & _ & _).
  pose proof (forward_unit body Hu) as Hff.
  pose proof (dot_comm (toCANNON (Car.right body)) (toCANNON (Car.forward body))) as Hrf.
  rewrite Hfr in Hrf.
  pose proof (roll_increment_bounds body this Hu) as [Hi _].
  destruct (roll_sign_keys (KeyBinding.isPressed bRi) (KeyBinding.isPressed bL) p1)
    as (K0 & Kp & Kn).
  unfold spin_about_forward. rewrite Hd, Hff, Hrf.
  split; [|split].
  - intros HpR _. specialize (Kp HpR). nra.
  - intros _ HpR. specialize (Kn HpR). nra.
  - intros Heq. rewrite (K0 (eq_sym Heq)). ring.
Qed.

(** X23 at an upside-down car at rest with "right" pressed. *)
Lemma X23_physicsPreStep_roll_witness :
  let body := moving 0 Vec3_zero (CANNON.Quaternion.mk 0 0 1 0) in
  let this :=
    run (caps := straight)
      [ HandleKeyboardEvent keyEvent "right" true; Integrate body 4 ] car0 in
  (CarTable this /\ unit_quaternion (CANNON.Body.quaternion body))
  /\ spin_about_forward body this
     <= spin_about_forward body (after (Car.physicsPreStep (caps := straight) body this)).
Proof.
  intros body this. assert (Ht : CarTable this) by reflexivity.
  assert (Hu : unit_quaternion (CANNON.Body.quaternion body)) by reflexivity.
  split; [split; assumption|].
  exact (proj1 (X23_physicsPreStep_rolls_toward_the_pressed_side
    (caps := straight) body this
    (KeyBinding.new "KeyA") (KeyBinding.mk ["KeyD"] true false false)
    Ht Hu eq_refl eq_refl) eq_refl eq_refl).
Defined.

(** X24.  Holding "throttle" through a jump never unlocks the forward tilt.
    On a car with "throttle" pressed, "reverse" released and the tilt
    permission withdrawn (as the constructor leaves it), after any sequence
    of integrator steps, [update]s and [physicsPreStep]s the permission is
    still withdrawn, and a [physicsPreStep] then leaves the spin about the
    right axis unchanged: the throttle has to be released in the air before
    it pitches the car forward. *)
Theorem X24_throttle_held_through_a_jump_never_unlocks_forward_tilt
  {caps : Capabilities} (calls : list Call) (this : CarObject)
  (bT bRe : KeyBinding.t) (body : CANNON.Body.t) :
  WellFormed this ->
  lookup_action "throttle" (actions this) = Some bT ->
  lookup_action "reverse" (actions this) = Some bRe ->
  KeyBinding.isPressed bT = true ->
  KeyBinding.isPressed bRe = false ->
  canTiltForwards this = false ->
  forallb is_tick calls = true ->
  let airborne := run calls this in
  canTiltForwards airborne = false
  /\ actions airborne = actions this
  /\ returned (Car.physicsPreStep body airborne) = true
  /\ spin_about_right body (after (Car.physicsPreStep body airborne))
     == spin_about_right body airborne.
Proof.
  intros Hwf HT HRe HpT HpRe Hct Hall airborne.
  destruct (ticks_keep_tilt_locked calls this bT Hwf Hall HT HpT Hct) as [Ha Hc].
  fold airborne in Ha, Hc.
  assert (Ht : CarTable airborne).
  { unfold CarTable. rewrite Ha. exact (proj1 Hwf). }
  destruct (Car_physicsPreStep_increments body airborne Ht)
    as (bT' & bRe' & bL & bRi & p1 & p2 & HT' & HRe' & _ & _ & E & Hd).
  rewrite Ha in HT', HRe'.
  assert (bT' = bT) by congruence. assert (bRe' = bRe) by congruence. subst bT' bRe'.
  split; [exact Hc|]. split; [exact Ha|]. split; [now rewrite E|].
  destruct (axes_orthogonal body) as (Hfr & _ & _).
  destruct (pitch_sign_keys (canTiltForwards airborne) (KeyBinding.isPressed bT)
              (KeyBinding.isPressed bRe) p2) as (_ & K & _).
  unfold spin_about_right. rewrite Hd, Hfr, (K Hc HpRe). ring.
Qed.

(** X24 at a fresh four-wheeled car that leaves the ground with the
    throttle held, over two ticks. *)
Lemma X24_throttle_held_witness :
  let body := moving 1 Vec3_zero Quaternion_identity in
  let this := run (caps := straight) [HandleKeyboardEvent keyEvent "throttle" true] car0 in
  let calls := [Integrate body 0; Update 1; PhysicsPreStep; Update 1] in
  (WellFormed this /\ canTiltForwards this = false /\ forallb is_tick calls = true)
  /\ canTiltForwards (run (caps := straight) calls this) = false.
Proof.
  intros body this calls.
  assert (Hwf : WellFormed this) by (apply reachable_WellFormed).
  split; [split; [exact Hwf | split; reflexivity]|].
  exact (proj1 (X24_throttle_held_through_a_jump_never_unlocks_forward_tilt
    (caps := straight) calls this
    (KeyBinding.mk ["KeyW"] true false false) (KeyBinding.new "KeyS") body
    Hwf eq_refl eq_refl eq_refl eq_refl eq_refl eq_refl)).
Defined.

(** X25.  The air-spin influence of [physicsPreStep] is a ramp in the air
    time and in the forward speed: it lies between 0 and 1, is 0 when the
    air time or the speed is not positive, is 1 from two seconds of air time
    and speed 1 on, is the product of half the air time and the speed in
    between, and never decreases when air time and speed grow. *)
Theorem X25_air_spin_influence_ramps_with_air_time_and_speed
  (timer speed timer' speed' : Q) :
  0 <= Car.airSpinInfluence timer speed <= 1
  /\ (timer <= 0 \/ speed <= 0 -> Car.airSpinInfluence timer speed == 0)
  /\ (2 <= timer -> 1 <= speed -> Car.airSpinInfluence timer speed == 1)
  /\ (0 <= timer <= 2 -> 0 <= speed <= 1 ->
      Car.airSpinInfluence timer speed == timer / 2 * speed)
  /\ (timer <= timer' -> speed <= speed' ->
      Car.airSpinInfluence timer speed <= Car.airSpinInfluence timer' speed').
Proof.
  split; [apply airSpinInfluence_bounds|]. unfold Car.airSpinInfluence.
  split; [|split; [|split]].
  - intros [H|H].
    + assert (E : THREE.MathUtils.clamp (timer / 2) 0 1 == 0).
      { apply clamp_below; [discriminate|]. unfold Qdiv. change (/ 2) with (1 # 2). lra. }
      rewrite E. ring.
    + assert (E : THREE.MathUtils.clamp speed 0 1 == 0)
        by (apply clamp_below; [discriminate | exact H]).
      rewrite E. ring.
  - intros Ht Hs.
    assert (E1 : THREE.MathUtils.clamp (timer / 2) 0 1 == 1).
    { apply clamp_above; [discriminate|]. unfold Qdiv. change (/ 2) with (1 # 2). lra. }
    assert (E2 : THREE.MathUtils.clamp speed 0 1 == 1)
      by (apply clamp_above; [discriminate | exact Hs]).
    rewrite E1, E2. ring.
  - intros Ht Hs.
    assert (E1 : THREE.MathUtils.clamp (timer / 2) 0 1 == timer / 2).
    { apply clamp_inside. unfold Qdiv. change (/ 2) with (1 # 2). lra. }
    assert (E2 : THREE.MathUtils.clamp speed 0 1 == speed)
      by (apply clamp_inside; exact Hs).
    rewrite E1, E2. reflexivity.
  - intros Ht Hs.
    pose proof (clamp_bounds (timer / 2) 0 1 ltac:(discriminate)) as B1.
    pose proof (clamp_bounds speed 0 1 ltac:(discriminate)) as B2.
    pose proof (clamp_bounds (timer' / 2) 0 1 ltac:(discriminate)) as B1'.
    pose proof (clamp_bounds speed' 0 1 ltac:(discriminate)) as B2'.
    assert (M1 : THREE.MathUtils.clamp (timer / 2) 0 1
                 <= THREE.MathUtils.clamp (timer' / 2) 0 1).
    { unfold THREE.MathUtils.clamp, Math.max, Math.min.
      apply Q.max_le_compat_l, Q.min_le_compat_l.
      unfold Qdiv. change (/ 2) with (1 # 2). lra. }
    assert (M2 : THREE.MathUtils.clamp speed 0 1 <= THREE.MathUtils.clamp speed' 0 1).
    { unfold THREE.MathUtils.clamp, Math.max, Math.min.
      apply Q.max_le_compat_l, Q.min_le_compat_l. exact Hs. }
    nra.
Qed.

(** ** [Car.physicsPreStep]: the steering target and the chassis axes *)

(** X26.  The steering target [physicsPreStep] sets on a car always lies
    within the steering lock of 0.8; it is negative whenever "right" is
    pressed and positive when "left" alone is; and at a measured speed of at
    most 10/3 (where the speed factor is 1) it is the full lock, whatever
    the drift-correction angle. *)
Theorem X26_steering_target_within_lock_and_full_lock_at_low_speed
  {caps : Capabilities} (body : CANNON.Body.t) (this : CarObject)
  (bL bRi : KeyBinding.t) :
  CarTable this ->
  lookup_action "left" (actions this) = Some bL ->
  lookup_action "right" (actions this) = Some bRi ->
  let target :=
    SpringSimulator.target (steeringSimulator (after (Car.physicsPreStep body this))) in
  - Car.maxSteerVal <= target <= Car.maxSteerVal
  /\ (KeyBinding.isPressed bRi = true -> target < 0)
  /\ (KeyBinding.isPressed bRi = false -> KeyBinding.isPressed bL = true -> 0 < target)
  /\ (measured_speed body this <= 10 / 3 ->
      (KeyBinding.isPressed bRi = true -> target == - Car.maxSteerVal)
      /\ (KeyBinding.isPressed bRi = false -> KeyBinding.isPressed bL = true ->
          target == Car.maxSteerVal)).
Proof.
  intros Ht HL HRi target. subst target.
  destruct (Car_physicsPreStep_post body this Ht)
    as (bT & bRe & bL' & bRi' & _ & _ & HL' & HRi' & _ & P).
  assert (bL' = bL) by congruence. assert (bRi' = bRi) by congruence. subst bL' bRi'.
  destruct P as (_ & _ & _ & _ & _ & _ & Htg). rewrite Htg. clear Htg.
  set (v := measured_speed body this). set (d := driftCorrection body this).
  pose proof (steer_floor_bounds v) as [F0 F1].
  assert (Hm : Car.maxSteerVal == 0.8) by reflexivity.
  destruct (steering_target_right v d) as [R1 R2].
  pose proof (steering_target_left v d) as L1.
  pose proof (clamp_bounds (- d) (- Car.maxSteerVal)
                (- (Car.maxSteerVal / speedFactor v)) ltac:(lra)) as BR.
  pose proof (clamp_bounds (- d) (Car.maxSteerVal / speedFactor v)
                Car.maxSteerVal ltac:(lra)) as BL.
  assert (Low : v <= 10 / 3 -> Car.maxSteerVal / speedFactor v == Car.maxSteerVal).
  { intros Hv. rewrite (speedFactor_low v Hv). unfold Qdiv. 
    assert (E1 : / 1 == 1) by reflexivity. rewrite E1. ring. }
  destruct (KeyBinding.isPressed bRi) eqn:HpR;
    destruct (KeyBinding.isPressed bL) eqn:HpL.
  - split; [lra|]. split; [intros _; lra|]. split; [discriminate|].
    intros Hv. specialize (Low Hv). split; [intros _; lra | discriminate].
  - split; [lra|]. split; [intros _; lra|]. split; [discriminate|].
    intros Hv. specialize (Low Hv). split; [intros _; lra | discriminate].
  - split; [lra|]. split; [discriminate|]. split; [intros _ _; lra|].
    intros Hv. specialize (Low Hv). split; [discriminate | intros _ _; lra].
  - unfold steering_target. split; [lra|]. split; [discriminate|].
    split; [discriminate|]. intros _. split; discriminate.
Qed.

(** X26 at an upright car moving straight ahead at speed 1 with "right"
    pressed: full lock to the right. *)
Lemma X26_steering_target_witness :
  let body := moving 1 Vec3_zero Quaternion_identity in
  let this :=
    run (caps := straight)
      [ HandleKeyboardEvent keyEvent "right" true; Integrate body 4 ] car0 in
  (CarTable this /\ measured_speed body this <= 10 / 3)
  /\ SpringSimulator.target
       (steeringSimulator (after (Car.physicsPreStep (caps := straight) body this)))
     == - Car.maxSteerVal.
Proof.
  intros body this. assert (Ht : CarTable this) by reflexivity.
  assert (Hv : measured_speed body this <= 10 / 3) by (vm_compute; discriminate).
  split; [split; assumption|].
  exact (proj1 (proj2 (proj2 (proj2
    (X26_steering_target_within_lock_and_full_lock_at_low_speed (caps := straight)
       body this (KeyBinding.new "KeyA") (KeyBinding.mk ["KeyD"] true false false)
       Ht eq_refl eq_refl))) Hv) eq_refl).
Defined.

(** X27.  For a chassis orientation of unit length, the forward, right and
    up axes [physicsPreStep] computes are orthonormal; hence the speed it
    measures, the velocity along the forward axis, is at most the speed of
    the chassis body in magnitude. *)
Theorem X27_chassis_axes_are_orthonormal
  {caps : Capabilities} (body : CANNON.Body.t) (this : CarObject) :
  unit_quaternion (CANNON.Body.quaternion body) ->
  let f := toCANNON (Car.forward body) in
  let r := toCANNON (Car.right body) in
  let u := toCANNON (Car.up body) in
  let v := CANNON.Body.velocity (collision this) in
  (CANNON.Vec3.dot f f == 1 /\ CANNON.Vec3.dot r r == 1 /\ CANNON.Vec3.dot u u == 1)
  /\ (CANNON.Vec3.dot f r == 0 /\ CANNON.Vec3.dot f u == 0 /\ CANNON.Vec3.dot r u == 0)
  /\ _speed (after (Car.physicsPreStep body this))
     * _speed (after (Car.physicsPreStep body this))
     <= CANNON.Vec3.dot v v.
Proof.
  intros Hu f r u v.
  split; [split; [apply forward_unit, Hu | split; [apply right_unit, Hu | apply up_unit, Hu]]|].
  split; [apply axes_orthogonal|].
  assert (E : _speed (after (Car.physicsPreStep body this)) = measured_speed body this).
  { unfold Car.physicsPreStep. cbv zeta. unfold bind at 1, assign at 1.
    match goal with
    | |- _speed (after (?k ?s)) = _ =>
        assert (F : preserves (same _speed) k) by (frame; reflexivity);
        exact (F s)
    end. }
  rewrite E. unfold measured_speed. apply dot_unit_le, forward_unit, Hu.
Qed.

(** X27 at a banked chassis moving at speed 5. *)
Lemma X27_chassis_axes_witness :
  let body := moving 5 Vec3_zero banked in
  unit_quaternion (CANNON.Body.quaternion body)
  /\ CANNON.Vec3.dot (toCANNON (Car.forward body)) (toCANNON (Car.up body)) == 0.
Proof.
  intros body. assert (Hu : unit_quaternion (CANNON.Body.quaternion body)) by reflexivity.
  split; [exact Hu|].
  exact (proj1 (proj2 (proj1 (proj2
    (X27_chassis_axes_are_orthonormal (caps := straight) body car0 Hu))))).
Defined.

(** ** The first-person view *)

(** X28.  [toggleFirstPersonView] flips the first-person flag before it
    reaches for the world: on a vehicle that is in no world the call throws
    with the flag already flipped.  In a world it returns and sets the
    camera radius to 0 when the view becomes first-person and to 3 when it
    stops being so, whatever the radius was; two toggles restore the flag
    and leave the radius at the value that belongs to it. *)
Theorem X28_toggleFirstPersonView_flips_the_flag_before_it_needs_a_world
  (this : CarObject) :
  let this1 := after (Vehicle.toggleFirstPersonView this) in
  let this2 := after (Vehicle.toggleFirstPersonView this1) in
  firstPerson this1 = negb (firstPerson this)
  /\ firstPerson this2 = firstPerson this
  /\ (world this = None ->
      returned (Vehicle.toggleFirstPersonView this) = false /\ world this1 = None)
  /\ (forall w, world this = Some w ->
      returned (Vehicle.toggleFirstPersonView this) = true
      /\ world this1 = Some (World.setRadius (if firstPerson this then 3 else 0) w)
      /\ world this2 = Some (World.setRadius (if firstPerson this then 0 else 3) w)).
Proof.
  intros this1 this2. subst this1 this2.
  unfold Vehicle.toggleFirstPersonView, Vehicle.setFirstPersonView, with_world,
    bind, read, assign.
  destruct this as [a v ws wo co fp po qu sp sw ast ss ge st tts ct].
  destruct wo as [w|], fp; cbn;
    (split; [reflexivity|]); (split; [reflexivity|]); split;
    try (intros H; discriminate H);
    try (intros _; split; reflexivity);
    try (intros w' Hw'; injection Hw' as <-; repeat split; reflexivity);
    try (intros w' Hw'; discriminate Hw').
Qed.

(** ** The life of a car *)

(** X29.  Whatever calls have been made on a car since its construction,
    including calls that threw, [update] throws on it, at its first
    statement and with the instance as it was, and [physicsPreStep] returns
    on it.  What only [update] assigns is therefore still what the
    constructor made it: the air-time accumulator is 0, the forward tilt is
    locked, the transform is at the origin with no rotation; and so a
    [physicsPreStep] never changes the spin about the right axis.  The names
    in its action table and its numbers of wheel records and of wheels are
    those of the constructor: one record and two wheel entries per wheel of
    the model, since the constructors of [Vehicle] and of [Car] both read
    the wheels of the model. *)
Theorem X29_update_throws_and_physicsPreStep_returns_on_every_reachable_car
  {caps : Capabilities} (calls : list Call) (ws : list Wheel.t) (sw : option Q)
  (dt : Q) (body : CANNON.Body.t) :
  let this := run calls (Car_new ws sw) in
  returned (Car.update dt this) = false
  /\ after (Car.update dt this) = this
  /\ returned (Car.physicsPreStep body this) = true
  /\ airSpinTimer this = 0
  /\ canTiltForwards this = false
  /\ position this = THREE.Vector3.mk 0 0 0
  /\ quaternion this = THREE.Quaternion.mk 0 0 0 1
  /\ spin_about_right body (after (Car.physicsPreStep body this))
     == spin_about_right body this
  /\ action_names this
     = ["throttle"; "reverse"; "left"; "right"; "handbrake"; "horn"]
  /\ length (wheelInfos_of this) = length ws
  /\ length (wheels this) = (2 * length ws)%nat.
Proof.
  intros this.
  assert (Hwf : WellFormed this) by apply reachable_WellFormed.
  destruct (reachable_update_owned calls ws sw) as (Hat & Hct & Hpos & Hquat).
  fold this in Hat, Hct, Hpos, Hquat.
  destruct (Car_physicsPreStep_increments body this (proj1 Hwf))
    as (bT & bRe & bL & bRi & p1 & p2 & _ & _ & _ & _ & E' & Hd).
  pose proof (run_stable calls (Car_new ws sw)) as Hs.
  unfold stable, same, fixed_part in Hs. fold this in Hs.
  injection Hs as Hn _ _ _ Hw Hi.
  rewrite Car_update_throws.
  split; [reflexivity|]. split; [reflexivity|]. split; [now rewrite E'|].
  split; [exact Hat|]. split; [exact Hct|]. split; [exact Hpos|].
  split; [exact Hquat|]. split; [|split; [exact Hn|split]].
  - destruct (axes_orthogonal body) as (Hfr & _ & _).
    assert (Hz : pitch_increment body this == 0).
    { unfold pitch_increment, Car.airSpinInfluence. rewrite Hat.
      assert (Ec : THREE.MathUtils.clamp (0 / 2) 0 1 == 0) by reflexivity.
      rewrite Ec. ring. }
    unfold spin_about_right. rewrite Hd, Hfr, Hz. ring.
  - unfold wheelInfos_of. rewrite Hi. cbn. apply length_map.
  - rewrite Hw. cbn. rewrite length_app. lia.
Qed.

(** ** [VehicleSpawnPoint.spawn] *)

(** X30.  The car a spawn point builds: its chassis body is at rest exactly
    one unit above the world position of the spawn object (all four
    positions of the body) with the orientation of the spawn object; it is
    in the world, and it is the input receiver exactly when the driver is
    "player".  Its own transform is at the origin with no rotation, and its
    first [update] does not bring it to the body: the call throws and the
    transform stays where it was. *)
Theorem X30_spawn_places_the_body_one_unit_above_the_spawn_object
  {caps : Capabilities} (sp : VehicleSpawnPoint.t) (ws : list Wheel.t)
  (sw : option Q) (w : World.t) (dt : Q) :
  let p := THREE.Object3D.position (VehicleSpawnPoint.object sp) in
  let q := THREE.Object3D.quaternion (VehicleSpawnPoint.object sp) in
  let above :=
    CANNON.Vec3.mk (THREE.Vector3.x p) (THREE.Vector3.y p + 1) (THREE.Vector3.z p) in
  let vehicle := after (VehicleSpawnPoint.spawn sp ws sw w) in
  returned (VehicleSpawnPoint.spawn sp ws sw w) = true
  /\ collision vehicle
     = CANNON.Body.mk above above above above
         (CANNON.Quaternion.mk (THREE.Quaternion.x q) (THREE.Quaternion.y q)
            (THREE.Quaternion.z q) (THREE.Quaternion.w q))
         Vec3_zero Vec3_zero
  /\ position vehicle = THREE.Vector3.mk 0 0 0
  /\ quaternion vehicle = THREE.Quaternion.mk 0 0 0 1
  /\ world vehicle
     = Some (if String.eqb (VehicleSpawnPoint.driver sp) "player"
             then World.setInputReceiver ReceiverVehicle w else w)
  /\ returned (Car.update dt vehicle) = false
  /\ position (after (Car.update dt vehicle)) = THREE.Vector3.mk 0 0 0
  /\ quaternion (after (Car.update dt vehicle)) = THREE.Quaternion.mk 0 0 0 1.
Proof.
  intros p q above vehicle.
  assert (E : VehicleSpawnPoint.spawn sp ws sw w
              = Normal tt
                  (set_world
                     (Some (if String.eqb (VehicleSpawnPoint.driver sp) "player"
                            then World.setInputReceiver ReceiverVehicle w else w))
                     (set_collision
                        (CANNON.Body.mk above above above above
                           (CANNON.Quaternion.mk (THREE.Quaternion.x q)
                              (THREE.Quaternion.y q) (THREE.Quaternion.z q)
                              (THREE.Quaternion.w q))
                           Vec3_zero Vec3_zero)
                        (Car_new ws sw)))).
  { unfold VehicleSpawnPoint.spawn, Vehicle.setPosition, with_world, bind, assign,
      read, ret. cbn.
    destruct (String.eqb (VehicleSpawnPoint.driver sp) "player"); reflexivity. }
  rewrite Car_update_throws. subst vehicle. rewrite E.
  repeat split; reflexivity.
Qed.
